(** * File-tampering monitor (monitoringserver.go): shallow embedding

    The development follows the Go program: the exclusion matcher
    [shouldExclude], the baseline build [initHashDB], the persistence
    function [saveHashDB], the scan cycle [checkFiles] and the start-up
    ([main], [initLog], [loadConfigFromFile]).  Go strings are
    byte sequences and are modelled by [string] (a list of 8-bit [ascii]);
    the map [hashDB] is a [gmap string string].  The standard-library
    functions the program calls (package strings, path/filepath on a Unix
    build, unicode/utf8 and encoding/json on the type [map[string]string])
    are modelled in their own modules. *)

From Stdlib Require Import NArith ZArith Ascii String List Bool Lia.
From stdpp Require Import base option list strings gmap fin_maps sorting.

Local Open Scope string_scope.

(** ** Bytes *)

Definition byteN (c : ascii) : N := N_of_ascii c.
Definition Nbyte (n : N) : ascii := ascii_of_N n.

(** ** unicode/utf8 *)
Module Utf8.

Definition RuneError : N := 0xFFFD%N.
Definition MaxRune : N := 0x10FFFF%N.
Definition RuneSelf : N := 0x80%N.
Definition surrogateMin : N := 0xD800%N.
Definition surrogateMax : N := 0xDFFF%N.

Definition maskx : N := 0x3F%N.
Definition mask2 : N := 0x1F%N.
Definition mask3 : N := 0x0F%N.
Definition mask4 : N := 0x07%N.
Definition tx : N := 0x80%N.
Definition t2 : N := 0xC0%N.
Definition t3 : N := 0xE0%N.
Definition t4 : N := 0xF0%N.
Definition locb : N := 0x80%N.
Definition hicb : N := 0xBF%N.

(* Information about the first byte of an encoding: the low three bits
   are the size, the high four bits index [acceptRanges]. *)
Definition xx : N := 0xF1%N.
Definition as_ : N := 0xF0%N.
Definition s1 : N := 0x02%N.
Definition s2 : N := 0x13%N.
Definition s3 : N := 0x03%N.
Definition s4 : N := 0x23%N.
Definition s5 : N := 0x34%N.
Definition s6 : N := 0x04%N.
Definition s7 : N := 0x44%N.

(* The table [first], by ranges of the index. *)
Definition first (b : N) : N :=
  if (b <? 0x80)%N then as_
  else if (b <? 0xC2)%N then xx
  else if (b <? 0xE0)%N then s1
  else if (b =? 0xE0)%N then s2
  else if (b <? 0xED)%N then s3
  else if (b =? 0xED)%N then s4
  else if (b <? 0xF0)%N then s3
  else if (b =? 0xF0)%N then s5
  else if (b <? 0xF4)%N then s6
  else if (b =? 0xF4)%N then s7
  else xx.

(* [acceptRanges]: the bounds on the second byte. *)
Definition acceptRanges (i : N) : N * N :=
  match i with
  | 0%N => (locb, hicb)
  | 1%N => (0xA0%N, hicb)
  | 2%N => (locb, 0x9F%N)
  | 3%N => (0x90%N, hicb)
  | 4%N => (locb, 0x8F%N)
  | _ => (1%N, 0%N)
  end.

Definition outside (b lo hi : N) : bool := (b <? lo)%N || (hi <? b)%N.

(** [DecodeRuneInString s]: the first rune of [s] and its width in
    bytes; [(RuneError, 1)] on an invalid encoding, [(RuneError, 0)] on
    the empty string. *)
Definition DecodeRuneInString (s : string) : N * nat :=
  match s with
  | EmptyString => (RuneError, 0)
  | String c0 r0 =>
    let b0 := byteN c0 in
    let x := first b0 in
    if (as_ <=? x)%N then
      (* the mask trick: bit 0 of x tells xx from as *)
      (if N.testbit x 0 then RuneError else b0, 1)
    else
      let sz := N.to_nat (N.land x 7) in
      let accept := acceptRanges (N.shiftr x 4) in
      if (String.length s <? sz)%nat then (RuneError, 1)
      else
        match r0 with
        | EmptyString => (RuneError, 1)
        | String c1 r1 =>
          let b1 := byteN c1 in
          if outside b1 (fst accept) (snd accept) then (RuneError, 1)
          else if (sz <=? 2)%nat then
            (N.lor (N.shiftl (N.land b0 mask2) 6) (N.land b1 maskx), 2)
          else
            match r1 with
            | EmptyString => (RuneError, 1)
            | String c2 r2 =>
              let b2 := byteN c2 in
              if outside b2 locb hicb then (RuneError, 1)
              else if (sz <=? 3)%nat then
                (N.lor (N.lor (N.shiftl (N.land b0 mask3) 12)
                              (N.shiftl (N.land b1 maskx) 6))
                       (N.land b2 maskx), 3)
              else
                match r2 with
                | EmptyString => (RuneError, 1)
                | String c3 _ =>
                  let b3 := byteN c3 in
                  if outside b3 locb hicb then (RuneError, 1)
                  else
                    (N.lor (N.lor (N.lor (N.shiftl (N.land b0 mask4) 18)
                                         (N.shiftl (N.land b1 maskx) 12))
                                  (N.shiftl (N.land b2 maskx) 6))
                           (N.land b3 maskx), 4)
                end
            end
        end
  end.

(* byte(x): conversion to uint8 keeps the low eight bits. *)
Definition lowbyte (n : N) : N := N.land n 0xFF.

Definition encode3 (r : N) : string :=
  String (Nbyte (N.lor t3 (lowbyte (N.shiftr r 12))))
 (String (Nbyte (N.lor tx (N.land (lowbyte (N.shiftr r 6)) maskx)))
 (String (Nbyte (N.lor tx (N.land (lowbyte r) maskx))) EmptyString)).

(** [EncodeRune r]: the UTF-8 encoding of [r]; the encoding of
    [RuneError] when [r] is a surrogate or out of range. *)
Definition EncodeRune (r : N) : string :=
  if (r <=? 0x7F)%N then String (Nbyte (lowbyte r)) EmptyString
  else if (r <=? 0x7FF)%N then
    String (Nbyte (N.lor t2 (lowbyte (N.shiftr r 6))))
   (String (Nbyte (N.lor tx (N.land (lowbyte r) maskx))) EmptyString)
  else if (MaxRune <? r)%N || ((surrogateMin <=? r)%N && (r <=? surrogateMax)%N)
    then encode3 RuneError
  else if (r <=? 0xFFFF)%N then encode3 r
  else
    String (Nbyte (N.lor t4 (lowbyte (N.shiftr r 18))))
   (String (Nbyte (N.lor tx (N.land (lowbyte (N.shiftr r 12)) maskx)))
   (String (Nbyte (N.lor tx (N.land (lowbyte (N.shiftr r 6)) maskx)))
   (String (Nbyte (N.lor tx (N.land (lowbyte r) maskx))) EmptyString))).

End Utf8.

(** ** Package strings *)
Module GoStrings.

Fixpoint drop (n : nat) (s : string) : string :=
  match n, s with
  | O, _ => s
  | S n', String _ s' => drop n' s'
  | S _, EmptyString => EmptyString
  end.

Definition take (n : nat) (s : string) : string := substring 0 n s.

Definition HasPrefix (s pre : string) : bool := String.prefix pre s.

Definition HasSuffix (s suffix : string) : bool :=
  (String.length suffix <=? String.length s)%nat &&
  String.eqb (drop (String.length s - String.length suffix) s) suffix.

Definition TrimSuffix (s suffix : string) : string :=
  if HasSuffix s suffix
  then take (String.length s - String.length suffix) s
  else s.

Fixpoint Contains (s substr : string) : bool :=
  HasPrefix s substr ||
  match s with
  | EmptyString => false
  | String _ s' => Contains s' substr
  end.

Fixpoint ContainsByte (s : string) (c : ascii) : bool :=
  match s with
  | EmptyString => false
  | String d s' => Ascii.eqb d c || ContainsByte s' c
  end.

End GoStrings.

(** ** Package path/filepath (Unix build) *)
Module Filepath.

Definition Separator : ascii := "/"%char.

Definition IsPathSeparator (c : ascii) : bool := Ascii.eqb Separator c.

Fixpoint replaceByte (old new : ascii) (s : string) : string :=
  match s with
  | EmptyString => EmptyString
  | String c s' =>
    String (if Ascii.eqb c old then new else c) (replaceByte old new s')
  end.

(** [ToSlash]: replaces each separator by a slash; the path itself where
    the separator is the slash. *)
Definition ToSlash (path : string) : string :=
  if Ascii.eqb Separator "/" then path
  else replaceByte Separator "/" path.

Fixpoint stripTrailingSeparators (path : string) : string :=
  match path with
  | EmptyString => EmptyString
  | String c s' =>
    let r := stripTrailingSeparators s' in
    if IsPathSeparator c && String.eqb r "" then "" else String c r
  end.

Fixpoint lastElement (path : string) : string :=
  match path with
  | EmptyString => EmptyString
  | String c s' =>
    if GoStrings.ContainsByte s' Separator then lastElement s'
    else if IsPathSeparator c then s' else path
  end.

(** [Base]: the last element of the path, trailing separators removed;
    "." for the empty path and the separator for a path of separators. *)
Definition Base (path : string) : string :=
  if String.eqb path "" then "."
  else
    let p := lastElement (stripTrailingSeparators path) in
    if String.eqb p "" then String Separator "" else p.

(** *** Match: shell patterns *)

Fixpoint trimStars (pattern : string) : bool * string :=
  match pattern with
  | String "*" p' => (true, snd (trimStars p'))
  | _ => (false, pattern)
  end.

(* The [Scan] loop of scanChunk: the chunk up to the first star outside
   a bracket expression, and what follows it. *)
Fixpoint scanSplit (inrange : bool) (pattern : string) : string * string :=
  match pattern with
  | EmptyString => ("", "")
  | String c p' =>
    if Ascii.eqb c "\" then
      match p' with
      | EmptyString => (String c "", "")
      | String d p'' =>
        let '(ch, rest) := scanSplit inrange p'' in (String c (String d ch), rest)
      end
    else if Ascii.eqb c "[" then
      let '(ch, rest) := scanSplit true p' in (String c ch, rest)
    else if Ascii.eqb c "]" then
      let '(ch, rest) := scanSplit false p' in (String c ch, rest)
    else if Ascii.eqb c "*" && negb inrange then ("", pattern)
    else
      let '(ch, rest) := scanSplit inrange p' in (String c ch, rest)
  end.

Definition scanChunk (pattern : string) : bool * string * string :=
  let '(star, p) := trimStars pattern in
  let '(chunk, rest) := scanSplit false p in
  (star, chunk, rest).

(** [getEsc]: a possibly escaped character of a bracket expression and
    the rest of the chunk; [None] is ErrBadPattern. *)
Definition getEsc (chunk : string) : option (N * string) :=
  match chunk with
  | EmptyString => None
  | String c rest =>
    if Ascii.eqb c "-" || Ascii.eqb c "]" then None
    else
      let chunk1 := if Ascii.eqb c "\" then rest else chunk in
      if String.eqb chunk1 "" then None
      else
        let '(r, n) := Utf8.DecodeRuneInString chunk1 in
        if (r =? Utf8.RuneError)%N && (n =? 1)%nat then None
        else
          let nchunk := GoStrings.drop n chunk1 in
          if String.eqb nchunk "" then None else Some (r, nchunk)
  end.

(* The loop over the ranges of a bracket expression; [r] is the rune of
   the name under test.  Returns the chunk after the closing bracket and
   whether a range held [r].  Every turn of the loop takes a byte of the
   chunk or more, so the fuel its callers give, the length of the chunk
   and one, is not used up. *)
Fixpoint classRanges (fuel : nat) (chunk : string) (r : N)
    (matched : bool) (nrange : nat) : option (string * bool) :=
  match fuel with
  | O => None
  | S fuel' =>
    match chunk, nrange with
    | String "]" chunk', S _ => Some (chunk', matched)
    | _, _ =>
      match getEsc chunk with
      | None => None
      | Some (lo, chunk1) =>
        match chunk1 with
        | String "-" chunk2 =>
          match getEsc chunk2 with
          | None => None
          | Some (hi, chunk3) =>
            classRanges fuel' chunk3 r
              (matched || ((lo <=? r)%N && (r <=? hi)%N)) (S nrange)
          end
        | _ =>
          classRanges fuel' chunk1 r
            (matched || ((lo <=? r)%N && (r <=? lo)%N)) (S nrange)
        end
      end
    end
  end.

(** [matchChunk chunk s]: [None] is ErrBadPattern; [Some None] no match;
    [Some (Some rest)] a match of a prefix of [s], leaving [rest].  After
    a failure the loop keeps checking that the chunk is well formed. *)
Fixpoint matchChunkLoop (fuel : nat) (chunk s : string) (failed : bool)
    : option (option string) :=
  match fuel with
  | O => None
  | S fuel' =>
    match chunk with
    | EmptyString => Some (if failed then None else Some s)
    | String c chunk' =>
      let failed := failed || String.eqb s "" in
      if Ascii.eqb c "[" then
        let '(r, s1) :=
          if failed then (0%N, s)
          else let '(r, n) := Utf8.DecodeRuneInString s in (r, GoStrings.drop n s) in
        let '(negated, chunk1) :=
          match chunk' with
          | String "^" c1 => (true, c1)
          | _ => (false, chunk')
          end in
        match classRanges (S (String.length chunk1)) chunk1 r false 0 with
        | None => None
        | Some (chunk2, matched) =>
          matchChunkLoop fuel' chunk2 s1 (failed || Bool.eqb matched negated)
        end
      else if Ascii.eqb c "?" then
        if failed then matchChunkLoop fuel' chunk' s failed
        else
          match s with
          | EmptyString => matchChunkLoop fuel' chunk' s failed
          | String d _ =>
            let failed1 := Ascii.eqb d Separator in
            let '(_, n) := Utf8.DecodeRuneInString s in
            matchChunkLoop fuel' chunk' (GoStrings.drop n s) failed1
          end
      else
        (* a backslash makes the next byte a literal *)
        let lit := if Ascii.eqb c "\" then chunk' else chunk in
        match lit with
        | EmptyString => None
        | String l chunk1 =>
          if failed then matchChunkLoop fuel' chunk1 s failed
          else
            match s with
            | EmptyString => matchChunkLoop fuel' chunk1 s failed
            | String d s' => matchChunkLoop fuel' chunk1 s' (negb (Ascii.eqb l d))
            end
        end
    end
  end.

Definition matchChunk (chunk s : string) : option (option string) :=
  matchChunkLoop (S (String.length chunk)) chunk s false.

(* The loop "skipping i+1 bytes" of Match, which cannot skip a
   separator.  [last] says that the pattern is exhausted.  [None] is
   ErrBadPattern, [Some None] no match, [Some (Some t)] the new name. *)
Fixpoint starSkip (chunk name : string) (last : bool) : option (option string) :=
  match name with
  | EmptyString => Some None
  | String c name' =>
    if Ascii.eqb c Separator then Some None
    else
      match matchChunk chunk name' with
      | None => None
      | Some (Some t) =>
        if last && negb (String.eqb t "") then starSkip chunk name' last
        else Some (Some t)
      | Some None => starSkip chunk name' last
      end
  end.

(** [Match pattern name]: whether the whole [name] matches the shell
    pattern, and whether the pattern is malformed (ErrBadPattern).  Every
    turn of the loop takes a byte of the pattern or more: the fuel, the
    length of the pattern and one, is not used up. *)
Fixpoint MatchLoop (fuel : nat) (pattern name : string) : bool * bool :=
  match fuel with
  | O => (false, true)
  | S fuel' =>
    if String.eqb pattern "" then (String.eqb name "", false)
    else
      let '(star, chunk, rest) := scanChunk pattern in
      if star && String.eqb chunk "" then
        (negb (GoStrings.ContainsByte name Separator), false)
      else
        match matchChunk chunk name with
        | Some (Some t) =>
          if String.eqb t "" || negb (String.eqb rest "")
          then MatchLoop fuel' rest t
          else
            if star then
              match starSkip chunk name (String.eqb rest "") with
              | None => (false, true)
              | Some (Some t') => MatchLoop fuel' rest t'
              | Some None => (false, false)
              end
            else (false, false)
        | None => (false, true)
        | Some None =>
          if star then
            match starSkip chunk name (String.eqb rest "") with
            | None => (false, true)
            | Some (Some t') => MatchLoop fuel' rest t'
            | Some None => (false, false)
            end
          else (false, false)
        end
  end.

Definition Match (pattern name : string) : bool * bool :=
  MatchLoop (S (String.length pattern)) pattern name.

End Filepath.

(** ** The program: exclusion rules *)

(** [shouldExclude path excludePatterns]: the first pattern that matches
    excludes the path.  A pattern ending in a slash is a directory rule, a
    pattern with a star is matched against the base name, any other
    pattern is compared with the whole path. *)
Fixpoint shouldExclude (path : string) (excludePatterns : list string) : bool :=
  let normalizedPath := Filepath.ToSlash path in
  match excludePatterns with
  | [] => false
  | pattern :: rest =>
    if GoStrings.HasSuffix pattern "/" then
      let dirPattern := GoStrings.TrimSuffix pattern "/" in
      if GoStrings.HasPrefix normalizedPath (dirPattern ++ "/") then true
      else shouldExclude path rest
    else if GoStrings.Contains pattern "*" then
      if fst (Filepath.Match pattern (Filepath.Base normalizedPath)) then true
      else shouldExclude path rest
    else
      if String.eqb normalizedPath pattern then true
      else shouldExclude path rest
  end.

(** ** Package encoding/json, on the type [map[string]string] *)
Module Json.

Definition dquote : ascii := "034"%char.
Definition newline : ascii := "010"%char.

Definition hexdigits : string := "0123456789abcdef".

Definition hexChar (n : N) : ascii :=
  match String.get (N.to_nat n) hexdigits with
  | Some c => c
  | None => "0"%char
  end.

(** *** Encoding *)

(* [htmlSafeSet]: the ASCII bytes written without escaping: all from the
   space on, except the double quote, the backslash and the three HTML
   characters. *)
Definition htmlSafeSet (b : N) : bool :=
  (0x20 <=? b)%N && (b <? 0x80)%N &&
  negb ((b =? 0x22)%N || (b =? 0x26)%N || (b =? 0x3C)%N || (b =? 0x3E)%N
        || (b =? 0x5C)%N).

(* The escape of an ASCII byte outside [htmlSafeSet]. *)
Definition escapeByte (c : ascii) : string :=
  let b := byteN c in
  if (b =? 0x5C)%N || (b =? 0x22)%N then String "\" (String c "")
  else if (b =? 0x08)%N then "\b"
  else if (b =? 0x0C)%N then "\f"
  else if (b =? 0x0A)%N then "\n"
  else if (b =? 0x0D)%N then "\r"
  else if (b =? 0x09)%N then "\t"
  else "\u00" ++ String (hexChar (N.shiftr b 4)) (String (hexChar (N.land b 0xF)) "").

Definition UTFMax : nat := 4.

(* The loop of appendString, one byte or one rune at a time; the fuel is
   the length of the string. *)
Fixpoint appendStringLoop (fuel : nat) (src : string) : string :=
  match fuel with
  | O => ""
  | S fuel' =>
    match src with
    | EmptyString => ""
    | String c rest =>
      let b := byteN c in
      if (b <? Utf8.RuneSelf)%N then
        if htmlSafeSet b then String c (appendStringLoop fuel' rest)
        else escapeByte c ++ appendStringLoop fuel' rest
      else
        let '(r, size) := Utf8.DecodeRuneInString (GoStrings.take UTFMax src) in
        if (r =? Utf8.RuneError)%N && (size =? 1)%nat then
          ("\u" ++ "fffd") ++ appendStringLoop fuel' (GoStrings.drop size src)
        else if (r =? 0x2028)%N || (r =? 0x2029)%N then
          "\u202" ++ String (hexChar (N.land r 0xF))
                       (appendStringLoop fuel' (GoStrings.drop size src))
        else
          GoStrings.take size src ++ appendStringLoop fuel' (GoStrings.drop size src)
    end
  end.

(** [appendString src]: the JSON string literal of [src], HTML
    characters escaped, invalid UTF-8 replaced by U+FFFD. *)
Definition appendString (src : string) : string :=
  String dquote (appendStringLoop (String.length src) src ++ String dquote "").

Definition keyLe (a b : string * string) : Prop := String.leb (fst a) (fst b) = true.

#[global] Instance keyLe_dec : RelDecision keyLe.
Proof. intros a b. unfold keyLe. apply bool_eq_dec. Defined.

(* The entries of a map in the order Marshal writes them: by key. *)
Definition sortedEntries (m : gmap string string) : list (string * string) :=
  merge_sort keyLe (map_to_list m).

Definition indentedMember (kv : string * string) : string :=
  "  " ++ appendString (fst kv) ++ ": " ++ appendString (snd kv).

Fixpoint joinLines (ls : list string) : string :=
  match ls with
  | [] => ""
  | [l] => l
  | l :: ls' => l ++ String "," (String newline (joinLines ls'))
  end.

(** [MarshalIndent m] with prefix "" and indent of two spaces: one
    member a line, keys sorted; the empty map is written as the two
    braces. *)
Definition MarshalIndent (m : gmap string string) : string :=
  match sortedEntries m with
  | [] => "{}"
  | es =>
    String "{" (String newline (joinLines (map indentedMember es)))
    ++ String newline "}"
  end.

(** *** Decoding: the scanner *)

Definition maxNestingDepth : N := 10000%N.

Definition isSpace (c : ascii) : bool :=
  Ascii.eqb c " " || Ascii.eqb c "009" || Ascii.eqb c "013" || Ascii.eqb c "010".

Fixpoint skipSpace (s : string) : string :=
  match s with
  | String c s' => if isSpace c then skipSpace s' else s
  | EmptyString => s
  end.

Definition isDigit (c : ascii) : bool :=
  (0x30 <=? byteN c)%N && (byteN c <=? 0x39)%N.

Definition isHex (c : ascii) : bool :=
  let b := byteN c in
  isDigit c || ((0x61 <=? b)%N && (b <=? 0x66)%N) || ((0x41 <=? b)%N && (b <=? 0x46)%N).

Definition isSimpleEscape (c : ascii) : bool :=
  Ascii.eqb c "b" || Ascii.eqb c "f" || Ascii.eqb c "n" || Ascii.eqb c "r"
  || Ascii.eqb c "t" || Ascii.eqb c "\" || Ascii.eqb c "/" || Ascii.eqb c dquote.

(* A string literal after its opening quote: the bytes up to the closing
   quote, as written, and what follows the literal. *)
Fixpoint scanString (s : string) : option (string * string) :=
  match s with
  | EmptyString => None
  | String c s' =>
    if Ascii.eqb c dquote then Some ("", s')
    else if Ascii.eqb c "\" then
      match s' with
      | EmptyString => None
      | String e s'' =>
        if isSimpleEscape e then
          match scanString s'' with
          | Some (raw, rest) => Some (String c (String e raw), rest)
          | None => None
          end
        else if Ascii.eqb e "u" then
          match s'' with
          | String h1 (String h2 (String h3 (String h4 s5))) =>
            if isHex h1 && isHex h2 && isHex h3 && isHex h4 then
              match scanString s5 with
              | Some (raw, rest) =>
                Some (String c (String e (String h1 (String h2 (String h3 (String h4 raw))))), rest)
              | None => None
              end
            else None
          | _ => None
          end
        else None
      end
    else if (byteN c <? 0x20)%N then None
    else
      match scanString s' with
      | Some (raw, rest) => Some (String c raw, rest)
      | None => None
      end
  end.

Fixpoint skipDigits (s : string) : string :=
  match s with
  | String c s' => if isDigit c then skipDigits s' else s
  | EmptyString => s
  end.

Definition scanExponent (s : string) : option string :=
  match s with
  | String c s1 =>
    if Ascii.eqb c "e" || Ascii.eqb c "E" then
      let s2 :=
        match s1 with
        | String g s2 => if Ascii.eqb g "+" || Ascii.eqb g "-" then s2 else s1
        | EmptyString => s1
        end in
      match s2 with
      | String d s3 => if isDigit d then Some (skipDigits s3) else None
      | EmptyString => None
      end
    else Some s
  | EmptyString => Some s
  end.

Definition scanFraction (s : string) : option string :=
  match s with
  | String "." s1 =>
    match s1 with
    | String d s2 => if isDigit d then scanExponent (skipDigits s2) else None
    | EmptyString => None
    end
  | _ => scanExponent s
  end.

(* A number, from its first byte (a minus sign or a digit). *)
Definition scanNumber (s : string) : option string :=
  let s1 := match s with String "-" s1 => s1 | _ => s end in
  match s1 with
  | String d s2 =>
    if Ascii.eqb d "0" then scanFraction s2
    else if isDigit d then scanFraction (skipDigits s2)
    else None
  | EmptyString => None
  end.

(** The values, as far as decoding into a map of strings looks at them:
    a string literal keeps its bytes, an object its members; what an
    array holds is checked and dropped. *)
#[warnings="-register-all"]
Inductive value :=
| VNull | VTrue | VFalse | VNumber
| VString (raw : string)
| VArray
| VObject (members : list (string * value)).

(* [depth] counts the arrays and objects that are open.  The fuel bounds
   the depth of the calls; a value needs no more of it than the bytes it
   spans, so checkValid gives the length of the text and one. *)
Fixpoint scanValue (fuel : nat) (depth : N) (s : string) : option (value * string) :=
  match fuel with
  | O => None
  | S fuel' =>
    match s with
    | EmptyString => None
    | String c s' =>
      if Ascii.eqb c "{" then
        if (maxNestingDepth <=? depth)%N then None
        else
          match skipSpace s' with
          | String "}" r => Some (VObject [], r)
          | s1 =>
            match scanMembers fuel' (depth + 1)%N s1 with
            | Some (ms, r) => Some (VObject ms, r)
            | None => None
            end
          end
      else if Ascii.eqb c "[" then
        if (maxNestingDepth <=? depth)%N then None
        else
          match skipSpace s' with
          | String "]" r => Some (VArray, r)
          | s1 =>
            match scanElements fuel' (depth + 1)%N s1 with
            | Some r => Some (VArray, r)
            | None => None
            end
          end
      else if Ascii.eqb c dquote then
        match scanString s' with
        | Some (raw, r) => Some (VString raw, r)
        | None => None
        end
      else if Ascii.eqb c "-" || isDigit c then
        match scanNumber s with
        | Some r => Some (VNumber, r)
        | None => None
        end
      else if String.prefix "true" s then Some (VTrue, GoStrings.drop 4 s)
      else if String.prefix "false" s then Some (VFalse, GoStrings.drop 5 s)
      else if String.prefix "null" s then Some (VNull, GoStrings.drop 4 s)
      else None
    end
  end
(* the members of an object, from the quote that opens a key *)
with scanMembers (fuel : nat) (depth : N) (s : string)
    : option (list (string * value) * string) :=
  match fuel with
  | O => None
  | S fuel' =>
    match s with
    | String c s' =>
      if Ascii.eqb c dquote then
        match scanString s' with
        | Some (key, r1) =>
          match skipSpace r1 with
          | String ":" r2 =>
            match scanValue fuel' depth (skipSpace r2) with
            | Some (v, r3) =>
              match skipSpace r3 with
              | String "," r4 =>
                match scanMembers fuel' depth (skipSpace r4) with
                | Some (ms, r5) => Some ((key, v) :: ms, r5)
                | None => None
                end
              | String "}" r4 => Some ([(key, v)], r4)
              | _ => None
              end
            | None => None
            end
          | _ => None
          end
        | None => None
        end
      else None
    | EmptyString => None
    end
  end
(* the elements of an array, from the first byte of an element *)
with scanElements (fuel : nat) (depth : N) (s : string) : option string :=
  match fuel with
  | O => None
  | S fuel' =>
    match scanValue fuel' depth s with
    | Some (_, r1) =>
      match skipSpace r1 with
      | String "," r2 => scanElements fuel' depth (skipSpace r2)
      | String "]" r2 => Some r2
      | _ => None
      end
    | None => None
    end
  end.

(** [checkValid data]: the one value of a well-formed text, white space
    allowed around it; [None] is a SyntaxError. *)
Definition checkValid (data : string) : option value :=
  match scanValue (S (String.length data)) 0%N (skipSpace data) with
  | Some (v, r) => if String.eqb (skipSpace r) "" then Some v else None
  | None => None
  end.

(** *** Decoding: string literals *)

Definition hexVal (c : ascii) : option N :=
  let b := byteN c in
  if (0x30 <=? b)%N && (b <=? 0x39)%N then Some (b - 0x30)%N
  else if (0x61 <=? b)%N && (b <=? 0x66)%N then Some (b - 0x61 + 10)%N
  else if (0x41 <=? b)%N && (b <=? 0x46)%N then Some (b - 0x41 + 10)%N
  else None.

(** [getu4 s]: the rune of the escape of six bytes that starts [s];
    [None] is the result -1. *)
Definition getu4 (s : string) : option N :=
  match s with
  | String "\" (String "u" (String h1 (String h2 (String h3 (String h4 _))))) =>
    match hexVal h1, hexVal h2, hexVal h3, hexVal h4 with
    | Some a, Some b, Some c, Some d => Some (((a * 16 + b) * 16 + c) * 16 + d)%N
    | _, _, _, _ => None
    end
  | _ => None
  end.

(* unicode/utf16 *)
Definition surr1 : N := 0xd800%N.
Definition surr2 : N := 0xdc00%N.
Definition surr3 : N := 0xe000%N.
Definition surrSelf : N := 0x10000%N.

Definition IsSurrogate (r : N) : bool := (surr1 <=? r)%N && (r <? surr3)%N.

Definition utf16DecodeRune (r1 : N) (r2 : option N) : N :=
  match r2 with
  | Some r2 =>
    if (surr1 <=? r1)%N && (r1 <? surr2)%N && (surr2 <=? r2)%N && (r2 <? surr3)%N
    then (N.lor (N.shiftl (r1 - surr1) 10) (r2 - surr2) + surrSelf)%N
    else Utf8.RuneError
  | None => Utf8.RuneError
  end.

(* The first loop of unquoteBytes: the length of the prefix that needs
   no unquoting. *)
Fixpoint plainPrefix (fuel : nat) (s : string) : nat :=
  match fuel with
  | O => 0
  | S fuel' =>
    match s with
    | EmptyString => 0
    | String c s' =>
      let b := byteN c in
      if Ascii.eqb c "\" || Ascii.eqb c dquote || (b <? 0x20)%N then 0
      else if (b <? Utf8.RuneSelf)%N then S (plainPrefix fuel' s')
      else
        let '(rr, size) := Utf8.DecodeRuneInString s in
        if (rr =? Utf8.RuneError)%N && (size =? 1)%nat then 0
        else size + plainPrefix fuel' (GoStrings.drop size s)
    end
  end.

(* The second loop of unquoteBytes. *)
Fixpoint unquoteLoop (fuel : nat) (s : string) : option string :=
  match fuel with
  | O => match s with EmptyString => Some "" | _ => None end
  | S fuel' =>
    match s with
    | EmptyString => Some ""
    | String c s' =>
      let b := byteN c in
      if Ascii.eqb c "\" then
        match s' with
        | EmptyString => None
        | String e s'' =>
          if Ascii.eqb e dquote || Ascii.eqb e "\" || Ascii.eqb e "/" || Ascii.eqb e "'"
          then String e <$> unquoteLoop fuel' s''
          else if Ascii.eqb e "b" then String "008"%char <$> unquoteLoop fuel' s''
          else if Ascii.eqb e "f" then String "012"%char <$> unquoteLoop fuel' s''
          else if Ascii.eqb e "n" then String "010"%char <$> unquoteLoop fuel' s''
          else if Ascii.eqb e "r" then String "013"%char <$> unquoteLoop fuel' s''
          else if Ascii.eqb e "t" then String "009"%char <$> unquoteLoop fuel' s''
          else if Ascii.eqb e "u" then
            match getu4 s with
            | None => None
            | Some rr =>
              let s6 := GoStrings.drop 6 s in
              if IsSurrogate rr then
                let dec := utf16DecodeRune rr (getu4 s6) in
                if negb (dec =? Utf8.RuneError)%N then
                  String.append (Utf8.EncodeRune dec) <$> unquoteLoop fuel' (GoStrings.drop 6 s6)
                else
                  String.append (Utf8.EncodeRune Utf8.RuneError) <$> unquoteLoop fuel' s6
              else
                String.append (Utf8.EncodeRune rr) <$> unquoteLoop fuel' s6
            end
          else None
        end
      else if Ascii.eqb c dquote || (b <? 0x20)%N then None
      else if (b <? Utf8.RuneSelf)%N then String c <$> unquoteLoop fuel' s'
      else
        let '(rr, size) := Utf8.DecodeRuneInString s in
        String.append (Utf8.EncodeRune rr) <$> unquoteLoop fuel' (GoStrings.drop size s)
    end
  end.

(** [unquoteBytes s]: the string a literal denotes, from the bytes
    between its quotes; [None] when the literal is malformed.  Invalid
    UTF-8 and lone surrogates come out as U+FFFD. *)
Definition unquoteBytes (s : string) : option string :=
  let r := plainPrefix (String.length s) s in
  String.append (GoStrings.take r s) <$>
    unquoteLoop (String.length s) (GoStrings.drop r s).

(** *** Decoding into a map of strings *)

Inductive UnmarshalError := SyntaxError | UnmarshalTypeError | PhaseError.

(* What a member's value stores in a string element, and whether it is
   a type error: a string literal stores its string, null leaves the
   zero value, anything else leaves the zero value and is an error. *)
Definition elemOf (v : value) : option (string * bool) :=
  match v with
  | VString raw =>
    match unquoteBytes raw with
    | Some s => Some (s, false)
    | None => None
    end
  | VNull => Some ("", false)
  | _ => Some ("", true)
  end.

(* The members are stored in the order of the text: a later key
   overwrites an earlier one, and a member whose value has the wrong
   type is stored with the zero value. *)
Fixpoint storeMembers (ms : list (string * value)) (m : gmap string string)
    (typeErr : bool) : option (gmap string string * bool) :=
  match ms with
  | [] => Some (m, typeErr)
  | (rawkey, v) :: ms' =>
    match unquoteBytes rawkey, elemOf v with
    | Some key, Some (s, e) => storeMembers ms' (<[key := s]> m) (typeErr || e)
    | _, _ => None
    end
  end.

(** [Unmarshal data m]: decodes [data] into the map [m], which keeps
    the entries it has.  A text that is not well formed leaves the map
    as it is; a value of the wrong type is an error reported at the
    end, after the rest has been stored.  The literal null resets the
    map (to the nil map, which reads as the empty map). *)
Definition Unmarshal (data : string) (m : gmap string string)
    : gmap string string * option UnmarshalError :=
  match checkValid data with
  | None => (m, Some SyntaxError)
  | Some (VObject ms) =>
    match storeMembers ms m false with
    | Some (m', false) => (m', None)
    | Some (m', true) => (m', Some UnmarshalTypeError)
    | None => (m, Some PhaseError)
    end
  | Some VNull => (∅, None)
  | Some _ => (m, Some UnmarshalTypeError)
  end.

End Json.

(** ** The file system, as the program observes it *)

Inductive FileMode := ModeRegular | ModeDir | ModeSymlink | ModeOther.

Record FileInfo := { Mode : FileMode; Size : Z }.

Definition IsDir (info : FileInfo) : bool :=
  match Mode info with ModeDir => true | _ => false end.

Definition IsRegular (info : FileInfo) : bool :=
  match Mode info with ModeRegular => true | _ => false end.

(** What filepath.Walk finds at a name: the path it hands to the callback,
    the result of Lstat ([None] when it fails) and, for a directory, the
    entries that readDirNames lists in lexical order ([None] when the
    directory cannot be read). *)
#[warnings="-register-all"]
Inductive node :=
| Node (path : string) (lstat : option FileInfo) (names : option (list node)).

(** What os.Stat answers: no error; the error that os.IsNotExist
    recognises (ENOENT); any other error, as ENOTDIR when a parent of the
    path is a file, or EACCES. *)
Inductive StatResult := StatOk | StatNotExist | StatError.

Definition IsNotExist (r : StatResult) : bool :=
  match r with StatNotExist => true | _ => false end.

Record FS := {
  (* the tree below a root, as Lstat and readDirNames report it *)
  fs_walk : string -> node;
  (* the hex SHA-256 digest of the content read from a path; [None] when
     Open or the copy into the digest fails *)
  fs_sha256 : string -> option string;
  (* os.Stat of a path (which follows symbolic links) *)
  fs_stat : string -> StatResult;
  (* whether MkdirAll and WriteFile succeed on the store file *)
  fs_mkdirall_ok : bool;
  fs_writefile_ok : bool
}.

(** ** filepath.Walk *)

Inductive WalkErr := WalkNil | SkipDir | WalkError.

Definition isNil (e : WalkErr) : bool :=
  match e with WalkNil => true | _ => false end.

Definition isSkipDir (e : WalkErr) : bool :=
  match e with SkipDir => true | _ => false end.

Definition rootNode (root : string) (n : node) : node :=
  match n with Node _ info names => Node root info names end.

Section Walk.
Context {St : Type}.
(* The callback: path, file information, whether an error is passed. *)
Variable walkFn : string -> option FileInfo -> bool -> St -> St * WalkErr.

(* Whether the loop over the names of a directory returns the error [e]
   that the entry [n] produced. *)
Definition stopsLoop (n : node) (e : WalkErr) : bool :=
  match n with
  | Node _ None _ => negb (isNil e) && negb (isSkipDir e)
  | Node _ (Some info) _ => negb (isNil e) && (negb (IsDir info) || negb (isSkipDir e))
  end.

(* The loop of walk over the entries of a directory, [w] being walk
   itself. *)
Definition walkLoop (w : node -> St -> St * WalkErr) : list node -> St -> St * WalkErr :=
  fix loop (l : list node) (st : St) {struct l} : St * WalkErr :=
    match l with
    | [] => (st, WalkNil)
    | c :: l' =>
      let '(st2, e) := w c st in
      if stopsLoop c e then (st2, e) else loop l' st2
    end.

(** [walk n st]: the callback on the entry when Lstat failed on it;
    otherwise the function walk of the package: the callback on a file,
    or on a directory and then on its entries in order. *)
Fixpoint walk (n : node) (st : St) {struct n} : St * WalkErr :=
  match n with
  | Node path None _ => walkFn path None true st
  | Node path (Some info) names =>
    if negb (IsDir info) then walkFn path (Some info) false st
    else
      let '(st1, err1) :=
        walkFn path (Some info) (match names with None => true | Some _ => false end) st in
      match names with
      | None => (st1, err1)
      | Some entries =>
        if negb (isNil err1) then (st1, err1)
        else walkLoop walk entries st1
      end
  end.

(** [Walk root n st]: walks the tree [n] found at [root]; SkipDir from
    the root is no error. *)
Definition Walk (root : string) (n : node) (st : St) : St * WalkErr :=
  let '(st', e) := walk (rootNode root n) st in
  (st', if isSkipDir e then WalkNil else e).
End Walk.

(** ** The program: state *)

Inductive ChangeEvent :=
| NewFile (path : string) (size : Z) (hash : string)
| ModifiedFile (path : string) (size : Z) (oldHash newHash : string)
| DeletedFile (path : string).

Definition eventPath (e : ChangeEvent) : string :=
  match e with
  | NewFile p _ _ => p
  | ModifiedFile p _ _ _ => p
  | DeletedFile p => p
  end.

(** The file at [hashDBFile]. *)
Inductive DBFile :=
| NoFile                      (* Stat fails *)
| Unreadable                  (* Stat succeeds, ReadFile fails *)
| Content (data : string).

(** The variables of the program that change: the map [hashDB], the
    alerts written so far (oldest first) and the store file.  The map is
    the one that make allocates when the program starts; the nil map,
    which only a store file holding the literal null can leave, reads as
    the empty map and is identified with it (an assignment into it, which
    panics in Go, is not modelled). *)
Record State := {
  hashDB : gmap string string;
  alerts : list ChangeEvent;
  dbFile : DBFile
}.

(** The configuration: [monitorDirs], [exclude] and [MaxFileSize]. *)
Record Config := {
  monitorDirs : list string;
  exclude : list string;
  MaxFileSize : Z
}.

Definition setHashDB (m : gmap string string) (st : State) : State :=
  {| hashDB := m; alerts := alerts st; dbFile := dbFile st |}.

Definition setDBFile (f : DBFile) (st : State) : State :=
  {| hashDB := hashDB st; alerts := alerts st; dbFile := f |}.

(** [alert]: one more line in the log. *)
Definition alert (e : ChangeEvent) (st : State) : State :=
  {| hashDB := hashDB st; alerts := alerts st ++ [e]; dbFile := dbFile st |}.

Definition calculateFileHash (fs : FS) (filePath : string) : option string :=
  fs_sha256 fs filePath.

(** [saveHashDB]: writes the whole map to the store file; the second
    component tells whether an error is returned. *)
Definition saveHashDB (fs : FS) (st : State) : State * bool :=
  if negb (fs_mkdirall_ok fs) then (st, true)
  else
    let data := Json.MarshalIndent (hashDB st) in
    if negb (fs_writefile_ok fs) then (st, true)
    else (setDBFile (Content data) st, false).

(** ** The program: the baseline *)

(* The callback of the walk in initHashDB. *)
Definition initFile (fs : FS) (path : string) (info : option FileInfo)
    (err : bool) (st : State) : State * WalkErr :=
  if err then (st, WalkError)
  else
    match info with
    | None => (st, WalkNil)   (* no information comes only with an error *)
    | Some info =>
      if negb (IsDir info) then
        match calculateFileHash fs path with
        | None => (st, WalkNil)
        | Some hash => (setHashDB (<[path := hash]> (hashDB st)) st, WalkNil)
        end
      else (st, WalkNil)
    end.

(* The first part of initHashDB: the state after the attempt to load the
   store file, and whether the map was loaded. *)
Definition loadHashDB (st : State) : State * bool :=
  match dbFile st with
  | NoFile => (st, false)
  | Unreadable => (st, false)
  | Content file =>
    match Json.Unmarshal file (hashDB st) with
    | (m, Some _) => (setHashDB m st, false)
    | (m, None) => (setHashDB m st, true)
    end
  end.

Definition walkDirs (fn : string -> string -> option FileInfo -> bool -> State -> State * WalkErr)
    (fs : FS) (dirs : list string) (st : State) : State :=
  fold_left (fun acc dir => fst (Walk (fn dir) dir (fs_walk fs dir) acc)) dirs st.

(** [initHashDB]: the map of the store file when it loads; otherwise the
    digest of every entry below the roots that is not a directory, saved
    to the store file. *)
Definition initHashDB (cfg : Config) (fs : FS) (st : State) : State :=
  let '(st0, loaded) := loadHashDB st in
  if loaded then st0
  else
    let st1 := walkDirs (fun _ => initFile fs) fs (monitorDirs cfg) st0 in
    fst (saveHashDB fs st1).

(** ** The program: the scan cycle *)

(* Lines 273 to 293: the digest of the file against the stored one.  The
   flag is [changesDetected]. *)
Definition compareHash (fs : FS) (path : string) (info : FileInfo)
    (st : State * bool) : State * bool :=
  match calculateFileHash fs path with
  | None => st
  | Some currentHash =>
    match hashDB (fst st) !! path with
    | None =>
      (alert (NewFile path (Size info) currentHash)
         (setHashDB (<[path := currentHash]> (hashDB (fst st))) (fst st)), true)
    | Some storedHash =>
      if negb (String.eqb storedHash currentHash) then
        (alert (ModifiedFile path (Size info) storedHash currentHash)
           (setHashDB (<[path := currentHash]> (hashDB (fst st))) (fst st)), true)
      else st
    end
  end.

(* The callback of the walk in checkFiles, for the root [dir]. *)
Definition checkFile (cfg : Config) (fs : FS) (dir : string) (path : string)
    (info : option FileInfo) (err : bool) (st : State * bool)
    : (State * bool) * WalkErr :=
  if err then (st, WalkError)
  else if String.eqb path dir then (st, WalkNil)
  else
    match info with
    | None => (st, WalkNil)   (* no information comes only with an error *)
    | Some info =>
      if shouldExclude path (exclude cfg) then
        if IsDir info then (st, SkipDir) else (st, WalkNil)
      else if negb (IsRegular info) then (st, WalkNil)
      else if (0 <? MaxFileSize cfg)%Z && (MaxFileSize cfg <? Size info)%Z then (st, WalkNil)
      else (compareHash fs path info st, WalkNil)
    end.

(* One step of the loop over the keys of [hashDB]. *)
Definition sweepStep (cfg : Config) (fs : FS) (st : State * bool) (path : string)
    : State * bool :=
  if IsNotExist (fs_stat fs path) then
    if negb (shouldExclude path (exclude cfg)) then
      (alert (DeletedFile path) (setHashDB (delete path (hashDB (fst st))) (fst st)), true)
    else st
  else st.

(** The loop over the keys of the map.  Go leaves the order of the keys
    open; the order of the list of the map stands for it. *)
Definition deletionSweep (cfg : Config) (fs : FS) (st : State * bool) : State * bool :=
  fold_left (sweepStep cfg fs) (map fst (map_to_list (hashDB (fst st)))) st.

Definition walkPhase (cfg : Config) (fs : FS) (st : State * bool) : State * bool :=
  fold_left
    (fun acc dir => fst (Walk (checkFile cfg fs dir) dir (fs_walk fs dir) acc))
    (monitorDirs cfg) st.

(** [checkFiles]: one scan cycle. *)
Definition checkFiles (cfg : Config) (fs : FS) (st : State) : State :=
  let '(st1, changesDetected) := deletionSweep cfg fs (walkPhase cfg fs (st, false)) in
  if changesDetected then fst (saveHashDB fs st1) else st1.

(** The state when the program starts: the empty map made for [hashDB],
    no alert, and the store file as it is on disk. *)
Definition startState (f : DBFile) : State :=
  {| hashDB := ∅; alerts := []; dbFile := f |}.

(** The scan cycles of startMonitoring, one file system state a cycle. *)
Definition runCycles (cfg : Config) (fss : list FS) (st : State) : State :=
  fold_left (fun acc fs => checkFiles cfg fs acc) fss st.

(** ** The program: start-up *)
Module Startup.

(* The variables of a scan cycle, as the rest of the development takes
   them. *)
Definition CycleConfig : Type := Config.

(** The command line: the flags that are given, and the arguments that
    follow them. *)
Record CommandLine := {
  flagConfig : option string;
  flagDB : option string;
  flagLog : option string;
  flagInterval : option Z;      (* a time.Duration, in nanoseconds *)
  flagArgs : list string
}.

(** The package variables that start-up sets.  [logFile] is the path on
    which the log file has been opened. *)
Record Globals := {
  configFile : string;
  monitorDirs : list string;
  hashDBFile : string;
  logFilePath : string;
  checkInterval : Z;
  exclude : list string;
  MaxFileSize : Z;
  logFile : option string
}.

(** The type Config of the program: the configuration file. *)
Record Wenjian := { Directories : list string; Exclude : list string }.

Record Config := mkConfig {
  wenjian : Wenjian;
  HashDBFile : string;
  LogFile : string;
  CheckInterval : string
}.

(** What start-up asks of its environment.  The decoding of the
    configuration file by json.Unmarshal and time.ParseDuration are taken
    as they answer: [None] is an error. *)
Record Env := {
  mkdirAll : string -> bool;                  (* of the directory of a path *)
  openFile : string -> bool;
  readFile : string -> option string;
  unmarshalConfig : string -> option Config;
  parseDuration : string -> option Z
}.

Inductive Fatal :=
| FatalLogDirectory | FatalLogFile
| FatalConfigRead | FatalConfigParse | FatalConfigDirectories
| FatalNoDirectories.

Definition minute : Z := 60 * 1000000000.

(** [init] and flag.Parse, and the arguments appended to [monitorDirs]
    (lines 41 to 57). *)
Definition parseFlags (cl : CommandLine) : Globals :=
  {| configFile := default "data/config.json" (flagConfig cl);
     monitorDirs := [] ++ flagArgs cl;
     hashDBFile := default "data/hashdb.json" (flagDB cl);
     logFilePath := default "data/webmonitor.log" (flagLog cl);
     checkInterval := default (20 * minute)%Z (flagInterval cl);
     exclude := [];
     MaxFileSize := 0;
     logFile := None |}.

Definition initLog (env : Env) (g : Globals) : Fatal + Globals :=
  if negb (mkdirAll env (logFilePath g)) then inl FatalLogDirectory
  else if negb (openFile env (logFilePath g)) then inl FatalLogFile
  else
    inr {| configFile := configFile g; monitorDirs := monitorDirs g;
           hashDBFile := hashDBFile g; logFilePath := logFilePath g;
           checkInterval := checkInterval g; exclude := exclude g;
           MaxFileSize := MaxFileSize g; logFile := Some (logFilePath g) |}.

Definition loadConfigFromFile (env : Env) (g : Globals) : Fatal + Globals :=
  match readFile env (configFile g) with
  | None => inl FatalConfigRead
  | Some file =>
    match unmarshalConfig env file with
    | None => inl FatalConfigParse
    | Some config =>
      if (length (Directories (wenjian config)) =? 0)%nat then inl FatalConfigDirectories
      else
        inr {| configFile := configFile g;
               monitorDirs := Directories (wenjian config);
               hashDBFile :=
                 if negb (String.eqb (HashDBFile config) "") then HashDBFile config
                 else hashDBFile g;
               logFilePath :=
                 if negb (String.eqb (LogFile config) "") then LogFile config
                 else logFilePath g;
               checkInterval :=
                 if negb (String.eqb (CheckInterval config) "") then
                   match parseDuration env (CheckInterval config) with
                   | None => checkInterval g
                   | Some duration => duration
                   end
                 else checkInterval g;
               exclude := Exclude (wenjian config);
               MaxFileSize := 10485760;
               logFile := logFile g |}
    end
  end.

(** [main] up to the call of initHashDB: the package variables with
    which the baseline and the cycles run, or the fatal error. *)
Definition main (env : Env) (cl : CommandLine) : Fatal + Globals :=
  match initLog env (parseFlags cl) with
  | inl f => inl f
  | inr g1 =>
    match (if negb (String.eqb (configFile g1) "") then loadConfigFromFile env g1
           else inr g1) with
    | inl f => inl f
    | inr g2 =>
      if (length (monitorDirs g2) =? 0)%nat then inl FatalNoDirectories else inr g2
    end
  end.

Definition cycleConfig (g : Globals) : CycleConfig :=
  Build_Config (monitorDirs g) (exclude g) (MaxFileSize g).

End Startup.

Local Close Scope string_scope.

(** ** The entries a walk visits *)

(** A call of the callback: the path, the file information and whether an
    error is passed. *)
Definition visit : Type := string * option FileInfo * bool.

(* The callback that records its calls and answers as [ctl] says. *)
Definition traceFn (ctl : string -> option FileInfo -> bool -> WalkErr)
    (path : string) (info : option FileInfo) (err : bool) (l : list visit)
    : list visit * WalkErr :=
  (l ++ [(path, info, err)], ctl path info err).

(** The calls of the callback during the walk of [n], in order, for a
    callback whose answers are those of [ctl]. *)
Definition walkTrace (ctl : string -> option FileInfo -> bool -> WalkErr)
    (n : node) : list visit :=
  fst (walk (traceFn ctl) n []).

Definition applyVisit {St : Type} (upd : string -> option FileInfo -> bool -> St -> St)
    (st : St) (v : visit) : St :=
  upd (fst (fst v)) (snd (fst v)) (snd v) st.

(* What the callback of checkFiles returns; it does not depend on the
   map. *)
Definition checkCtl (cfg : Config) (dir path : string) (info : option FileInfo)
    (err : bool) : WalkErr :=
  if err then WalkError
  else if String.eqb path dir then WalkNil
  else
    match info with
    | None => WalkNil
    | Some info =>
      if shouldExclude path (exclude cfg) && IsDir info then SkipDir else WalkNil
    end.

(* The files among the visits whose digest checkFiles computes: no error,
   not the root, not excluded, regular, within the size limit. *)
Definition hashed (cfg : Config) (dir : string) (v : visit) : option (string * FileInfo) :=
  match v with
  | (path, Some info, false) =>
    if String.eqb path dir then None
    else if shouldExclude path (exclude cfg) then None
    else if negb (IsRegular info) then None
    else if (0 <? MaxFileSize cfg)%Z && (MaxFileSize cfg <? Size info)%Z then None
    else Some (path, info)
  | _ => None
  end.

(** [scanTargets cfg fs]: the files that one cycle of checkFiles reaches
    and submits to [calculateFileHash], in the order of the walk, over all
    roots. *)
Definition scanTargets (cfg : Config) (fs : FS) : list (string * FileInfo) :=
  flat_map
    (fun dir => omap (hashed cfg dir)
                  (walkTrace (checkCtl cfg dir) (rootNode dir (fs_walk fs dir))))
    (monitorDirs cfg).

Definition compareStep (fs : FS) (st : State * bool) (t : string * FileInfo) : State * bool :=
  compareHash fs (fst t) (snd t) st.

(* What the callback of initHashDB returns. *)
Definition initCtl (path : string) (info : option FileInfo) (err : bool) : WalkErr :=
  if err then WalkError else WalkNil.

(* The entries that are not directories among the visits. *)
Definition baselined (v : visit) : option string :=
  match v with
  | (path, Some info, false) => if negb (IsDir info) then Some path else None
  | _ => None
  end.

(** [baselineTargets cfg fs]: the paths the walk of initHashDB reaches and
    submits to [calculateFileHash]. *)
Definition baselineTargets (cfg : Config) (fs : FS) : list string :=
  flat_map
    (fun dir => omap baselined (walkTrace initCtl (rootNode dir (fs_walk fs dir))))
    (monitorDirs cfg).

Definition baselineStep (fs : FS) (st : State) (path : string) : State :=
  match calculateFileHash fs path with
  | None => st
  | Some hash => setHashDB (<[path := hash]> (hashDB st)) st
  end.

(** The alerts of a cycle: what [st'] has logged beyond [st]. *)
Definition newAlerts (st st' : State) : list ChangeEvent :=
  List.skipn (List.length (alerts st)) (alerts st').

Definition aboutPath (p : string) (e : ChangeEvent) : bool := String.eqb (eventPath e) p.

Definition checkUpd (cfg : Config) (fs : FS) (dir path : string)
    (info : option FileInfo) (err : bool) (st : State * bool) : State * bool :=
  match hashed cfg dir (path, info, err) with
  | Some t => compareStep fs st t
  | None => st
  end.

Definition initUpd (fs : FS) (path : string) (info : option FileInfo) (err : bool)
    (st : State) : State :=
  match baselined (path, info, err) with
  | Some p => baselineStep fs st p
  | None => st
  end.

(** The keys the sweep deletes: os.Stat reports that the path does not
    exist and no exclusion rule matches it. *)
Definition doomed (cfg : Config) (fs : FS) (path : string) : bool :=
  IsNotExist (fs_stat fs path) && negb (shouldExclude path (exclude cfg)).

(** Every entry the walk of checkFiles finds at [path] is something else
    than a regular file. *)
Definition nonRegularAt (cfg : Config) (fs : FS) (path : string) : bool :=
  forallb
    (fun dir =>
       forallb
         (fun v : visit =>
            match v with
            | (p, Some info, _) => negb (String.eqb p path) || negb (IsRegular info)
            | _ => true
            end)
         (walkTrace (checkCtl cfg dir) (rootNode dir (fs_walk fs dir))))
    (monitorDirs cfg).

(** os.Stat finds every file that the walk of checkFiles submits to
    [calculateFileHash] (these are regular files that Lstat has just
    found). *)
Definition statFindsTargets (cfg : Config) (fs : FS) : bool :=
  forallb (fun t => negb (IsNotExist (fs_stat fs (fst t)))) (scanTargets cfg fs).

(** ** Well-formed UTF-8 *)

(** [validUTF8 s]: no position of [s] decodes to the replacement rune
    with width one (utf8.ValidString). *)
Fixpoint validUTF8Loop (fuel : nat) (s : string) : bool :=
  match fuel with
  | O => match s with EmptyString => true | _ => false end
  | S fuel' =>
    match s with
    | EmptyString => true
    | _ =>
      let '(r, size) := Utf8.DecodeRuneInString s in
      if (r =? Utf8.RuneError)%N && (size =? 1)%nat then false
      else validUTF8Loop fuel' (GoStrings.drop size s)
    end
  end.

Definition validUTF8 (s : string) : bool := validUTF8Loop (String.length s) s.

(** The paths and the fingerprints of a store are well-formed UTF-8. *)
Definition validStore (m : gmap string string) : bool :=
  forallb (fun kv => validUTF8 (fst kv) && validUTF8 (snd kv)) (map_to_list m).

(** ** Notions of the proofs *)

(* The bytes of [w] are all outside ASCII. *)
Fixpoint allHigh (w : string) : bool :=
  match w with
  | EmptyString => true
  | String c w' => (0x80 <=? byteN c)%N && allHigh w'
  end.

(** [encodes w r]: the bytes [w] are the UTF-8 encoding of the rune [r],
    of two bytes or more. *)
Definition encodes (w : string) (r : N) : Prop :=
  2 <= String.length w <= 4 /\ allHigh w = true /\ Utf8.EncodeRune r = w /\
  (0x80 <= r)%N /\
  forall y, Utf8.DecodeRuneInString (w ++ y) = (r, String.length w).

(** Well-formed UTF-8, byte by byte and rune by rune. *)
Inductive ValidUTF8 : string -> Prop :=
| valid_nil : ValidUTF8 ""
| valid_ascii c s : (byteN c < 0x80)%N -> ValidUTF8 s -> ValidUTF8 (String c s)
| valid_rune w r s : encodes w r -> ValidUTF8 s -> ValidUTF8 (w ++ s).

(* The entries of the table [first] that start a rune of two, three or
   four bytes. *)
Definition isLead (x : N) : Prop :=
  x = Utf8.s1 \/ x = Utf8.s2 \/ x = Utf8.s3 \/ x = Utf8.s4 \/
  x = Utf8.s5 \/ x = Utf8.s6 \/ x = Utf8.s7.

Definition isLead3 (x : N) : Prop := x = Utf8.s2 \/ x = Utf8.s3 \/ x = Utf8.s4.
Definition isLead4 (x : N) : Prop := x = Utf8.s5 \/ x = Utf8.s6 \/ x = Utf8.s7.

(* What appendString writes for an ASCII byte, and for a rune of two
   bytes or more with its encoding [w]. *)
Definition encAscii (c : ascii) : string :=
  if Json.htmlSafeSet (byteN c) then String c "" else Json.escapeByte c.

Definition encRune (w : string) (r : N) : string :=
  if (r =? 0x2028)%N || (r =? 0x2029)%N
  then ("\u202" ++ String (Json.hexChar (N.land r 0xF)) "")%string
  else w.

(* The bytes appendString writes between the quotes. *)
Definition rawOf (s : string) : string := Json.appendStringLoop (String.length s) s.

Definition rawMember (kv : string * string) : string * Json.value :=
  (rawOf (fst kv), Json.VString (rawOf (snd kv))).

(* The cases of a comparison. *)
Inductive compareCase (fs : FS) (path : string) (info : FileInfo)
    (st : State * bool) : State * bool -> Prop :=
| cmp_unreadable :
    fs_sha256 fs path = None -> compareCase fs path info st st
| cmp_same h :
    fs_sha256 fs path = Some h -> hashDB st.1 !! path = Some h ->
    compareCase fs path info st st
| cmp_new h :
    fs_sha256 fs path = Some h -> hashDB st.1 !! path = None ->
    compareCase fs path info st
      (alert (NewFile path (Size info) h)
         (setHashDB (<[path := h]> (hashDB st.1)) st.1), true)
| cmp_modified h1 h2 :
    fs_sha256 fs path = Some h2 -> hashDB st.1 !! path = Some h1 -> h1 <> h2 ->
    compareCase fs path info st
      (alert (ModifiedFile path (Size info) h1 h2)
         (setHashDB (<[path := h2]> (hashDB st.1)) st.1), true).

(** ** Notions of the further properties *)

(** What justifies an alert of a cycle that began in the state [st], the
    walk having compared the files [targets]: a new file was not in the
    store, a modified file was there with the old digest, and the digest
    in the alert is the one of the disk; a deleted path is one that
    os.Stat does not find, that no rule excludes, and that was in the
    store or entered it in this cycle. *)
Definition justified (cfg : Config) (fs : FS) (st : State)
    (targets : list (string * FileInfo)) (e : ChangeEvent) : Prop :=
  match e with
  | NewFile p size h =>
    hashDB st !! p = None /\ fs_sha256 fs p = Some h /\
    exists info, In (p, info) targets /\ Size info = size
  | ModifiedFile p size h1 h2 =>
    hashDB st !! p = Some h1 /\ fs_sha256 fs p = Some h2 /\ h1 <> h2 /\
    exists info, In (p, info) targets /\ Size info = size
  | DeletedFile p =>
    IsNotExist (fs_stat fs p) = true /\ shouldExclude p (exclude cfg) = false /\
    (is_Some (hashDB st !! p) \/ In p (map fst targets))
  end.

(* The flag changesDetected, in a cycle that began in [st0]: not set and
   the state is still [st0], or set and an alert has been written. *)
Definition flagInv (st0 : State) (s : State * bool) : Prop :=
  (s.2 = false /\ s.1 = st0) \/
  (s.2 = true /\ exists e evs, alerts s.1 = alerts st0 ++ e :: evs).

(** Every entry the walk of checkFiles finds at [path] is larger than the
    size limit, which is set. *)
Definition overLimitAt (cfg : Config) (fs : FS) (path : string) : bool :=
  forallb
    (fun dir =>
       forallb
         (fun v : visit =>
            match v with
            | (p, Some info, _) =>
              negb (String.eqb p path)
              || ((0 <? MaxFileSize cfg)%Z && (MaxFileSize cfg <? Size info)%Z)
            | _ => true
            end)
         (walkTrace (checkCtl cfg dir) (rootNode dir (fs_walk fs dir))))
    (monitorDirs cfg).

(* No visit of [T] passes an error to the callback. *)
Definition errFree (T : list visit) : bool := forallb (fun v : visit => negb (snd v)) T.

(* A walk that passes an error to the callback does so in its last visit
   and returns the error. *)
Definition endsAtError (T : list visit) (r : WalkErr) : Prop :=
  (errFree T = true /\ r <> WalkError) \/
  (exists T' v, T = T' ++ [v] /\ errFree T' = true /\ snd v = true /\ r = WalkError).

(** A pattern without the characters that [Filepath.Match] gives a
    meaning to: star, question mark, opening bracket, backslash. *)
Fixpoint literal (s : string) : bool :=
  match s with
  | EmptyString => true
  | String c s' =>
    negb (Ascii.eqb c "*" || Ascii.eqb c "?" || Ascii.eqb c "[" || Ascii.eqb c "\")
    && literal s'
  end.

(* [s] without its prefix [pre], when it has it. *)
Definition stripPrefix (pre s : string) : option string :=
  if String.prefix pre s then Some (GoStrings.drop (String.length pre) s) else None.

(* Whether [chunk] is what is left of [name] after one byte or more, none
   of them a separator, have been skipped. *)
Fixpoint suffixAfterSkip (chunk name : string) : bool :=
  match name with
  | EmptyString => false
  | String c name' =>
    if Ascii.eqb c Filepath.Separator then false
    else String.eqb name' chunk || suffixAfterSkip chunk name'
  end.

(** A value that decodes into a string of the map without error: a
    string literal or null. *)
Definition stringOrNull (v : Json.value) : bool :=
  match v with
  | Json.VString _ | Json.VNull => true
  | _ => false
  end.

(** The bytes between the quotes of a string literal, by the escapes the
    scanner accepts. *)
Inductive escaped : string -> Prop :=
| esc_nil : escaped EmptyString
| esc_plain c s :
    Ascii.eqb c "\" = false -> Ascii.eqb c Json.dquote = false ->
    (byteN c <? 0x20)%N = false -> escaped s -> escaped (String c s)
| esc_simple e s :
    Json.isSimpleEscape e = true -> escaped s -> escaped (String "\" (String e s))
| esc_unicode h1 h2 h3 h4 s :
    Json.isHex h1 && Json.isHex h2 && Json.isHex h3 && Json.isHex h4 = true ->
    escaped s ->
    escaped (String "\" (String "u" (String h1 (String h2 (String h3 (String h4 s)))))).

(* A literal as the scanner returns it, and a member of such literals. *)
Definition scanned (raw : string) : Prop :=
  exists x rest, Json.scanString x = Some (raw, rest).

Definition scannedMember (kv : string * Json.value) : Prop :=
  scanned kv.1 /\ forall raw, kv.2 = Json.VString raw -> scanned raw.

(** ** Scenarios *)
Module Scenario.
Local Open Scope string_scope.

Definition regular (path : string) (size : Z) : node :=
  Node path (Some {| Mode := ModeRegular; Size := size |}) None.
Definition directory (path : string) (entries : list node) : node :=
  Node path (Some {| Mode := ModeDir; Size := 4096 |}) (Some entries).
Definition symlink (path : string) : node :=
  Node path (Some {| Mode := ModeSymlink; Size := 9 |}) None.
Definition missing (path : string) : node := Node path None None.

Definition lookupOr {A : Type} (d : A) (l : list (string * A)) (k : string) : A :=
  match List.find (fun kv => String.eqb (fst kv) k) l with
  | Some kv => snd kv
  | None => d
  end.

(* A file system from the tree below each root, the digests of the
   readable files and the paths os.Stat finds. *)
Definition mkFS (roots : list (string * node)) (digests : list (string * string))
    (found : list string) : FS :=
  {| fs_walk := fun root => lookupOr (missing root) roots root;
     fs_sha256 := fun path => lookupOr None (map (fun kv => (fst kv, Some (snd kv))) digests) path;
     fs_stat := fun path =>
       if existsb (String.eqb path) found then StatOk else StatNotExist;
     fs_mkdirall_ok := true;
     fs_writefile_ok := true |}.

(** The scenario of the specification: /data holds a.txt and b.log, the
    rule excludes the logs. *)
Definition cfgData : Config :=
  {| monitorDirs := ["/data"]; exclude := ["*.log"]; MaxFileSize := 10485760 |}.

Definition treeData : node :=
  directory "/data" [regular "/data/a.txt" 1; regular "/data/b.log" 1].

Definition fsData (digestA : string) : FS :=
  mkFS [("/data", treeData)]
       [("/data/a.txt", digestA); ("/data/b.log", "hy")]
       ["/data"; "/data/a.txt"; "/data/b.log"].

(* a.txt has been removed *)
Definition fsGone : FS :=
  mkFS [("/data", directory "/data" [regular "/data/b.log" 1])]
       [("/data/b.log", "hy")]
       ["/data"; "/data/b.log"].


(* a baseline that knows a.txt and two files that are gone *)
Definition stBaselined : State :=
  {| hashDB := <["/data/old.log" := "ho"]>
                 (<["/data/gone.txt" := "hg"]> (<["/data/a.txt" := "hx"]> ∅));
     alerts := [];
     dbFile := NoFile |}.

(** An excluded subtree and a file over the size limit of the program
    (10485760 bytes): root /a, rule /a/b/. *)
Definition cfgA : Config :=
  {| monitorDirs := ["/a"]; exclude := ["/a/b/"]; MaxFileSize := 10485760 |}.

Definition fsA : FS :=
  mkFS [("/a", directory "/a"
                 [directory "/a/b" [regular "/a/b/x" 1];
                  regular "/a/big" 10485761;
                  regular "/a/c" 1])]
       [("/a/b/x", "hx"); ("/a/big", "hbig"); ("/a/c", "hc")]
       ["/a"; "/a/b"; "/a/b/x"; "/a/big"; "/a/c"].

(** A baselined file replaced by a symbolic link whose target is gone. *)
Definition cfgLink : Config :=
  {| monitorDirs := ["/a"]; exclude := []; MaxFileSize := 0 |}.

Definition fsDangling : FS :=
  mkFS [("/a", directory "/a" [symlink "/a/f"])] [] ["/a"].

(* the same, replaced by a directory *)
Definition fsNowDir : FS :=
  mkFS [("/a", directory "/a" [directory "/a/f" []])] [] ["/a"; "/a/f"].

Definition stLink : State :=
  {| hashDB := <["/a/f" := "h"]> ∅; alerts := []; dbFile := NoFile |}.

(** A file name in Latin-1: the byte E9 is no UTF-8. *)
Definition keyLatin1 : string := "/a/caf" ++ String (Nbyte 0xE9) ".txt".

(* the name with U+FFFD (EF BF BD) in place of the byte *)
Definition keyReplaced : string :=
  "/a/caf" ++ String (Nbyte 0xEF) (String (Nbyte 0xBF) (String (Nbyte 0xBD) ".txt")).

Definition stLatin1 : State :=
  {| hashDB := <[keyLatin1 := "h"]> ∅; alerts := []; dbFile := NoFile |}.
End Scenario.

(** ** More scenarios *)
Module Cases.
Local Open Scope string_scope.

(** The program started without a configuration file: no rule, no size
    limit. *)
Definition cfgPlain : Config :=
  {| monitorDirs := ["/a"]; exclude := []; MaxFileSize := 0 |}.

(* a store that knows the large file of [Scenario.fsA] *)
Definition stBig : State :=
  {| hashDB := <["/a/big" := "hold"]> ∅; alerts := []; dbFile := NoFile |}.





(** The only root is a regular file. *)
Definition cfgFile : Config :=
  {| monitorDirs := ["/f"]; exclude := []; MaxFileSize := 10485760 |}.

Definition fsFile : FS :=
  Scenario.mkFS [("/f", Scenario.regular "/f" 1)] [("/f", "hf")] ["/f"].

(* a store that has another digest for the file *)
Definition stFile : State :=
  {| hashDB := <["/f" := "hold"]> ∅; alerts := []; dbFile := NoFile |}.

(* the file with the content it had when the baseline was built *)
Definition fsFileOld : FS :=
  Scenario.mkFS [("/f", Scenario.regular "/f" 1)] [("/f", "hold")] ["/f"].

(** A directory that cannot be read, before a file. *)
Definition unreadableDir (path : string) : node :=
  Node path (Some {| Mode := ModeDir; Size := 4096 |}) None.

Definition treeLocked : node :=
  Scenario.directory "/data" [unreadableDir "/data/locked"; Scenario.regular "/data/z" 1].

Definition fsLocked : FS :=
  Scenario.mkFS [("/data", treeLocked)] [("/data/z", "hz")]
                ["/data"; "/data/locked"; "/data/z"].

(* the same tree when the baseline was built: the directory could be
   read, and z had another content *)
Definition fsUnlocked : FS :=
  Scenario.mkFS
    [("/data", Scenario.directory "/data"
                 [Scenario.directory "/data/locked" []; Scenario.regular "/data/z" 1])]
    [("/data/z", "hold")]
    ["/data"; "/data/locked"; "/data/z"].

(** An excluded directory, before a file. *)
Definition cfgCache : Config :=
  {| monitorDirs := ["/data"]; exclude := ["/data/cache"]; MaxFileSize := 10485760 |}.

Definition dirCache : node :=
  Scenario.directory "/data/cache" [Scenario.regular "/data/cache/t" 1].

(** A store file with a member of the wrong type: the first value is a
    number. *)
Definition quoted (s : string) : string :=
  String Json.dquote (s ++ String Json.dquote "").

Definition dataMistyped : string :=
  "{" ++ quoted "/data/n" ++ ": 5, " ++ quoted "/data/stale" ++ ": " ++ quoted "hs" ++ "}".

(** A start with the configuration file at its default path; the file
    names two directories, a rule and another log file. *)
Definition configNamed : Startup.Config :=
  Startup.mkConfig
    {| Startup.Directories := ["/var/www"; "/srv"]; Startup.Exclude := ["*.log"] |}
    "" "/var/log/monitor.log" "5m".

Definition envConfig : Startup.Env :=
  {| Startup.mkdirAll := fun _ => true;
     Startup.openFile := fun _ => true;
     Startup.readFile :=
       fun path => if String.eqb path "data/config.json" then Some "config" else None;
     Startup.unmarshalConfig :=
       fun file => if String.eqb file "config" then Some configNamed else None;
     Startup.parseDuration :=
       fun s => if String.eqb s "5m" then Some (5 * Startup.minute)%Z else None |}.

(* only directories on the command line *)
Definition clArgs : Startup.CommandLine :=
  {| Startup.flagConfig := None; Startup.flagDB := None; Startup.flagLog := None;
     Startup.flagInterval := None; Startup.flagArgs := ["/home"] |}.

(* the same with an empty -config *)
Definition clPlain : Startup.CommandLine :=
  {| Startup.flagConfig := Some ""; Startup.flagDB := None; Startup.flagLog := None;
     Startup.flagInterval := None; Startup.flagArgs := ["/home"] |}.

Definition globalsNamed : Startup.Globals :=
  {| Startup.configFile := "data/config.json";
     Startup.monitorDirs := ["/var/www"; "/srv"];
     Startup.hashDBFile := "data/hashdb.json";
     Startup.logFilePath := "/var/log/monitor.log";
     Startup.checkInterval := (5 * Startup.minute)%Z;
     Startup.exclude := ["*.log"];
     Startup.MaxFileSize := 10485760;
     Startup.logFile := Some "data/webmonitor.log" |}.

Definition globalsPlain : Startup.Globals :=
  {| Startup.configFile := "";
     Startup.monitorDirs := ["/home"];
     Startup.hashDBFile := "data/hashdb.json";
     Startup.logFilePath := "data/webmonitor.log";
     Startup.checkInterval := (20 * Startup.minute)%Z;
     Startup.exclude := [];
     Startup.MaxFileSize := 0;
     Startup.logFile := Some "data/webmonitor.log" |}.

End Cases.

(** ** The models on examples *)

Section Examples.
Local Open Scope string_scope.

Let q : string := String Json.dquote "".
Let nl : string := String Json.newline "".

Example ex_decode_ascii : Utf8.DecodeRuneInString "A" = (65%N, 1).
Proof. reflexivity. Qed.

Example ex_encode_line_separator :
  Utf8.EncodeRune 0x2028%N
  = String (Nbyte 0xE2) (String (Nbyte 0x80) (String (Nbyte 0xA8) "")).
Proof. reflexivity. Qed.

Example ex_decode_encode_four_bytes :
  Utf8.DecodeRuneInString (Utf8.EncodeRune 0x1F600%N) = (0x1F600%N, 4).
Proof. reflexivity. Qed.

Example ex_decode_latin1 :
  Utf8.DecodeRuneInString (String (Nbyte 0xE9) ".txt") = (Utf8.RuneError, 1).
Proof. reflexivity. Qed.

Example ex_TrimSuffix : GoStrings.TrimSuffix "logs/" "/" = "logs".
Proof. reflexivity. Qed.

Example ex_Base_file : Filepath.Base "/a/b/c.txt" = "c.txt".
Proof. reflexivity. Qed.

Example ex_Base_trailing : Filepath.Base "/a/b/" = "b".
Proof. reflexivity. Qed.

Example ex_Base_root : Filepath.Base "///" = "/".
Proof. reflexivity. Qed.

Example ex_Base_empty : Filepath.Base "" = ".".
Proof. reflexivity. Qed.

Example ex_Match_suffix : Filepath.Match "*.log" "b.log" = (true, false).
Proof. reflexivity. Qed.

Example ex_Match_suffix_no : Filepath.Match "*.log" "b.txt" = (false, false).
Proof. reflexivity. Qed.

Example ex_Match_two_stars : Filepath.Match "a*b*c" "aXXbYYc" = (true, false).
Proof. reflexivity. Qed.

Example ex_Match_two_stars_no : Filepath.Match "a*b*c" "aXXbYYcd" = (false, false).
Proof. reflexivity. Qed.

Example ex_Match_class : Filepath.Match "[a-c]*" "bzz" = (true, false).
Proof. reflexivity. Qed.

Example ex_Match_negated_class : Filepath.Match "[^a-c]*" "bzz" = (false, false).
Proof. reflexivity. Qed.

Example ex_Match_bad_class : Filepath.Match "[a-*" "bzz" = (false, true).
Proof. reflexivity. Qed.

Example ex_Match_bad_after_failure : Filepath.Match "a[" "x" = (false, true).
Proof. reflexivity. Qed.

Example ex_Match_question : Filepath.Match "a?c*" "abcd" = (true, false).
Proof. reflexivity. Qed.

Example ex_Match_star_stops_at_separator : Filepath.Match "*" "ab/cd" = (false, false).
Proof. reflexivity. Qed.

Example ex_Match_escape : Filepath.Match "a\*b*" "a*bc" = (true, false).
Proof. reflexivity. Qed.

Example ex_Match_backtrack : Filepath.Match "*x" "xxx" = (true, false).
Proof. reflexivity. Qed.

Example ex_exclude_wildcard : shouldExclude "/data/b.log" ["*.log"] = true.
Proof. reflexivity. Qed.

Example ex_exclude_wildcard_directory_segment :
  shouldExclude "/data/x.log/file" ["*.log"] = false.
Proof. reflexivity. Qed.

Example ex_exclude_exact : shouldExclude "/data/a.txt" ["/data/a.txt"] = true.
Proof. reflexivity. Qed.

Example ex_Marshal_empty : Json.MarshalIndent ∅ = "{}".
Proof. reflexivity. Qed.

Example ex_Marshal_two :
  Json.MarshalIndent (<["b" := "2"]> (<["a" := "1"]> ∅))
  = "{" ++ nl ++ "  " ++ q ++ "a" ++ q ++ ": " ++ q ++ "1" ++ q ++ "," ++ nl
    ++ "  " ++ q ++ "b" ++ q ++ ": " ++ q ++ "2" ++ q ++ nl ++ "}".
Proof. vm_compute. reflexivity. Qed.

Example ex_appendString_escapes :
  Json.appendString
    ("a<b" ++ String (Nbyte 0xE9) (String (Nbyte 7) (String (Nbyte 10) "\z")))
  = q ++ "a\u" ++ "003cb\u" ++ "fffd\u" ++ "0007\n\\z" ++ q.
Proof. vm_compute. reflexivity. Qed.

Example ex_unquoteBytes_escapes :
  Json.unquoteBytes ("a<b\u" ++ "fffd\u" ++ "0007\n\\z\u" ++ "d83d\u" ++ "de00")
  = Some ("a<b" ++ Utf8.EncodeRune 0xFFFD
          ++ String (Nbyte 7) (String (Nbyte 10) "\z") ++ Utf8.EncodeRune 0x1F600).
Proof. vm_compute. reflexivity. Qed.

Example ex_Unmarshal_not_json :
  Json.Unmarshal "oops" ∅ = (∅, Some Json.SyntaxError).
Proof. vm_compute. reflexivity. Qed.

Example ex_Unmarshal_trailing :
  Json.Unmarshal "{}x" ∅ = (∅, Some Json.SyntaxError).
Proof. vm_compute. reflexivity. Qed.

Example ex_Unmarshal_leading_zero :
  Json.Unmarshal " [1, 02] " ∅ = (∅, Some Json.SyntaxError).
Proof. vm_compute. reflexivity. Qed.

Example ex_Unmarshal_array :
  Json.Unmarshal " [1, 2.5e+3, -0.1, {}, [] ] " ∅ = (∅, Some Json.UnmarshalTypeError).
Proof. vm_compute. reflexivity. Qed.

(* members of the wrong type are stored with the zero value *)
Example ex_Unmarshal_wrong_types :
  Json.Unmarshal
    ("{" ++ q ++ "a" ++ q ++ ": 1, " ++ q ++ "b" ++ q ++ ": [1,{}, null ,true] }") ∅
  = (<["b" := ""]> (<["a" := ""]> ∅), Some Json.UnmarshalTypeError).
Proof. vm_compute. reflexivity. Qed.

(* a later member overwrites an earlier one with the same key *)
Example ex_Unmarshal_duplicate_key :
  Json.Unmarshal
    ("{" ++ q ++ "a" ++ q ++ ":" ++ q ++ "1" ++ q ++ "," ++ q ++ "a" ++ q ++ ":"
     ++ q ++ "2" ++ q ++ "}") ∅
  = (<["a" := "2"]> ∅, None).
Proof. vm_compute. reflexivity. Qed.

(** The scenario of the specification: a first scan from the empty
    store, a change of a.txt, its removal. *)
Example ex_first_scan :
  alerts (checkFiles Scenario.cfgData (Scenario.fsData "hx") (startState NoFile))
  = [NewFile "/data/a.txt" 1 "hx"] /\
  hashDB (checkFiles Scenario.cfgData (Scenario.fsData "hx") (startState NoFile))
  = <["/data/a.txt" := "hx"]> ∅.
Proof. vm_compute. auto. Qed.

Example ex_modified_scan :
  newAlerts (checkFiles Scenario.cfgData (Scenario.fsData "hx") (startState NoFile))
    (runCycles Scenario.cfgData [Scenario.fsData "hx"; Scenario.fsData "hz"]
       (startState NoFile))
  = [ModifiedFile "/data/a.txt" 1 "hx" "hz"].
Proof. vm_compute. reflexivity. Qed.

Example ex_deleted_scan :
  newAlerts (checkFiles Scenario.cfgData (Scenario.fsData "hx") (startState NoFile))
    (runCycles Scenario.cfgData [Scenario.fsData "hx"; Scenario.fsGone]
       (startState NoFile))
  = [DeletedFile "/data/a.txt"] /\
  hashDB (runCycles Scenario.cfgData [Scenario.fsData "hx"; Scenario.fsGone]
            (startState NoFile)) = ∅.
Proof. vm_compute. auto. Qed.

(* the store file after a scan that found changes *)
Example ex_scan_saves :
  dbFile (checkFiles Scenario.cfgData (Scenario.fsData "hx") (startState NoFile))
  = Content (Json.MarshalIndent (<["/data/a.txt" := "hx"]> ∅)).
Proof. vm_compute. reflexivity. Qed.
End Examples.

(** ** Proofs *)

(** *** Strings *)

Lemma append_String c a b : (String c a ++ b = String c (a ++ b))%string.
Proof. reflexivity. Qed.

Lemma append_nil_l a : ("" ++ a = a)%string.
Proof. reflexivity. Qed.

Lemma append_nil_r a : (a ++ "" = a)%string.
Proof. induction a as [|c a IH]; [done|]. by rewrite append_String, IH. Qed.

Lemma append_assoc_string a b c : ((a ++ b) ++ c = a ++ b ++ c)%string.
Proof.
  induction a as [|x a IH]; [done|]. by rewrite !append_String, IH.
Qed.

Lemma length_app_string a b :
  String.length (a ++ b)%string = String.length a + String.length b.
Proof. induction a as [|c a IH]; [done|]. rewrite append_String. simpl. by rewrite IH. Qed.

Lemma drop_length_app a b : GoStrings.drop (String.length a) (a ++ b)%string = b.
Proof. induction a as [|c a IH]; [by destruct b|]. by rewrite append_String. Qed.

Lemma take_length_app a b : GoStrings.take (String.length a) (a ++ b)%string = a.
Proof.
  unfold GoStrings.take. induction a as [|c a IH]; [by destruct b|].
  rewrite append_String. simpl. by rewrite IH.
Qed.

Lemma take_app_plus a b n :
  GoStrings.take (String.length a + n) (a ++ b)%string = (a ++ GoStrings.take n b)%string.
Proof.
  unfold GoStrings.take. induction a as [|c a IH]; [done|].
  rewrite !append_String. simpl. by rewrite IH.
Qed.

Lemma drop_app_plus a b n :
  GoStrings.drop (String.length a + n) (a ++ b)%string = GoStrings.drop n b.
Proof. induction a as [|c a IH]; [done|]. by rewrite append_String. Qed.

Lemma take_0 s : GoStrings.take 0 s = "".
Proof. by destruct s. Qed.

(** *** Bit operations as arithmetic *)

Ltac nlia := zify; Z.to_euclidean_division_equations; lia.

Lemma lor_shiftl_add h a n : (a < 2 ^ n -> N.lor (N.shiftl h n) a = h * 2 ^ n + a)%N.
Proof.
  intros Ha. rewrite <- N.shiftl_mul_pow2.
  assert (N.land (N.shiftl h n) a = 0%N) as Hland.
  { apply N.bits_inj_0. intros m. rewrite N.land_spec.
    destruct (N.lt_ge_cases m n) as [Hm|Hm].
    - by rewrite N.shiftl_spec_low.
    - rewrite <- (N.mod_small a (2 ^ n)) by done.
      by rewrite N.mod_pow2_bits_high, andb_false_r. }
  by rewrite N.add_nocarry_lxor, N.lxor_lor.
Qed.

Lemma land_3F a : N.land a 0x3F = (a mod 64)%N.
Proof. apply (N.land_ones a 6). Qed.
Lemma land_1F a : N.land a 0x1F = (a mod 32)%N.
Proof. apply (N.land_ones a 5). Qed.
Lemma land_0F a : N.land a 0x0F = (a mod 16)%N.
Proof. apply (N.land_ones a 4). Qed.
Lemma land_07 a : N.land a 0x07 = (a mod 8)%N.
Proof. apply (N.land_ones a 3). Qed.
Lemma land_FF a : N.land a 0xFF = (a mod 256)%N.
Proof. apply (N.land_ones a 8). Qed.
Lemma shiftr_6 a : N.shiftr a 6 = (a / 64)%N.
Proof. apply (N.shiftr_div_pow2 a 6). Qed.
Lemma shiftr_12 a : N.shiftr a 12 = (a / 4096)%N.
Proof. apply (N.shiftr_div_pow2 a 12). Qed.
Lemma shiftr_18 a : N.shiftr a 18 = (a / 262144)%N.
Proof. apply (N.shiftr_div_pow2 a 18). Qed.

Lemma lor_tx z : (z < 64 -> N.lor 0x80 z = 0x80 + z)%N.
Proof. intros H. apply (lor_shiftl_add 2 z 6 H). Qed.
Lemma lor_t2 z : (z < 32 -> N.lor 0xC0 z = 0xC0 + z)%N.
Proof. intros H. apply (lor_shiftl_add 6 z 5 H). Qed.
Lemma lor_t3 z : (z < 16 -> N.lor 0xE0 z = 0xE0 + z)%N.
Proof. intros H. apply (lor_shiftl_add 14 z 4 H). Qed.
Lemma lor_t4 z : (z < 8 -> N.lor 0xF0 z = 0xF0 + z)%N.
Proof. intros H. apply (lor_shiftl_add 30 z 3 H). Qed.

Lemma compose2 x0 x1 :
  (x1 < 64 -> N.lor (N.shiftl x0 6) x1 = x0 * 64 + x1)%N.
Proof. intros H. apply (lor_shiftl_add x0 x1 6 H). Qed.

Lemma compose3 x0 x1 x2 :
  (x1 < 64 -> x2 < 64 ->
   N.lor (N.lor (N.shiftl x0 12) (N.shiftl x1 6)) x2 = x0 * 4096 + x1 * 64 + x2)%N.
Proof.
  intros H1 H2.
  assert (N.lor (N.shiftl x0 12) (N.shiftl x1 6) = N.shiftl (x0 * 64 + x1) 6) as ->.
  { rewrite lor_shiftl_add; rewrite !N.shiftl_mul_pow2;
      change (2 ^ 6)%N with 64%N; change (2 ^ 12)%N with 4096%N; lia. }
  rewrite lor_shiftl_add by done. change (2 ^ 6)%N with 64%N. lia.
Qed.

Lemma compose4 x0 x1 x2 x3 :
  (x1 < 64 -> x2 < 64 -> x3 < 64 ->
   N.lor (N.lor (N.lor (N.shiftl x0 18) (N.shiftl x1 12)) (N.shiftl x2 6)) x3
   = x0 * 262144 + x1 * 4096 + x2 * 64 + x3)%N.
Proof.
  intros H1 H2 H3.
  assert (N.lor (N.shiftl x0 18) (N.shiftl x1 12) = N.shiftl (x0 * 64 + x1) 12) as ->.
  { rewrite lor_shiftl_add; rewrite !N.shiftl_mul_pow2;
      change (2 ^ 12)%N with 4096%N; change (2 ^ 18)%N with 262144%N; lia. }
  rewrite compose3 by done. lia.
Qed.

Lemma byteN_lt c : (byteN c < 256)%N.
Proof. apply N_ascii_bounded. Qed.

Lemma Nbyte_byteN c : Nbyte (byteN c) = c.
Proof. apply ascii_N_embedding. Qed.

(** *** Encoding a rune from its parts *)

Lemma encode2 x0 x1 :
  (2 <= x0 < 32)%N -> (x1 < 64)%N ->
  Utf8.EncodeRune (x0 * 64 + x1)
  = String (Nbyte (0xC0 + x0)) (String (Nbyte (0x80 + x1)) "").
Proof.
  intros H0 H1. unfold Utf8.EncodeRune.
  destruct (N.leb_spec (x0 * 64 + x1) 0x7F) as [?|_]; [lia|].
  destruct (N.leb_spec (x0 * 64 + x1) 0x7FF) as [_|?]; [|lia].
  unfold Utf8.lowbyte, Utf8.t2, Utf8.tx, Utf8.maskx.
  rewrite shiftr_6, !land_FF, land_3F.
  rewrite lor_t2, lor_tx by nlia.
  do 2 f_equal; f_equal; nlia.
Qed.

Lemma encode3 x0 x1 x2 :
  (x0 < 16)%N -> (x1 < 64)%N -> (x2 < 64)%N ->
  (0x800 <= x0 * 4096 + x1 * 64 + x2)%N ->
  (x0 * 4096 + x1 * 64 + x2 < 0xD800 \/ 0xDFFF < x0 * 4096 + x1 * 64 + x2)%N ->
  Utf8.EncodeRune (x0 * 4096 + x1 * 64 + x2)
  = String (Nbyte (0xE0 + x0)) (String (Nbyte (0x80 + x1)) (String (Nbyte (0x80 + x2)) "")).
Proof.
  intros H0 H1 H2 Hlo Hsur. unfold Utf8.EncodeRune.
  set (r := (x0 * 4096 + x1 * 64 + x2)%N) in *.
  destruct (N.leb_spec r 0x7F) as [?|_]; [lia|].
  destruct (N.leb_spec r 0x7FF) as [?|_]; [lia|].
  unfold Utf8.MaxRune, Utf8.surrogateMin, Utf8.surrogateMax.
  destruct (N.ltb_spec 0x10FFFF r) as [?|_]; [lia|].
  assert ((0xD800 <=? r)%N && (r <=? 0xDFFF)%N = false) as ->.
  { destruct (N.leb_spec 0xD800 r), (N.leb_spec r 0xDFFF); simpl; auto; lia. }
  cbn [orb].
  destruct (N.leb_spec r 0xFFFF) as [_|?]; [|lia].
  unfold Utf8.encode3, Utf8.lowbyte, Utf8.t3, Utf8.tx, Utf8.maskx.
  rewrite shiftr_6, shiftr_12, !land_FF, !land_3F.
  rewrite lor_t3, !lor_tx by (subst r; nlia).
  subst r. do 3 f_equal; f_equal; nlia.
Qed.

Lemma encode4 x0 x1 x2 x3 :
  (x0 < 8)%N -> (x1 < 64)%N -> (x2 < 64)%N -> (x3 < 64)%N ->
  (0x10000 <= x0 * 262144 + x1 * 4096 + x2 * 64 + x3 <= 0x10FFFF)%N ->
  Utf8.EncodeRune (x0 * 262144 + x1 * 4096 + x2 * 64 + x3)
  = String (Nbyte (0xF0 + x0)) (String (Nbyte (0x80 + x1))
      (String (Nbyte (0x80 + x2)) (String (Nbyte (0x80 + x3)) ""))).
Proof.
  intros H0 H1 H2 H3 Hr. unfold Utf8.EncodeRune.
  set (r := (x0 * 262144 + x1 * 4096 + x2 * 64 + x3)%N) in *.
  destruct (N.leb_spec r 0x7F) as [?|_]; [lia|].
  destruct (N.leb_spec r 0x7FF) as [?|_]; [lia|].
  unfold Utf8.MaxRune, Utf8.surrogateMin, Utf8.surrogateMax.
  destruct (N.ltb_spec 0x10FFFF r) as [?|_]; [lia|].
  assert ((0xD800 <=? r)%N && (r <=? 0xDFFF)%N = false) as ->.
  { destruct (N.leb_spec 0xD800 r), (N.leb_spec r 0xDFFF); simpl; auto; lia. }
  cbn [orb].
  destruct (N.leb_spec r 0xFFFF) as [?|_]; [lia|].
  unfold Utf8.lowbyte, Utf8.t4, Utf8.tx, Utf8.maskx.
  rewrite shiftr_6, shiftr_12, shiftr_18, !land_FF, !land_3F.
  rewrite lor_t4, !lor_tx by (subst r; nlia).
  subst r. do 4 f_equal; f_equal; nlia.
Qed.

(** *** Decoding a rune *)


Lemma outside_false b lo hi :
  Utf8.outside b lo hi = false <-> (lo <= b <= hi)%N.
Proof.
  unfold Utf8.outside. rewrite orb_false_iff, !N.ltb_ge. tauto.
Qed.

Lemma first_spec b :
  (b < 0x80 /\ Utf8.first b = Utf8.as_)%N \/
  ((0x80 <= b)%N /\ Utf8.first b = Utf8.xx) \/
  ((0xC2 <= b < 0xE0)%N /\ Utf8.first b = Utf8.s1) \/
  (b = 0xE0%N /\ Utf8.first b = Utf8.s2) \/
  (((0xE1 <= b < 0xED) \/ (0xEE <= b < 0xF0))%N /\ Utf8.first b = Utf8.s3) \/
  (b = 0xED%N /\ Utf8.first b = Utf8.s4) \/
  (b = 0xF0%N /\ Utf8.first b = Utf8.s5) \/
  ((0xF1 <= b < 0xF4)%N /\ Utf8.first b = Utf8.s6) \/
  (b = 0xF4%N /\ Utf8.first b = Utf8.s7).
Proof.
  unfold Utf8.first.
  repeat match goal with
  | |- context [(?a <? ?c)%N] => destruct (N.ltb_spec a c)
  | |- context [(?a =? ?c)%N] => destruct (N.eqb_spec a c)
  end; intuition lia.
Qed.

Lemma decode_ascii c0 t :
  Utf8.first (byteN c0) = Utf8.as_ ->
  Utf8.DecodeRuneInString (String c0 t) = (byteN c0, 1).
Proof. intros H. unfold Utf8.DecodeRuneInString. rewrite H. reflexivity. Qed.

Lemma decode_xx c0 t :
  Utf8.first (byteN c0) = Utf8.xx ->
  Utf8.DecodeRuneInString (String c0 t) = (Utf8.RuneError, 1).
Proof. intros H. unfold Utf8.DecodeRuneInString. rewrite H. reflexivity. Qed.


Ltac lead_cases H :=
  unfold isLead, isLead3, isLead4 in H;
  repeat (destruct H as [H|H]).

Lemma decode_short1 c0 x :
  Utf8.first (byteN c0) = x -> isLead x ->
  Utf8.DecodeRuneInString (String c0 "") = (Utf8.RuneError, 1).
Proof.
  intros H Hx.
  lead_cases Hx; rewrite Hx in H; rewrite ?Hx; unfold Utf8.DecodeRuneInString; rewrite H; reflexivity.
Qed.

Lemma decode_2 c0 c1 t :
  Utf8.first (byteN c0) = Utf8.s1 ->
  Utf8.DecodeRuneInString (String c0 (String c1 t))
  = if Utf8.outside (byteN c1) Utf8.locb Utf8.hicb then (Utf8.RuneError, 1)
    else (N.lor (N.shiftl (N.land (byteN c0) Utf8.mask2) 6)
                (N.land (byteN c1) Utf8.maskx), 2).
Proof. intros H. unfold Utf8.DecodeRuneInString. rewrite H. reflexivity. Qed.

Lemma decode_short2 c0 c1 x :
  Utf8.first (byteN c0) = x -> isLead3 x \/ isLead4 x ->
  Utf8.DecodeRuneInString (String c0 (String c1 "")) = (Utf8.RuneError, 1).
Proof.
  intros H Hx.
  destruct Hx as [Hx|Hx]; lead_cases Hx; rewrite Hx in H; rewrite ?Hx;
    unfold Utf8.DecodeRuneInString; rewrite H; reflexivity.
Qed.

Lemma decode_3 c0 c1 c2 t x :
  Utf8.first (byteN c0) = x -> isLead3 x ->
  Utf8.DecodeRuneInString (String c0 (String c1 (String c2 t)))
  = if Utf8.outside (byteN c1) (fst (Utf8.acceptRanges (N.shiftr x 4)))
                    (snd (Utf8.acceptRanges (N.shiftr x 4)))
    then (Utf8.RuneError, 1)
    else if Utf8.outside (byteN c2) Utf8.locb Utf8.hicb then (Utf8.RuneError, 1)
    else (N.lor (N.lor (N.shiftl (N.land (byteN c0) Utf8.mask3) 12)
                       (N.shiftl (N.land (byteN c1) Utf8.maskx) 6))
                (N.land (byteN c2) Utf8.maskx), 3).
Proof.
  intros H Hx.
  lead_cases Hx; rewrite Hx in H; rewrite ?Hx; unfold Utf8.DecodeRuneInString; rewrite H; reflexivity.
Qed.

Lemma decode_short3 c0 c1 c2 x :
  Utf8.first (byteN c0) = x -> isLead4 x ->
  Utf8.DecodeRuneInString (String c0 (String c1 (String c2 ""))) = (Utf8.RuneError, 1).
Proof.
  intros H Hx.
  lead_cases Hx; rewrite Hx in H; rewrite ?Hx; unfold Utf8.DecodeRuneInString; rewrite H; reflexivity.
Qed.

Lemma decode_4 c0 c1 c2 c3 t x :
  Utf8.first (byteN c0) = x -> isLead4 x ->
  Utf8.DecodeRuneInString (String c0 (String c1 (String c2 (String c3 t))))
  = if Utf8.outside (byteN c1) (fst (Utf8.acceptRanges (N.shiftr x 4)))
                    (snd (Utf8.acceptRanges (N.shiftr x 4)))
    then (Utf8.RuneError, 1)
    else if Utf8.outside (byteN c2) Utf8.locb Utf8.hicb then (Utf8.RuneError, 1)
    else if Utf8.outside (byteN c3) Utf8.locb Utf8.hicb then (Utf8.RuneError, 1)
    else (N.lor (N.lor (N.lor (N.shiftl (N.land (byteN c0) Utf8.mask4) 18)
                              (N.shiftl (N.land (byteN c1) Utf8.maskx) 12))
                       (N.shiftl (N.land (byteN c2) Utf8.maskx) 6))
                (N.land (byteN c3) Utf8.maskx), 4).
Proof.
  intros H Hx.
  lead_cases Hx; rewrite Hx in H; rewrite ?Hx; unfold Utf8.DecodeRuneInString; rewrite H; reflexivity.
Qed.

Lemma allHigh_cons c w : (0x80 <= byteN c)%N -> allHigh w = true -> allHigh (String c w) = true.
Proof. intros H Hw. simpl. rewrite Hw, andb_true_r. by apply N.leb_le. Qed.

Lemma encodes_2 c0 c1 :
  Utf8.first (byteN c0) = Utf8.s1 -> (0xC2 <= byteN c0 < 0xE0)%N ->
  (0x80 <= byteN c1 <= 0xBF)%N ->
  encodes (String c0 (String c1 ""))
    (N.lor (N.shiftl (N.land (byteN c0) Utf8.mask2) 6) (N.land (byteN c1) Utf8.maskx)).
Proof.
  intros Hf H0 H1. unfold Utf8.mask2, Utf8.maskx.
  rewrite land_1F, land_3F, compose2 by nlia.
  split; [simpl; lia|]. split; [by repeat apply allHigh_cons; try lia|].
  split; [|split].
  - rewrite encode2 by nlia.
    replace (0xC0 + byteN c0 mod 32)%N with (byteN c0) by nlia.
    replace (0x80 + byteN c1 mod 64)%N with (byteN c1) by nlia.
    by rewrite !Nbyte_byteN.
  - nlia.
  - intros y. change (String c0 (String c1 "") ++ y)%string with (String c0 (String c1 y)).
    rewrite decode_2 by done. rewrite (proj2 (outside_false _ _ _)) by done.
    unfold Utf8.mask2, Utf8.maskx. by rewrite land_1F, land_3F, compose2 by nlia.
Qed.

Lemma encodes_3 c0 c1 c2 x :
  Utf8.first (byteN c0) = x -> isLead3 x ->
  (0xE0 <= byteN c0 <= 0xEF)%N ->
  (0x80 <= byteN c1 <= 0xBF)%N ->
  (byteN c0 = 0xE0 -> 0xA0 <= byteN c1)%N ->
  (byteN c0 = 0xED -> byteN c1 <= 0x9F)%N ->
  Utf8.outside (byteN c1) (fst (Utf8.acceptRanges (N.shiftr x 4)))
    (snd (Utf8.acceptRanges (N.shiftr x 4))) = false ->
  (0x80 <= byteN c2 <= 0xBF)%N ->
  encodes (String c0 (String c1 (String c2 "")))
    (N.lor (N.lor (N.shiftl (N.land (byteN c0) Utf8.mask3) 12)
                  (N.shiftl (N.land (byteN c1) Utf8.maskx) 6))
           (N.land (byteN c2) Utf8.maskx)).
Proof.
  intros Hf Hx H0 H1 HE0 HED Ho H2. unfold Utf8.mask3, Utf8.maskx.
  assert (N.lor (N.lor (N.shiftl (N.land (byteN c0) 15) 12)
                       (N.shiftl (N.land (byteN c1) 63) 6))
                (N.land (byteN c2) 63)
          = ((byteN c0 mod 16) * 4096 + (byteN c1 mod 64) * 64 + byteN c2 mod 64)%N) as Hr.
  { rewrite land_0F, !land_3F, compose3 by nlia. done. }
  split; [simpl; lia|]. split; [by repeat apply allHigh_cons; try lia|].
  split; [|split].
  - rewrite Hr, encode3 by nlia.
    replace (0xE0 + byteN c0 mod 16)%N with (byteN c0) by nlia.
    replace (0x80 + byteN c1 mod 64)%N with (byteN c1) by nlia.
    replace (0x80 + byteN c2 mod 64)%N with (byteN c2) by nlia.
    by rewrite !Nbyte_byteN.
  - rewrite Hr. nlia.
  - intros y.
    change (String c0 (String c1 (String c2 "")) ++ y)%string
      with (String c0 (String c1 (String c2 y))).
    rewrite (decode_3 _ _ _ _ x) by done. rewrite Ho.
    by rewrite (proj2 (outside_false _ _ _)) by done.
Qed.

Lemma encodes_4 c0 c1 c2 c3 x :
  Utf8.first (byteN c0) = x -> isLead4 x ->
  (0xF0 <= byteN c0 <= 0xF4)%N ->
  (0x80 <= byteN c1 <= 0xBF)%N ->
  (byteN c0 = 0xF0 -> 0x90 <= byteN c1)%N ->
  (byteN c0 = 0xF4 -> byteN c1 <= 0x8F)%N ->
  Utf8.outside (byteN c1) (fst (Utf8.acceptRanges (N.shiftr x 4)))
    (snd (Utf8.acceptRanges (N.shiftr x 4))) = false ->
  (0x80 <= byteN c2 <= 0xBF)%N ->
  (0x80 <= byteN c3 <= 0xBF)%N ->
  encodes (String c0 (String c1 (String c2 (String c3 ""))))
    (N.lor (N.lor (N.lor (N.shiftl (N.land (byteN c0) Utf8.mask4) 18)
                         (N.shiftl (N.land (byteN c1) Utf8.maskx) 12))
                  (N.shiftl (N.land (byteN c2) Utf8.maskx) 6))
           (N.land (byteN c3) Utf8.maskx)).
Proof.
  intros Hf Hx H0 H1 HF0 HF4 Ho H2 H3. unfold Utf8.mask4, Utf8.maskx.
  assert (N.lor (N.lor (N.lor (N.shiftl (N.land (byteN c0) 7) 18)
                              (N.shiftl (N.land (byteN c1) 63) 12))
                       (N.shiftl (N.land (byteN c2) 63) 6))
                (N.land (byteN c3) 63)
          = ((byteN c0 mod 8) * 262144 + (byteN c1 mod 64) * 4096
             + (byteN c2 mod 64) * 64 + byteN c3 mod 64)%N) as Hr.
  { rewrite land_07, !land_3F, compose4 by nlia. done. }
  split; [simpl; lia|]. split; [by repeat apply allHigh_cons; try lia|].
  split; [|split].
  - rewrite Hr, encode4 by nlia.
    replace (0xF0 + byteN c0 mod 8)%N with (byteN c0) by nlia.
    replace (0x80 + byteN c1 mod 64)%N with (byteN c1) by nlia.
    replace (0x80 + byteN c2 mod 64)%N with (byteN c2) by nlia.
    replace (0x80 + byteN c3 mod 64)%N with (byteN c3) by nlia.
    by rewrite !Nbyte_byteN.
  - rewrite Hr. nlia.
  - intros y.
    change (String c0 (String c1 (String c2 (String c3 ""))) ++ y)%string
      with (String c0 (String c1 (String c2 (String c3 y)))).
    rewrite (decode_4 _ _ _ _ _ x) by done. rewrite Ho.
    by rewrite !(proj2 (outside_false _ _ _)) by done.
Qed.

Lemma accept_s2 : Utf8.acceptRanges (N.shiftr Utf8.s2 4) = (0xA0%N, 0xBF%N).
Proof. reflexivity. Qed.
Lemma accept_s3 : Utf8.acceptRanges (N.shiftr Utf8.s3 4) = (0x80%N, 0xBF%N).
Proof. reflexivity. Qed.
Lemma accept_s4 : Utf8.acceptRanges (N.shiftr Utf8.s4 4) = (0x80%N, 0x9F%N).
Proof. reflexivity. Qed.
Lemma accept_s5 : Utf8.acceptRanges (N.shiftr Utf8.s5 4) = (0x90%N, 0xBF%N).
Proof. reflexivity. Qed.
Lemma accept_s6 : Utf8.acceptRanges (N.shiftr Utf8.s6 4) = (0x80%N, 0xBF%N).
Proof. reflexivity. Qed.
Lemma accept_s7 : Utf8.acceptRanges (N.shiftr Utf8.s7 4) = (0x80%N, 0x8F%N).
Proof. reflexivity. Qed.

Lemma decode_high_3 c0 t r size x :
  Utf8.first (byteN c0) = x ->
  (x = Utf8.s2 /\ byteN c0 = 0xE0%N) \/
  (x = Utf8.s3 /\ ((0xE1 <= byteN c0 < 0xED) \/ (0xEE <= byteN c0 < 0xF0))%N) \/
  (x = Utf8.s4 /\ byteN c0 = 0xED%N) ->
  Utf8.DecodeRuneInString (String c0 t) = (r, size) ->
  (r =? Utf8.RuneError)%N && (size =? 1)%nat = false ->
  exists w rest,
    String c0 t = (w ++ rest)%string /\ String.length w = size /\ encodes w r.
Proof.
  intros Hf Hx Hdec Hvalid.
  assert (isLead3 x) as Hl by (unfold isLead3; tauto).
  assert (isLead x) as Hl' by (unfold isLead, isLead3 in *; tauto).
  destruct t as [|c1 [|c2 t2]].
  - rewrite (decode_short1 c0 x) in Hdec by done. by injection Hdec as <- <-.
  - rewrite (decode_short2 c0 c1 x) in Hdec by auto. by injection Hdec as <- <-.
  - rewrite (decode_3 _ _ _ _ x) in Hdec by done.
    destruct (Utf8.outside (byteN c1) _ _) eqn:Ho1; [by injection Hdec as <- <-|].
    destruct (Utf8.outside (byteN c2) _ _) eqn:Ho2; [by injection Hdec as <- <-|].
    injection Hdec as <- <-.
    exists (String c0 (String c1 (String c2 ""))), t2. repeat split; try done.
    all: apply (encodes_3 c0 c1 c2 x); try done.
    all: pose proof Ho1 as Ho1'; apply outside_false in Ho2.
    all: destruct Hx as [[-> ?]|[[-> ?]|[-> ?]]];
      rewrite ?accept_s2, ?accept_s3, ?accept_s4 in Ho1'; cbn [fst snd] in Ho1';
      apply outside_false in Ho1'; unfold Utf8.locb, Utf8.hicb in Ho2; lia.
Qed.

Lemma decode_high_4 c0 t r size x :
  Utf8.first (byteN c0) = x ->
  (x = Utf8.s5 /\ byteN c0 = 0xF0%N) \/
  (x = Utf8.s6 /\ (0xF1 <= byteN c0 < 0xF4)%N) \/
  (x = Utf8.s7 /\ byteN c0 = 0xF4%N) ->
  Utf8.DecodeRuneInString (String c0 t) = (r, size) ->
  (r =? Utf8.RuneError)%N && (size =? 1)%nat = false ->
  exists w rest,
    String c0 t = (w ++ rest)%string /\ String.length w = size /\ encodes w r.
Proof.
  intros Hf Hx Hdec Hvalid.
  assert (isLead4 x) as Hl by (unfold isLead4; tauto).
  assert (isLead x) as Hl' by (unfold isLead, isLead4 in *; tauto).
  destruct t as [|c1 [|c2 [|c3 t3]]].
  - rewrite (decode_short1 c0 x) in Hdec by done. by injection Hdec as <- <-.
  - rewrite (decode_short2 c0 c1 x) in Hdec by auto. by injection Hdec as <- <-.
  - rewrite (decode_short3 c0 c1 c2 x) in Hdec by auto. by injection Hdec as <- <-.
  - rewrite (decode_4 _ _ _ _ _ x) in Hdec by done.
    destruct (Utf8.outside (byteN c1) _ _) eqn:Ho1; [by injection Hdec as <- <-|].
    destruct (Utf8.outside (byteN c2) _ _) eqn:Ho2; [by injection Hdec as <- <-|].
    destruct (Utf8.outside (byteN c3) _ _) eqn:Ho3; [by injection Hdec as <- <-|].
    injection Hdec as <- <-.
    exists (String c0 (String c1 (String c2 (String c3 "")))), t3. repeat split; try done.
    all: apply (encodes_4 c0 c1 c2 c3 x); try done.
    all: pose proof Ho1 as Ho1'; apply outside_false in Ho2, Ho3.
    all: destruct Hx as [[-> ?]|[[-> ?]|[-> ?]]];
      rewrite ?accept_s5, ?accept_s6, ?accept_s7 in Ho1'; cbn [fst snd] in Ho1';
      apply outside_false in Ho1'; unfold Utf8.locb, Utf8.hicb in Ho2, Ho3; lia.
Qed.

(** A rune that starts with a byte outside ASCII and is not the error of
    width one: the string starts with its encoding. *)
Lemma decode_high c0 t r size :
  (0x80 <= byteN c0)%N ->
  Utf8.DecodeRuneInString (String c0 t) = (r, size) ->
  (r =? Utf8.RuneError)%N && (size =? 1)%nat = false ->
  exists w rest,
    String c0 t = (w ++ rest)%string /\ String.length w = size /\ encodes w r.
Proof.
  intros Hhigh Hdec Hvalid.
  destruct (first_spec (byteN c0))
    as [[? _]|[[_ Hf]|[[Hb Hf]|[[Hb Hf]|[[Hb Hf]|[[Hb Hf]|[[Hb Hf]|[[Hb Hf]|[Hb Hf]]]]]]]]].
  - lia.
  - rewrite (decode_xx c0 t Hf) in Hdec. by injection Hdec as <- <-.
  - destruct t as [|c1 t1].
    { rewrite (decode_short1 c0 Utf8.s1) in Hdec by (unfold isLead; auto).
      by injection Hdec as <- <-. }
    rewrite decode_2 in Hdec by done.
    destruct (Utf8.outside (byteN c1) Utf8.locb Utf8.hicb) eqn:Ho;
      [by injection Hdec as <- <-|].
    injection Hdec as <- <-. apply outside_false in Ho.
    exists (String c0 (String c1 "")), t1. repeat split; try done.
    all: by apply encodes_2.
  - apply (decode_high_3 c0 t r size Utf8.s2); auto.
  - apply (decode_high_3 c0 t r size Utf8.s3); auto.
  - apply (decode_high_3 c0 t r size Utf8.s4); auto.
  - apply (decode_high_4 c0 t r size Utf8.s5); auto.
  - apply (decode_high_4 c0 t r size Utf8.s6); auto.
  - apply (decode_high_4 c0 t r size Utf8.s7); auto.
Qed.

(** *** Well-formed UTF-8, inductively *)


Lemma first_ascii b : (b < 0x80)%N -> Utf8.first b = Utf8.as_.
Proof. intros H. unfold Utf8.first. by destruct (N.ltb_spec b 0x80); [|lia]. Qed.

Lemma validUTF8Loop_valid n s : validUTF8Loop n s = true -> ValidUTF8 s.
Proof.
  revert s. induction n as [|n IH]; intros s; simpl.
  - destruct s; [constructor|done].
  - destruct s as [|c0 t]; [constructor|].
    destruct (Utf8.DecodeRuneInString (String c0 t)) as [r size] eqn:Hdec.
    destruct ((r =? Utf8.RuneError)%N && (size =? 1)%nat) eqn:Hv; [done|].
    intros Hrest. apply IH in Hrest.
    destruct (N.lt_ge_cases (byteN c0) 0x80) as [Hlo|Hhi].
    + rewrite decode_ascii in Hdec by by apply first_ascii.
      injection Hdec as <- <-. by constructor.
    + destruct (decode_high c0 t r size Hhi Hdec Hv) as (w & rest & Heq & Hlen & Henc).
      rewrite Heq in Hrest |- *. rewrite <- Hlen, drop_length_app in Hrest.
      by econstructor.
Qed.

Lemma validUTF8_valid s : validUTF8 s = true -> ValidUTF8 s.
Proof. apply validUTF8Loop_valid. Qed.

(** *** One byte or one rune through the encoder, the scanner and unquoteBytes *)


Ltac each_byte c := destruct c as [[] [] [] [] [] [] [] []].

Lemma append_ascii c s n :
  (byteN c <? 0x80)%N = true ->
  Json.appendStringLoop (S n) (String c s)
  = (encAscii c ++ Json.appendStringLoop n s)%string.
Proof. each_byte c; intros H; try discriminate H; reflexivity. Qed.

Lemma scan_ascii c x :
  (byteN c <? 0x80)%N = true ->
  Json.scanString (encAscii c ++ x)
  = match Json.scanString x with
    | Some (raw, rest) => Some ((encAscii c ++ raw)%string, rest)
    | None => None
    end.
Proof. each_byte c; intros H; try discriminate H; reflexivity. Qed.

Lemma unquote_ascii c x f :
  (byteN c <? 0x80)%N = true ->
  Json.unquoteLoop (S f) (encAscii c ++ x) = String c <$> Json.unquoteLoop f x.
Proof. each_byte c; intros H; try discriminate H; reflexivity. Qed.

Lemma plain_ascii c x n :
  (byteN c <? 0x80)%N = true ->
  Json.plainPrefix (S n) (encAscii c ++ x)
  = if Json.htmlSafeSet (byteN c) then S (Json.plainPrefix n x) else 0.
Proof. each_byte c; intros H; try discriminate H; reflexivity. Qed.

Lemma encAscii_safe c : Json.htmlSafeSet (byteN c) = true -> encAscii c = String c "".
Proof. unfold encAscii. by intros ->. Qed.

Lemma append_high c t n :
  (0x80 <=? byteN c)%N = true ->
  Json.appendStringLoop (S n) (String c t)
  = let '(r, size) := Utf8.DecodeRuneInString (GoStrings.take Json.UTFMax (String c t)) in
    if (r =? Utf8.RuneError)%N && (size =? 1)%nat then
      (("\u" ++ "fffd") ++ Json.appendStringLoop n (GoStrings.drop size (String c t)))%string
    else if (r =? 0x2028)%N || (r =? 0x2029)%N then
      ("\u202" ++ String (Json.hexChar (N.land r 0xF))
                    (Json.appendStringLoop n (GoStrings.drop size (String c t))))%string
    else
      (GoStrings.take size (String c t)
       ++ Json.appendStringLoop n (GoStrings.drop size (String c t)))%string.
Proof. each_byte c; intros H; try discriminate H; reflexivity. Qed.

Lemma scan_high c y :
  (0x80 <=? byteN c)%N = true ->
  Json.scanString (String c y)
  = match Json.scanString y with
    | Some (raw, rest) => Some (String c raw, rest)
    | None => None
    end.
Proof. each_byte c; intros H; try discriminate H; reflexivity. Qed.

Lemma unquote_high c t f :
  (0x80 <=? byteN c)%N = true ->
  Json.unquoteLoop (S f) (String c t)
  = let '(rr, size) := Utf8.DecodeRuneInString (String c t) in
    String.append (Utf8.EncodeRune rr)
      <$> Json.unquoteLoop f (GoStrings.drop size (String c t)).
Proof. each_byte c; intros H; try discriminate H; reflexivity. Qed.

Lemma plain_high c t n :
  (0x80 <=? byteN c)%N = true ->
  Json.plainPrefix (S n) (String c t)
  = let '(rr, size) := Utf8.DecodeRuneInString (String c t) in
    if (rr =? Utf8.RuneError)%N && (size =? 1)%nat then 0
    else size + Json.plainPrefix n (GoStrings.drop size (String c t)).
Proof. each_byte c; intros H; try discriminate H; reflexivity. Qed.

Section Rune.
Variables (w : string) (r : N).
Hypothesis Henc : encodes w r.

Lemma encodes_cons : exists c w', w = String c w' /\ (0x80 <=? byteN c)%N = true.
Proof.
  destruct Henc as ([Hlen _] & Hhigh & _). destruct w as [|c w']; [simpl in Hlen; lia|].
  exists c, w'. split; [done|]. simpl in Hhigh. by apply andb_true_iff in Hhigh as [? _].
Qed.

Lemma encodes_decode y : Utf8.DecodeRuneInString (w ++ y) = (r, String.length w).
Proof. by destruct Henc as (_ & _ & _ & _ & H). Qed.

Lemma encodes_valid : (r =? Utf8.RuneError)%N && (String.length w =? 1)%nat = false.
Proof.
  destruct Henc as ([Hlen _] & _).
  destruct (Nat.eqb_spec (String.length w) 1); [lia|apply andb_false_r].
Qed.

Lemma encodes_take4 y :
  GoStrings.take Json.UTFMax (w ++ y)
  = (w ++ GoStrings.take (Json.UTFMax - String.length w) y)%string.
Proof.
  destruct Henc as ([_ Hlen] & _). unfold Json.UTFMax in *.
  replace 4 with (String.length w + (4 - String.length w)) at 1 by lia.
  apply take_app_plus.
Qed.

Lemma append_rune s n :
  Json.appendStringLoop (S n) (w ++ s)
  = (encRune w r ++ Json.appendStringLoop n s)%string.
Proof.
  destruct encodes_cons as (c & w' & Hw & Hc).
  rewrite Hw at 1. rewrite append_String, append_high by done.
  rewrite <- append_String, <- Hw.
  rewrite encodes_take4, !encodes_decode, encodes_valid.
  rewrite drop_length_app, take_length_app. unfold encRune.
  destruct ((r =? 0x2028)%N || (r =? 0x2029)%N); [|done].
  by rewrite append_assoc_string.
Qed.

Lemma scan_allHigh v x :
  allHigh v = true ->
  Json.scanString (v ++ x)
  = match Json.scanString x with
    | Some (raw, rest) => Some ((v ++ raw)%string, rest)
    | None => None
    end.
Proof.
  induction v as [|c v IH]; intros Hv.
  - rewrite append_nil_l. by destruct (Json.scanString x) as [[]|].
  - simpl in Hv. apply andb_true_iff in Hv as [Hc Hv].
    rewrite append_String, scan_high, IH by done.
    by destruct (Json.scanString x) as [[]|].
Qed.

Lemma encRune_cases :
  encRune w r = w \/
  (r = 0x2028%N /\ encRune w r = ("\u202" ++ String (Json.hexChar 8) "")%string) \/
  (r = 0x2029%N /\ encRune w r = ("\u202" ++ String (Json.hexChar 9) "")%string).
Proof.
  unfold encRune.
  destruct (N.eqb_spec r 0x2028) as [->|]; [right; left; done|].
  destruct (N.eqb_spec r 0x2029) as [->|]; [right; right; done|].
  by left.
Qed.

Lemma scan_rune x :
  Json.scanString (encRune w r ++ x)
  = match Json.scanString x with
    | Some (raw, rest) => Some ((encRune w r ++ raw)%string, rest)
    | None => None
    end.
Proof.
  destruct encRune_cases as [->|[[_ ->]|[_ ->]]]; [|reflexivity..].
  apply scan_allHigh. by destruct Henc as (_ & ? & _).
Qed.

Lemma unquote_raw_rune x f :
  Json.unquoteLoop (S f) (w ++ x) = String.append w <$> Json.unquoteLoop f x.
Proof.
  destruct encodes_cons as (c & w' & Hw & Hc).
  rewrite Hw at 1. rewrite append_String, unquote_high by done.
  rewrite <- append_String, <- Hw, encodes_decode, drop_length_app.
  by destruct Henc as (_ & _ & -> & _).
Qed.

Lemma unquote_rune x f :
  Json.unquoteLoop (S f) (encRune w r ++ x) = String.append w <$> Json.unquoteLoop f x.
Proof.
  assert (Utf8.EncodeRune r = w) as Hw by (by destruct Henc as (_ & _ & ? & _)).
  destruct encRune_cases as [->|[[Hr ->]|[Hr ->]]].
  - apply unquote_raw_rune.
  - rewrite <- Hw, Hr. reflexivity.
  - rewrite <- Hw, Hr. reflexivity.
Qed.

Lemma plain_raw_rune x n :
  Json.plainPrefix (S n) (w ++ x) = String.length w + Json.plainPrefix n x.
Proof.
  destruct encodes_cons as (c & w' & Hw & Hc).
  rewrite Hw at 1. rewrite append_String, plain_high by done.
  rewrite <- append_String, <- Hw, encodes_decode, drop_length_app.
  by rewrite encodes_valid.
Qed.

Lemma encRune_length : 1 <= String.length (encRune w r).
Proof.
  destruct Henc as ([Hlen _] & _).
  destruct encRune_cases as [->|[[_ ->]|[_ ->]]]; simpl; lia.
Qed.
End Rune.

Lemma encAscii_length c : 1 <= String.length (encAscii c).
Proof.
  unfold encAscii, Json.escapeByte.
  repeat match goal with |- context [if ?b then _ else _] => destruct b end; simpl; lia.
Qed.

(** *** A valid string through appendString and back *)

(* The scanner reads the literal that appendString writes up to its
   closing quote. *)
Lemma scanString_appendString s :
  ValidUTF8 s -> forall n rest, String.length s <= n ->
  Json.scanString (Json.appendStringLoop n s ++ String Json.dquote rest)
  = Some (Json.appendStringLoop n s, rest).
Proof.
  induction 1 as [|c s Hc Hs IH|w r s Henc Hs IH]; intros n rest Hn.
  - destruct n; reflexivity.
  - destruct n as [|n]; [simpl in Hn; lia|]. simpl in Hn.
    apply N.ltb_lt in Hc.
    rewrite append_ascii, append_assoc_string, scan_ascii, IH by (done || lia). done.
  - rewrite length_app_string in Hn. destruct Henc as ([Hlen Hlen'] & Henc').
    destruct n as [|n]; [lia|].
    assert (encodes w r) as Henc by (split; done).
    rewrite (append_rune w r Henc), append_assoc_string, (scan_rune w r Henc), IH by lia.
    done.
Qed.

(* The second loop of unquoteBytes gives the string back. *)
Lemma unquoteLoop_appendString s :
  ValidUTF8 s -> forall n f, String.length s <= n ->
  String.length (Json.appendStringLoop n s) <= f ->
  Json.unquoteLoop f (Json.appendStringLoop n s) = Some s.
Proof.
  induction 1 as [|c s Hc Hs IH|w r s Henc Hs IH]; intros n f Hn Hf.
  - destruct n, f; reflexivity.
  - destruct n as [|n]; [simpl in Hn; lia|]. simpl in Hn.
    apply N.ltb_lt in Hc. rewrite append_ascii in Hf |- * by done.
    rewrite length_app_string in Hf. pose proof (encAscii_length c).
    destruct f as [|f]; [lia|].
    rewrite unquote_ascii, (IH n f) by (done || lia). done.
  - rewrite length_app_string in Hn. pose proof Henc as ([Hlen Hlen'] & _).
    destruct n as [|n]; [lia|].
    rewrite (append_rune w r Henc) in Hf |- *.
    rewrite length_app_string in Hf. pose proof (encRune_length w r Henc).
    destruct f as [|f]; [lia|].
    rewrite (unquote_rune w r Henc), (IH n f) by lia. done.
Qed.

(* unquoteBytes, with its two loops, gives the string back. *)
Lemma unquoteBytes_fast s :
  ValidUTF8 s -> forall n m f, String.length s <= n ->
  String.length (Json.appendStringLoop n s) <= m ->
  String.length (Json.appendStringLoop n s) <= f ->
  String.append
    (GoStrings.take (Json.plainPrefix m (Json.appendStringLoop n s))
       (Json.appendStringLoop n s))
    <$> Json.unquoteLoop f
          (GoStrings.drop (Json.plainPrefix m (Json.appendStringLoop n s))
             (Json.appendStringLoop n s))
  = Some s.
Proof.
  induction 1 as [|c s Hc Hs IH|w r s Henc Hs IH]; intros n m f Hn Hm Hf.
  - destruct n, m, f; reflexivity.
  - destruct n as [|n]; [simpl in Hn; lia|]. simpl in Hn.
    pose proof Hc as Hc'. apply N.ltb_lt in Hc.
    pose proof (unquoteLoop_appendString (String c s) (valid_ascii c s Hc' Hs) (S n) f
                  ltac:(simpl; lia) Hf) as Hslow.
    rewrite append_ascii in Hm, Hf, Hslow |- * by done.
    rewrite length_app_string in Hm, Hf. pose proof (encAscii_length c).
    destruct m as [|m]; [lia|]. rewrite plain_ascii by done.
    destruct (Json.htmlSafeSet (byteN c)) eqn:Hsafe.
    + rewrite encAscii_safe in Hm, Hf |- * by done.
      rewrite !append_String, append_nil_l. simpl in Hm, Hf.
      change (GoStrings.take (S ?k) (String c ?x)) with (String c (GoStrings.take k x)).
      change (GoStrings.drop (S ?k) (String c ?x)) with (GoStrings.drop k x).
      specialize (IH n m f ltac:(lia) ltac:(lia) ltac:(lia)).
      destruct (Json.unquoteLoop f _) as [z|]; [|done].
      simpl in IH |- *. injection IH as IH. by rewrite append_String, IH.
    + rewrite take_0. change (GoStrings.drop 0 ?x) with x.
      rewrite Hslow. done.
  - rewrite length_app_string in Hn. pose proof Henc as ([Hlen Hlen'] & _).
    destruct n as [|n]; [lia|].
    pose proof (unquoteLoop_appendString (w ++ s) (valid_rune w r s Henc Hs) (S n) f
                  ltac:(rewrite length_app_string; lia) Hf) as Hslow.
    rewrite (append_rune w r Henc) in Hm, Hf, Hslow |- *.
    rewrite length_app_string in Hm, Hf. pose proof (encRune_length w r Henc).
    destruct m as [|m]; [lia|].
    destruct (encRune_cases w r Henc) as [Hraw|[[_ Hesc]|[_ Hesc]]].
    + rewrite Hraw in Hm, Hf, Hslow |- *. rewrite (plain_raw_rune w r Henc).
      rewrite take_app_plus, drop_app_plus.
      specialize (IH n m f ltac:(lia) ltac:(lia) ltac:(lia)).
      destruct (Json.unquoteLoop f _) as [z|]; [|done].
      simpl in IH |- *. injection IH as IH. by rewrite append_assoc_string, IH.
    + rewrite Hesc in Hm, Hf, Hslow |- *.
      change (Json.plainPrefix (S m) (_ ++ _)%string) with 0.
      rewrite take_0. change (GoStrings.drop 0 ?x) with x. by rewrite Hslow.
    + rewrite Hesc in Hm, Hf, Hslow |- *.
      change (Json.plainPrefix (S m) (_ ++ _)%string) with 0.
      rewrite take_0. change (GoStrings.drop 0 ?x) with x. by rewrite Hslow.
Qed.

Lemma unquoteBytes_appendString s n :
  ValidUTF8 s -> String.length s <= n ->
  Json.unquoteBytes (Json.appendStringLoop n s) = Some s.
Proof. intros Hs Hn. unfold Json.unquoteBytes. by apply unquoteBytes_fast. Qed.

(** *** Any string through appendString and the scanner *)

Lemma take_drop n s : (GoStrings.take n s ++ GoStrings.drop n s)%string = s.
Proof.
  unfold GoStrings.take. revert s. induction n as [|n IH]; intros s.
  - by destruct s.
  - destruct s as [|c s]; [done|]. cbn [substring GoStrings.drop].
    by rewrite append_String, IH.
Qed.

Lemma scan_replacement x :
  Json.scanString (("\u" ++ "fffd") ++ x)
  = match Json.scanString x with
    | Some (raw, rest) => Some ((("\u" ++ "fffd") ++ raw)%string, rest)
    | None => None
    end.
Proof. reflexivity. Qed.

(* The scanner reads the literal that appendString writes up to its
   closing quote, whatever the string: a byte that is no UTF-8 is written
   as an escape. *)
Lemma scanString_appendString_any n :
  forall s rest, String.length s <= n ->
  Json.scanString (Json.appendStringLoop n s ++ String Json.dquote rest)
  = Some (Json.appendStringLoop n s, rest).
Proof.
  induction n as [|n IH]; intros s rest Hn.
  - destruct s; [reflexivity|simpl in Hn; lia].
  - destruct s as [|c t]; [reflexivity|]. simpl in Hn.
    destruct (byteN c <? 0x80)%N eqn:Hc.
    + rewrite append_ascii, append_assoc_string, scan_ascii, IH by (done || lia). done.
    + apply N.ltb_ge in Hc.
      destruct (Utf8.DecodeRuneInString (GoStrings.take Json.UTFMax (String c t)))
        as [r size] eqn:Hdec.
      destruct ((r =? Utf8.RuneError)%N && (size =? 1)%nat) eqn:Hv.
      * rewrite append_high by (by apply N.leb_le). rewrite Hdec, Hv.
        apply andb_true_iff in Hv as [_ Hs]. apply Nat.eqb_eq in Hs. subst size.
        rewrite append_assoc_string, scan_replacement.
        change (GoStrings.drop 1 (String c t)) with t.
        rewrite IH by lia. done.
      * change (GoStrings.take Json.UTFMax (String c t))
          with (String c (GoStrings.take 3 t)) in Hdec.
        destruct (decode_high c (GoStrings.take 3 t) r size Hc Hdec Hv)
          as (w & rest' & Heq & Hlen & Henc).
        assert (String c t = (w ++ (rest' ++ GoStrings.drop 4 (String c t)))%string) as Hs.
        { rewrite <- append_assoc_string, <- Heq.
          symmetry. apply (take_drop 4 (String c t)). }
        set (s'' := (rest' ++ GoStrings.drop 4 (String c t))%string) in *.
        rewrite Hs. rewrite (append_rune w r Henc), append_assoc_string.
        rewrite (scan_rune w r Henc), IH; [done|].
        assert (String.length (String c t) = String.length w + String.length s'') as Hl
          by (by rewrite Hs at 1; rewrite length_app_string).
        destruct Henc as ([Hw _] & _). simpl in Hl. lia.
Qed.

(** *** The members of an object through the scanner *)


Lemma indentedMember_app k v X :
  (Json.indentedMember (k, v) ++ X)%string
  = String " " (String " " (String Json.dquote (rawOf k ++
      String Json.dquote (String ":" (String " " (String Json.dquote (rawOf v ++
        String Json.dquote X))))))).
Proof.
  unfold Json.indentedMember, Json.appendString, rawOf. simpl fst. simpl snd.
  repeat (progress rewrite ?append_assoc_string, ?append_String, ?append_nil_l).
  reflexivity.
Qed.

Lemma scanMembers_step f depth X key r2 :
  Json.scanString X = Some (key, String ":" r2) ->
  Json.scanMembers (S f) depth (String Json.dquote X)
  = match Json.scanValue f depth (Json.skipSpace r2) with
    | Some (v, r3) =>
      match Json.skipSpace r3 with
      | String "," r4 =>
        match Json.scanMembers f depth (Json.skipSpace r4) with
        | Some (ms, r5) => Some ((key, v) :: ms, r5)
        | None => None
        end
      | String "}" r4 => Some ([(key, v)], r4)
      | _ => None
      end
    | None => None
    end.
Proof.
  intros H.
  change (Json.scanMembers (S f) depth (String Json.dquote X))
    with (match Json.scanString X with
          | Some (key, r1) =>
            match Json.skipSpace r1 with
            | String ":" r2 =>
              match Json.scanValue f depth (Json.skipSpace r2) with
              | Some (v, r3) =>
                match Json.skipSpace r3 with
                | String "," r4 =>
                  match Json.scanMembers f depth (Json.skipSpace r4) with
                  | Some (ms, r5) => Some ((key, v) :: ms, r5)
                  | None => None
                  end
                | String "}" r4 => Some ([(key, v)], r4)
                | _ => None
                end
              | None => None
              end
            | _ => None
            end
          | None => None
          end).
  rewrite H. reflexivity.
Qed.

Lemma scanValue_string f depth X raw r :
  Json.scanString X = Some (raw, r) ->
  Json.scanValue (S f) depth (String Json.dquote X) = Some (Json.VString raw, r).
Proof.
  intros H.
  change (Json.scanValue (S f) depth (String Json.dquote X))
    with (match Json.scanString X with
          | Some (raw, r) => Some (Json.VString raw, r)
          | None => None
          end).
  by rewrite H.
Qed.

(* One member, written by MarshalIndent, through scanMembers. *)
Lemma scanMembers_member k v X f depth :
  Json.scanMembers (S (S f)) depth
    (Json.skipSpace (Json.indentedMember (k, v) ++ X))
  = match Json.skipSpace X with
    | String "," r4 =>
      match Json.scanMembers (S f) depth (Json.skipSpace r4) with
      | Some (ms, r5) => Some (rawMember (k, v) :: ms, r5)
      | None => None
      end
    | String "}" r4 => Some ([rawMember (k, v)], r4)
    | _ => None
    end.
Proof.
  rewrite indentedMember_app.
  change (Json.skipSpace (String " " (String " " (String Json.dquote ?Y))))
    with (String Json.dquote Y).
  erewrite scanMembers_step; [|by apply scanString_appendString_any].
  change (Json.skipSpace (String " " (String Json.dquote ?Y))) with (String Json.dquote Y).
  erewrite scanValue_string; [|by apply scanString_appendString_any].
  reflexivity.
Qed.

Lemma joinLines_cons l ls :
  ls <> [] -> Json.joinLines (l :: ls)
              = (l ++ String "," (String Json.newline (Json.joinLines ls)))%string.
Proof. by destruct ls. Qed.

Lemma scanMembers_lines es :
  es <> [] ->
  forall f depth rest, length es < f ->
  Json.scanMembers f depth
    (Json.skipSpace (Json.joinLines (map Json.indentedMember es)
                     ++ String Json.newline (String "}" rest)))
  = Some (map rawMember es, rest).
Proof.
  induction es as [|[k v] es IH]; [done|]. intros _ f depth rest Hf.
  destruct f as [|[|f]]; [simpl in Hf; lia..|].
  destruct es as [|kv' es].
  - simpl map. simpl Json.joinLines.
    rewrite scanMembers_member. reflexivity.
  - rewrite map_cons, joinLines_cons by done.
    rewrite append_assoc_string, scanMembers_member.
    change (Json.skipSpace (String "," ?Y ++ ?Z)%string) with (String "," (Y ++ Z)%string).
    cbv iota beta.
    rewrite append_String.
    change (Json.skipSpace (String Json.newline ?Y)) with (Json.skipSpace Y).
    rewrite IH; [done|done|]. simpl in Hf |- *. lia.
Qed.

(** *** A map through MarshalIndent and Unmarshal *)

Lemma joinLines_length es :
  length es <= String.length (Json.joinLines (map Json.indentedMember es)).
Proof.
  induction es as [|[k v] es IH]; [simpl; lia|].
  destruct es as [|kv es].
  - simpl. lia.
  - rewrite map_cons, joinLines_cons by done.
    rewrite length_app_string. simpl in IH |- *. lia.
Qed.

Lemma checkValid_object es :
  es <> [] ->
  Json.checkValid
    (String "{" (String Json.newline (Json.joinLines (map Json.indentedMember es)))
     ++ String Json.newline "}")
  = Some (Json.VObject (map rawMember es)).
Proof.
  intros Hne. unfold Json.checkValid.
  rewrite !append_String.
  set (body := (Json.joinLines (map Json.indentedMember es) ++ String Json.newline "}")%string).
  change (Json.skipSpace (String "{" (String Json.newline body)))
    with (String "{" (String Json.newline body)).
  pose proof (scanMembers_lines es Hne
                (String.length (String "{" (String Json.newline body))) 1%N "") as Hms.
  assert (Json.skipSpace body
          = Json.skipSpace (Json.joinLines (map Json.indentedMember es)
                            ++ String Json.newline (String "}" ""))) as Hbody by done.
  rewrite <- Hbody in Hms.
  destruct es as [|[k v] es]; [done|].
  assert (exists Y, Json.skipSpace body = String Json.dquote Y) as [Y HY].
  { subst body. destruct es as [|kv es].
    - simpl map. simpl Json.joinLines. rewrite indentedMember_app. eexists. reflexivity.
    - rewrite map_cons, joinLines_cons, append_assoc_string, indentedMember_app by done.
      eexists. reflexivity. }
  change (Json.scanValue (S ?f) 0 (String "{" (String Json.newline body)))
    with (match Json.skipSpace body with
          | String "}" r => Some (Json.VObject [], r)
          | s1 =>
            match Json.scanMembers f (0 + 1)%N s1 with
            | Some (ms, r) => Some (Json.VObject ms, r)
            | None => None
            end
          end).
  rewrite HY in Hms |- *.
  change (0 + 1)%N with 1%N.
  cbv iota beta.
  change (match Json.dquote with
          | Ascii b0 b1 b2 b3 b4 b5 b6 b7 => _ end) with
    (match Json.scanMembers (String.length (String "{" (String Json.newline body))) 1
             (String Json.dquote Y) with
     | Some (ms, r) => Some (Json.VObject ms, r)
     | None => None
     end).
  rewrite Hms; [reflexivity|].
  subst body. simpl String.length. rewrite length_app_string.
  pose proof (joinLines_length ((k, v) :: es)). simpl in *. lia.
Qed.

Lemma storeMembers_raw es :
  Forall (fun kv => ValidUTF8 (fst kv) /\ ValidUTF8 (snd kv)) es ->
  forall m e,
  Json.storeMembers (map rawMember es) m e
  = Some (fold_left (fun (acc : gmap string string) kv => <[fst kv := snd kv]> acc) es m, e).
Proof.
  induction 1 as [|[k v] es [Hk Hv] _ IH]; intros m e; [done|].
  simpl in Hk, Hv. simpl. unfold rawOf.
  rewrite !unquoteBytes_appendString by done.
  rewrite IH. by rewrite orb_false_r.
Qed.

Lemma fold_insert_list_to_map (es : list (string * string)) :
  fold_left (fun (acc : gmap string string) kv => <[fst kv := snd kv]> acc) es ∅
  = list_to_map (rev es).
Proof.
  induction es as [|[k v] es IH] using rev_ind; [done|].
  rewrite fold_left_app, rev_app_distr. simpl. by rewrite IH.
Qed.

Lemma sortedEntries_perm (m : gmap string string) :
  Json.sortedEntries m ≡ₚ map_to_list m.
Proof. apply merge_sort_Permutation. Qed.

Lemma sortedEntries_to_map (m : gmap string string) :
  list_to_map (rev (Json.sortedEntries m)) = m.
Proof.
  rewrite <- (list_to_map_to_list m) at 2.
  apply list_to_map_proper.
  - rewrite <- Permutation_rev, sortedEntries_perm.
    apply NoDup_fst_map_to_list.
  - by rewrite <- Permutation_rev, sortedEntries_perm.
Qed.

Lemma sortedEntries_valid (m : gmap string string) :
  (forall k v, m !! k = Some v -> validUTF8 k = true /\ validUTF8 v = true) ->
  Forall (fun kv => ValidUTF8 (fst kv) /\ ValidUTF8 (snd kv)) (Json.sortedEntries m).
Proof.
  intros Hm. apply Forall_forall. intros [k v] Hin.
  rewrite sortedEntries_perm in Hin. apply elem_of_map_to_list in Hin.
  destruct (Hm k v Hin). split; by apply validUTF8_valid.
Qed.

(** Marshalling a map of well-formed UTF-8 strings and decoding the text
    into the empty map gives the map back, without error. *)
Lemma Unmarshal_MarshalIndent (m : gmap string string) :
  (forall k v, m !! k = Some v -> validUTF8 k = true /\ validUTF8 v = true) ->
  Json.Unmarshal (Json.MarshalIndent m) ∅ = (m, None).
Proof.
  intros Hm. pose proof (sortedEntries_valid m Hm) as Hvalid.
  pose proof (sortedEntries_to_map m) as Hmap.
  unfold Json.Unmarshal, Json.MarshalIndent.
  destruct (Json.sortedEntries m) as [|kv es] eqn:Hes.
  - simpl in Hmap. subst m. reflexivity.
  - rewrite checkValid_object by done.
    rewrite storeMembers_raw by done.
    by rewrite fold_insert_list_to_map, Hmap.
Qed.

(** *** The exclusion rules *)

Lemma HasSuffix_app a b : GoStrings.HasSuffix (a ++ b)%string b = true.
Proof.
  unfold GoStrings.HasSuffix. rewrite length_app_string.
  replace (String.length a + String.length b - String.length b) with (String.length a) by lia.
  rewrite drop_length_app, String.eqb_refl, andb_true_r.
  apply Nat.leb_le. lia.
Qed.

Lemma TrimSuffix_app a b : GoStrings.TrimSuffix (a ++ b)%string b = a.
Proof.
  unfold GoStrings.TrimSuffix. rewrite HasSuffix_app, length_app_string.
  replace (String.length a + String.length b - String.length b) with (String.length a) by lia.
  apply take_length_app.
Qed.

Lemma prefix_app_iff a s :
  String.prefix a s = true <-> exists rest, s = (a ++ rest)%string.
Proof.
  revert s. induction a as [|c a IH]; intros s.
  - split; [|by destruct s]. intros _. by exists s.
  - destruct s as [|d s]; simpl.
    + split; [done|]. by intros [rest ?].
    + destruct (Ascii.ascii_dec c d) as [->|Hne].
      * rewrite IH. split; intros [rest Hr]; exists rest; [by rewrite Hr|by injection Hr].
      * split; [done|]. intros [rest Hr]. by injection Hr.
Qed.

(* A directory rule in a list of rules excludes what it is a prefix of. *)
Lemma shouldExclude_directory_rule D path rules :
  In (D ++ "/")%string rules ->
  String.prefix (D ++ "/") (Filepath.ToSlash path) = true ->
  shouldExclude path rules = true.
Proof.
  induction rules as [|r rules IH]; intros Hin Hpre; [done|]. simpl.
  destruct Hin as [->|Hin].
  - rewrite HasSuffix_app, TrimSuffix_app. unfold GoStrings.HasPrefix. by rewrite Hpre.
  - specialize (IH Hin Hpre). rewrite IH.
    destruct (GoStrings.HasSuffix r "/"); [by destruct (GoStrings.HasPrefix _ _)|].
    destruct (GoStrings.Contains r "*"); [by destruct (Filepath.Match _ _).1|].
    by destruct (String.eqb _ r).
Qed.

(** *** filepath.Walk as a fold over its visits *)

Lemma node_ind' (P : node -> Prop)
    (H : forall path lstat names,
        match names with Some l => Forall P l | None => True end ->
        P (Node path lstat names)) :
  forall n, P n.
Proof.
  fix IH 1. intros [path lstat names]. apply H.
  destruct names as [l|]; [|exact I].
  induction l as [|c l IHl]; constructor; auto.
Qed.

Section WalkTrace.
Context {St : Type}.
Variable fn : string -> option FileInfo -> bool -> St -> St * WalkErr.
Variable upd : string -> option FileInfo -> bool -> St -> St.
Variable ctl : string -> option FileInfo -> bool -> WalkErr.
Hypothesis fn_split : forall p i e s, fn p i e s = (upd p i e s, ctl p i e).

Lemma walk_trace_sim n :
  forall st l, exists T r,
    walk (traceFn ctl) n l = (l ++ T, r) /\
    walk fn n st = (fold_left (applyVisit upd) T st, r).
Proof.
  induction n as [path lstat names IH] using node_ind'. intros st l.
  destruct lstat as [info|]; simpl.
  2:{ exists [(path, None, true)], (ctl path None true).
      rewrite fn_split. auto. }
  destruct (negb (IsDir info)).
  { exists [(path, Some info, false)], (ctl path (Some info) false).
    rewrite fn_split. auto. }
  rewrite fn_split.
  destruct names as [entries|].
  2:{ exists [(path, Some info, true)], (ctl path (Some info) true). auto. }
  destruct (negb (isNil (ctl path (Some info) false))).
  { exists [(path, Some info, false)], (ctl path (Some info) false). auto. }
  simpl in IH.
  set (v := (path, Some info, false)).
  assert (Hloop : forall st l, exists T r,
    walkLoop (walk (traceFn ctl)) entries l = (l ++ T, r) /\
    walkLoop (walk fn) entries st = (fold_left (applyVisit upd) T st, r)).
  { clear st l. induction IH as [|c cs Hc _ IHcs]; intros st l; simpl.
    - exists [], WalkNil. rewrite app_nil_r. auto.
    - destruct (Hc st l) as (T1 & r1 & -> & ->).
      destruct (stopsLoop c r1).
      + exists T1, r1. auto.
      + destruct (IHcs (fold_left (applyVisit upd) T1 st) (l ++ T1)) as (T2 & r2 & -> & ->).
        exists (T1 ++ T2), r2. rewrite fold_left_app, app_assoc. auto. }
  destruct (Hloop (upd path (Some info) false st) (l ++ [v])) as (T & r & -> & ->).
  exists (v :: T), r. split.
  - by rewrite <- app_assoc.
  - reflexivity.
Qed.

Lemma walk_fold n st :
  fst (walk fn n st) = fold_left (applyVisit upd) (walkTrace ctl n) st.
Proof.
  destruct (walk_trace_sim n st []) as (T & r & HT & Hw).
  unfold walkTrace. rewrite HT, Hw. reflexivity.
Qed.
End WalkTrace.

(** *** The walks of the program as folds over their targets *)

Lemma fold_left_omap {St A : Type} (upd : string -> option FileInfo -> bool -> St -> St)
    (f : visit -> option A) (step : St -> A -> St) :
  (forall v s, applyVisit upd s v = match f v with Some t => step s t | None => s end) ->
  forall T st, fold_left (applyVisit upd) T st = fold_left step (omap f T) st.
Proof.
  intros Hstep T. induction T as [|v T IH]; intros st; simpl; [done|].
  rewrite Hstep. destruct (f v); simpl; apply IH.
Qed.

Lemma checkFile_split cfg fs dir path info err st :
  checkFile cfg fs dir path info err st
  = (checkUpd cfg fs dir path info err st, checkCtl cfg dir path info err).
Proof.
  unfold checkFile, checkUpd, checkCtl, hashed, compareStep.
  destruct err; [by destruct info|].
  destruct info as [info|]; [|by destruct (String.eqb path dir)].
  destruct (String.eqb path dir); [done|].
  destruct (shouldExclude path (exclude cfg)); simpl; [by destruct (IsDir info)|].
  destruct (negb (IsRegular info)); [done|].
  by destruct ((0 <? MaxFileSize cfg)%Z && (MaxFileSize cfg <? Size info)%Z).
Qed.

Lemma Walk_fst {St : Type} (fn : string -> option FileInfo -> bool -> St -> St * WalkErr)
    root n st :
  fst (Walk fn root n st) = fst (walk fn (rootNode root n) st).
Proof. unfold Walk. by destruct (walk fn (rootNode root n) st). Qed.

Lemma walkPhase_fold cfg fs st :
  walkPhase cfg fs st = fold_left (compareStep fs) (scanTargets cfg fs) st.
Proof.
  unfold walkPhase, scanTargets.
  revert st. induction (monitorDirs cfg) as [|dir dirs IH]; intros st; simpl; [done|].
  rewrite fold_left_app, IH. f_equal.
  rewrite Walk_fst.
  rewrite (walk_fold _ (checkUpd cfg fs dir) (checkCtl cfg dir) (checkFile_split cfg fs dir)).
  apply fold_left_omap. intros v s. unfold applyVisit, checkUpd.
  by destruct v as [[p i] e].
Qed.

Lemma initFile_split fs path info err st :
  initFile fs path info err st = (initUpd fs path info err st, initCtl path info err).
Proof.
  unfold initFile, initUpd, initCtl, baselined, baselineStep.
  destruct err; [by destruct info|].
  destruct info as [info|]; [|done].
  destruct (negb (IsDir info)); [|done].
  by destruct (calculateFileHash fs path).
Qed.

Lemma walkDirs_init_fold cfg fs st :
  walkDirs (fun _ => initFile fs) fs (monitorDirs cfg) st
  = fold_left (baselineStep fs) (baselineTargets cfg fs) st.
Proof.
  unfold walkDirs, baselineTargets.
  revert st. induction (monitorDirs cfg) as [|dir dirs IH]; intros st; simpl; [done|].
  rewrite fold_left_app, IH. f_equal.
  rewrite Walk_fst.
  rewrite (walk_fold _ (initUpd fs) initCtl (initFile_split fs)).
  apply fold_left_omap. intros v s. unfold applyVisit, initUpd.
  by destruct v as [[p i] e].
Qed.

(** What membership in [scanTargets] says of a file. *)
Lemma hashed_Some cfg dir v p info :
  hashed cfg dir v = Some (p, info) ->
  v = (p, Some info, false) /\ p <> dir /\
  shouldExclude p (exclude cfg) = false /\ IsRegular info = true /\
  ((0 <? MaxFileSize cfg)%Z && (MaxFileSize cfg <? Size info)%Z = false).
Proof.
  unfold hashed. destruct v as [[q [i|]] [|]]; try discriminate.
  destruct (String.eqb_spec q dir) as [|Hne]; [discriminate|].
  destruct (shouldExclude q (exclude cfg)) eqn:Hex; [discriminate|].
  destruct (IsRegular i) eqn:Hreg; [|discriminate]. simpl.
  destruct ((0 <? MaxFileSize cfg)%Z && (MaxFileSize cfg <? Size i)%Z) eqn:Hsz; [discriminate|].
  intros [= <- <-]. auto.
Qed.

Lemma scanTargets_spec cfg fs p info :
  In (p, info) (scanTargets cfg fs) ->
  shouldExclude p (exclude cfg) = false /\ IsRegular info = true /\
  ((0 <? MaxFileSize cfg)%Z && (MaxFileSize cfg <? Size info)%Z = false) /\
  exists dir, In dir (monitorDirs cfg) /\
    In (p, Some info, false) (walkTrace (checkCtl cfg dir) (rootNode dir (fs_walk fs dir))).
Proof.
  unfold scanTargets. rewrite in_flat_map. intros (dir & Hdir & Hin).
  apply list_elem_of_In, list_elem_of_omap in Hin as (v & Hv & Hh).
  apply hashed_Some in Hh as (-> & _ & Hex & Hreg & Hsz).
  repeat split; auto. exists dir. split; [done|]. by apply list_elem_of_In.
Qed.

(** *** One comparison, and a run of comparisons *)

Lemma aboutPath_refl p e : eventPath e = p -> aboutPath p e = true.
Proof. intros <-. apply String.eqb_refl. Qed.

Lemma aboutPath_ne p e : eventPath e <> p -> aboutPath p e = false.
Proof. intros H. by apply String.eqb_neq. Qed.

Lemma compareHash_cases fs path info st :
  compareCase fs path info st (compareHash fs path info st).
Proof.
  unfold compareHash, calculateFileHash.
  destruct (fs_sha256 fs path) as [h2|] eqn:Hh; [|by constructor].
  destruct (hashDB st.1 !! path) as [h1|] eqn:Hl; [|by econstructor].
  destruct (String.eqb_spec h1 h2) as [->|Hne]; simpl.
  - by econstructor.
  - by econstructor.
Qed.

Section Compare.
Variable fs : FS.

Lemma compareStep_dbFile st t : dbFile (compareStep fs st t).1 = dbFile st.1.
Proof.
  destruct t as [p i]. unfold compareStep. simpl.
  by destruct (compareHash_cases fs p i st).
Qed.

Lemma compareStep_prefix st t :
  exists evs, alerts (compareStep fs st t).1 = alerts st.1 ++ evs.
Proof.
  destruct t as [p i]. unfold compareStep. simpl.
  destruct (compareHash_cases fs p i st); simpl; eauto using app_nil_r.
  all: exists []; by rewrite app_nil_r.
Qed.

Lemma compareStep_frame st t q :
  t.1 <> q ->
  hashDB (compareStep fs st t).1 !! q = hashDB st.1 !! q /\
  List.filter (aboutPath q) (alerts (compareStep fs st t).1)
  = List.filter (aboutPath q) (alerts st.1).
Proof.
  destruct t as [p i]. unfold compareStep. simpl. intros Hne.
  destruct (compareHash_cases fs p i st); simpl; auto.
  all: rewrite lookup_insert_ne by done; split; [done|].
  all: rewrite List.filter_app; simpl.
  all: rewrite aboutPath_ne by done; by rewrite app_nil_r.
Qed.

(* A file that cannot be read, or whose digest is the stored one, leaves
   the state as it is. *)
Lemma compareStep_stable st p info :
  fs_sha256 fs p = None \/ hashDB st.1 !! p = fs_sha256 fs p ->
  compareStep fs st (p, info) = st.
Proof.
  unfold compareStep. simpl. intros H.
  destruct (compareHash_cases fs p info st) as [| |h Hh Hl|h1 h2 Hh Hl Hne]; auto.
  - destruct H as [H|H]; congruence.
  - destruct H as [H|H]; congruence.
Qed.

Lemma compareStep_stored st p info h :
  fs_sha256 fs p = Some h -> hashDB (compareStep fs st (p, info)).1 !! p = Some h.
Proof.
  unfold compareStep. simpl. intros H.
  destruct (compareHash_cases fs p info st); simpl;
    rewrite ?lookup_insert_eq; congruence.
Qed.

Lemma compareStep_modified st p info h1 h2 :
  hashDB st.1 !! p = Some h1 -> fs_sha256 fs p = Some h2 -> h1 <> h2 ->
  compareStep fs st (p, info)
  = (alert (ModifiedFile p (Size info) h1 h2)
       (setHashDB (<[p := h2]> (hashDB st.1)) st.1), true).
Proof.
  unfold compareStep. simpl. intros Hl Hh Hne.
  destruct (compareHash_cases fs p info st); congruence.
Qed.

Lemma compareStep_new st p info h :
  hashDB st.1 !! p = None -> fs_sha256 fs p = Some h ->
  compareStep fs st (p, info)
  = (alert (NewFile p (Size info) h)
       (setHashDB (<[p := h]> (hashDB st.1)) st.1), true).
Proof.
  unfold compareStep. simpl. intros Hl Hh.
  destruct (compareHash_cases fs p info st); congruence.
Qed.

Lemma compare_fold_dbFile l st :
  dbFile (fold_left (compareStep fs) l st).1 = dbFile st.1.
Proof.
  revert st. induction l as [|t l IH]; intros st; simpl; [done|].
  by rewrite IH, compareStep_dbFile.
Qed.

Lemma compare_fold_prefix l st :
  exists evs, alerts (fold_left (compareStep fs) l st).1 = alerts st.1 ++ evs.
Proof.
  revert st. induction l as [|t l IH]; intros st; simpl.
  - exists []. by rewrite app_nil_r.
  - destruct (IH (compareStep fs st t)) as [evs2 ->].
    destruct (compareStep_prefix st t) as [evs1 ->].
    exists (evs1 ++ evs2). by rewrite app_assoc.
Qed.

(* Comparisons of other files do not touch the entry of [q] nor write
   alerts about it. *)
Lemma compare_fold_frame l st q :
  ~ In q (map fst l) ->
  hashDB (fold_left (compareStep fs) l st).1 !! q = hashDB st.1 !! q /\
  List.filter (aboutPath q) (alerts (fold_left (compareStep fs) l st).1)
  = List.filter (aboutPath q) (alerts st.1).
Proof.
  revert st. induction l as [|t l IH]; intros st Hnin; simpl; [done|].
  simpl in Hnin.
  destruct (IH (compareStep fs st t)) as [-> ->]; [tauto|].
  apply compareStep_frame. tauto.
Qed.

Lemma compare_fold_stable l st q :
  fs_sha256 fs q = None \/ hashDB st.1 !! q = fs_sha256 fs q ->
  hashDB (fold_left (compareStep fs) l st).1 !! q = hashDB st.1 !! q /\
  List.filter (aboutPath q) (alerts (fold_left (compareStep fs) l st).1)
  = List.filter (aboutPath q) (alerts st.1).
Proof.
  revert st. induction l as [|[p i] l IH]; intros st Hq; simpl; [done|].
  destruct (String.eqb_spec p q) as [->|Hne].
  - rewrite compareStep_stable by done. by apply IH.
  - destruct (compareStep_frame st (p, i) q Hne) as [Hl Ha].
    destruct (IH (compareStep fs st (p, i))) as [-> ->]; [|done].
    rewrite Hl. done.
Qed.

Lemma compare_fold_modified l st q h1 h2 :
  hashDB st.1 !! q = Some h1 -> fs_sha256 fs q = Some h2 -> h1 <> h2 ->
  In q (map fst l) ->
  exists info, In (q, info) l /\
    hashDB (fold_left (compareStep fs) l st).1 !! q = Some h2 /\
    List.filter (aboutPath q) (alerts (fold_left (compareStep fs) l st).1)
    = List.filter (aboutPath q) (alerts st.1) ++ [ModifiedFile q (Size info) h1 h2].
Proof.
  revert st. induction l as [|[p i] l IH]; intros st Hl Hh Hne Hin; simpl; [done|].
  destruct (String.eqb_spec p q) as [->|Hpq].
  - exists i. split; [by left|].
    rewrite (compareStep_modified st q i h1 h2) by done.
    match goal with |- context [fold_left _ l ?s] => set (st1 := s) end.
    destruct (compare_fold_stable l st1 q) as [-> ->].
    { right. subst st1. simpl. by rewrite lookup_insert_eq. }
    subst st1. simpl. rewrite lookup_insert_eq. split; [done|].
    rewrite List.filter_app. simpl. by rewrite aboutPath_refl.
  - destruct (compareStep_frame st (p, i) q Hpq) as [Hl' Ha'].
    destruct (IH (compareStep fs st (p, i))) as (info & Hi & Hs & Ha).
    + by rewrite Hl'.
    + done.
    + done.
    + simpl in Hin. destruct Hin; [done|tauto].
    + exists info. split; [by right|]. by rewrite Hs, Ha, Ha'.
Qed.

Lemma compare_fold_new l st q h :
  hashDB st.1 !! q = None -> fs_sha256 fs q = Some h ->
  In q (map fst l) ->
  exists info, In (q, info) l /\
    hashDB (fold_left (compareStep fs) l st).1 !! q = Some h /\
    List.filter (aboutPath q) (alerts (fold_left (compareStep fs) l st).1)
    = List.filter (aboutPath q) (alerts st.1) ++ [NewFile q (Size info) h].
Proof.
  revert st. induction l as [|[p i] l IH]; intros st Hl Hh Hin; simpl; [done|].
  destruct (String.eqb_spec p q) as [->|Hpq].
  - exists i. split; [by left|].
    rewrite (compareStep_new st q i h) by done.
    match goal with |- context [fold_left _ l ?s] => set (st1 := s) end.
    destruct (compare_fold_stable l st1 q) as [-> ->].
    { right. subst st1. simpl. by rewrite lookup_insert_eq. }
    subst st1. simpl. rewrite lookup_insert_eq. split; [done|].
    rewrite List.filter_app. simpl. by rewrite aboutPath_refl.
  - destruct (compareStep_frame st (p, i) q Hpq) as [Hl' Ha'].
    destruct (IH (compareStep fs st (p, i))) as (info & Hi & Hs & Ha).
    + by rewrite Hl'.
    + done.
    + simpl in Hin. destruct Hin; [done|tauto].
    + exists info. split; [by right|]. by rewrite Hs, Ha, Ha'.
Qed.

(* After the comparisons the map holds the digest of every target that
   could be read. *)
Lemma compare_fold_stored l st p info h :
  In (p, info) l -> fs_sha256 fs p = Some h ->
  hashDB (fold_left (compareStep fs) l st).1 !! p = Some h.
Proof.
  revert st. induction l as [|[q i] l IH]; intros st Hin Hh; simpl; [done|].
  destruct Hin as [[= -> ->]|Hin]; [|by apply IH].
  destruct (compare_fold_stable l (compareStep fs st (p, info)) p) as [-> _].
  - right. rewrite Hh. by apply compareStep_stored.
  - by apply compareStep_stored.
Qed.

(* Comparisons against a map that agrees with the disk change nothing. *)
Lemma compare_fold_noop l st :
  (forall p info, In (p, info) l ->
     fs_sha256 fs p = None \/ hashDB st.1 !! p = fs_sha256 fs p) ->
  fold_left (compareStep fs) l st = st.
Proof.
  induction l as [|[p i] l IH]; intros H; simpl; [done|].
  rewrite compareStep_stable by (apply (H p i); by left).
  apply IH. intros q j Hq. apply (H q j). by right.
Qed.

(* Comparisons only add and overwrite entries. *)
Lemma compare_fold_keeps l st q :
  is_Some (hashDB st.1 !! q) ->
  is_Some (hashDB (fold_left (compareStep fs) l st).1 !! q).
Proof.
  revert st. induction l as [|[p i] l IH]; intros st Hq; simpl; [done|].
  apply IH. unfold compareStep. simpl.
  destruct (compareHash_cases fs p i st); simpl; auto.
  all: rewrite lookup_insert; case_decide; eauto.
Qed.
End Compare.

(** *** The deletion sweep *)

Section Sweep.
Variable cfg : Config.
Variable fs : FS.

Lemma sweepStep_eq st p :
  sweepStep cfg fs st p
  = if doomed cfg fs p
    then (alert (DeletedFile p) (setHashDB (delete p (hashDB st.1)) st.1), true)
    else st.
Proof.
  unfold sweepStep, doomed.
  destruct (IsNotExist (fs_stat fs p)); [|done].
  by destruct (shouldExclude p (exclude cfg)).
Qed.

Lemma sweep_fold_dbFile l st :
  dbFile (fold_left (sweepStep cfg fs) l st).1 = dbFile st.1.
Proof.
  revert st. induction l as [|p l IH]; intros st; simpl; [done|].
  rewrite IH, sweepStep_eq. by destruct (doomed cfg fs p).
Qed.

Lemma sweep_fold_prefix l st :
  exists evs, alerts (fold_left (sweepStep cfg fs) l st).1 = alerts st.1 ++ evs.
Proof.
  revert st. induction l as [|p l IH]; intros st; simpl.
  - exists []. by rewrite app_nil_r.
  - destruct (IH (sweepStep cfg fs st p)) as [evs ->].
    rewrite sweepStep_eq. destruct (doomed cfg fs p); simpl; [|eauto].
    exists (DeletedFile p :: evs). by rewrite <- app_assoc.
Qed.

(* The sweep only deletes. *)
Lemma sweep_fold_lookup_Some l st q h :
  hashDB (fold_left (sweepStep cfg fs) l st).1 !! q = Some h ->
  hashDB st.1 !! q = Some h.
Proof.
  revert st. induction l as [|p l IH]; intros st; simpl; [done|].
  intros H. apply IH in H. rewrite sweepStep_eq in H.
  destruct (doomed cfg fs p); [|done]. simpl in H.
  by apply lookup_delete_Some in H as [_ ?].
Qed.

Lemma sweep_fold_kept l st q :
  ~ In q l \/ doomed cfg fs q = false ->
  hashDB (fold_left (sweepStep cfg fs) l st).1 !! q = hashDB st.1 !! q /\
  List.filter (aboutPath q) (alerts (fold_left (sweepStep cfg fs) l st).1)
  = List.filter (aboutPath q) (alerts st.1).
Proof.
  revert st. induction l as [|p l IH]; intros st Hq; simpl; [done|].
  destruct (IH (sweepStep cfg fs st p)) as [-> ->].
  { destruct Hq as [Hq|Hq]; [left|by right]. simpl in Hq. tauto. }
  rewrite sweepStep_eq. destruct (doomed cfg fs p) eqn:Hd; [|done]. simpl.
  assert (p <> q) as Hne.
  { intros ->. destruct Hq as [Hq|Hq]; [|congruence]. apply Hq. by left. }
  rewrite lookup_delete_ne by done. split; [done|].
  rewrite List.filter_app. simpl. rewrite aboutPath_ne by done.
  by rewrite app_nil_r.
Qed.

Lemma sweep_fold_deleted l st q :
  NoDup l -> In q l -> doomed cfg fs q = true ->
  hashDB (fold_left (sweepStep cfg fs) l st).1 !! q = None /\
  List.filter (aboutPath q) (alerts (fold_left (sweepStep cfg fs) l st).1)
  = List.filter (aboutPath q) (alerts st.1) ++ [DeletedFile q].
Proof.
  revert st. induction l as [|p l IH]; intros st Hnd Hin Hd; simpl; [done|].
  apply NoDup_cons in Hnd as [Hp Hnd].
  destruct (String.eqb_spec p q) as [->|Hne].
  - destruct (sweep_fold_kept l (sweepStep cfg fs st q) q) as [-> ->].
    { left. by rewrite <- list_elem_of_In. }
    rewrite sweepStep_eq, Hd. simpl. rewrite lookup_delete_eq. split; [done|].
    rewrite List.filter_app. simpl. by rewrite aboutPath_refl.
  - destruct (IH (sweepStep cfg fs st p)) as [-> ->]; auto.
    { destruct Hin; [done|auto]. }
    split; [done|]. f_equal.
    rewrite sweepStep_eq. destruct (doomed cfg fs p); [|done]. simpl.
    rewrite List.filter_app. simpl. rewrite aboutPath_ne by done.
    by rewrite app_nil_r.
Qed.

Lemma sweep_fold_noop l st :
  (forall p, In p l -> doomed cfg fs p = false) ->
  fold_left (sweepStep cfg fs) l st = st.
Proof.
  induction l as [|p l IH]; intros H; simpl; [done|].
  rewrite sweepStep_eq, (H p) by (by left). apply IH. intros q Hq. apply H. by right.
Qed.

Lemma keys_In (m : gmap string string) q :
  In q (map fst (map_to_list m)) <-> is_Some (m !! q).
Proof.
  rewrite <- list_elem_of_In, list_elem_of_fmap. split.
  - intros ([k v] & -> & Hkv). apply elem_of_map_to_list in Hkv. simpl. eauto.
  - intros [v Hv]. exists (q, v). split; [done|]. by apply elem_of_map_to_list.
Qed.

Lemma keys_NoDup (m : gmap string string) : NoDup (map fst (map_to_list m)).
Proof. apply NoDup_fst_map_to_list. Qed.

Lemma deletionSweep_kept st q :
  doomed cfg fs q = false ->
  hashDB (deletionSweep cfg fs st).1 !! q = hashDB st.1 !! q /\
  List.filter (aboutPath q) (alerts (deletionSweep cfg fs st).1)
  = List.filter (aboutPath q) (alerts st.1).
Proof. intros H. apply sweep_fold_kept. by right. Qed.

Lemma deletionSweep_deleted st q :
  is_Some (hashDB st.1 !! q) -> doomed cfg fs q = true ->
  hashDB (deletionSweep cfg fs st).1 !! q = None /\
  List.filter (aboutPath q) (alerts (deletionSweep cfg fs st).1)
  = List.filter (aboutPath q) (alerts st.1) ++ [DeletedFile q].
Proof.
  intros Hq Hd. apply sweep_fold_deleted; [apply keys_NoDup| |done].
  by apply keys_In.
Qed.
End Sweep.

(** *** A cycle *)

Lemma saveHashDB_hashDB fs st : hashDB (saveHashDB fs st).1 = hashDB st.
Proof.
  unfold saveHashDB.
  destruct (negb (fs_mkdirall_ok fs)); [done|].
  by destruct (negb (fs_writefile_ok fs)).
Qed.

Lemma saveHashDB_alerts fs st : alerts (saveHashDB fs st).1 = alerts st.
Proof.
  unfold saveHashDB.
  destruct (negb (fs_mkdirall_ok fs)); [done|].
  by destruct (negb (fs_writefile_ok fs)).
Qed.

Lemma checkFiles_hashDB cfg fs st :
  hashDB (checkFiles cfg fs st)
  = hashDB (deletionSweep cfg fs (walkPhase cfg fs (st, false))).1.
Proof.
  unfold checkFiles.
  destruct (deletionSweep cfg fs (walkPhase cfg fs (st, false))) as [st1 []]; simpl;
    [apply saveHashDB_hashDB|done].
Qed.

Lemma checkFiles_alerts cfg fs st :
  alerts (checkFiles cfg fs st)
  = alerts (deletionSweep cfg fs (walkPhase cfg fs (st, false))).1.
Proof.
  unfold checkFiles.
  destruct (deletionSweep cfg fs (walkPhase cfg fs (st, false))) as [st1 []]; simpl;
    [apply saveHashDB_alerts|done].
Qed.

Lemma newAlerts_app st st' evs :
  alerts st' = alerts st ++ evs -> newAlerts st st' = evs.
Proof.
  unfold newAlerts. intros ->. induction (alerts st); simpl; auto.
Qed.

Lemma filter_newAlerts f st st' evs X :
  alerts st' = alerts st ++ evs ->
  List.filter f (alerts st') = List.filter f (alerts st) ++ X ->
  List.filter f (newAlerts st st') = X.
Proof.
  intros Ha Hf. rewrite (newAlerts_app _ _ _ Ha).
  rewrite Ha, List.filter_app in Hf. by apply app_inv_head in Hf.
Qed.

Lemma walkPhase_prefix cfg fs st :
  exists evs, alerts (walkPhase cfg fs st).1 = alerts st.1 ++ evs.
Proof. rewrite walkPhase_fold. apply compare_fold_prefix. Qed.

Lemma checkFiles_sweep_prefix cfg fs st :
  exists evs,
    alerts (checkFiles cfg fs st) = alerts (walkPhase cfg fs (st, false)).1 ++ evs.
Proof.
  rewrite checkFiles_alerts. apply sweep_fold_prefix.
Qed.

Lemma checkFiles_prefix cfg fs st :
  exists evs, alerts (checkFiles cfg fs st) = alerts st ++ evs.
Proof.
  rewrite checkFiles_alerts.
  destruct (sweep_fold_prefix cfg fs
              (map fst (map_to_list (hashDB (walkPhase cfg fs (st, false)).1)))
              (walkPhase cfg fs (st, false))) as [e2 H2].
  destruct (walkPhase_prefix cfg fs (st, false)) as [e1 H1].
  exists (e1 ++ e2). unfold deletionSweep. rewrite H2, H1. simpl.
  by rewrite app_assoc.
Qed.

(* A path that the walk does not compare and the sweep does not delete is
   left alone by the cycle. *)
Lemma checkFiles_untouched cfg fs st q :
  (~ In q (map fst (scanTargets cfg fs))
   \/ fs_sha256 fs q = None \/ hashDB st !! q = fs_sha256 fs q) ->
  doomed cfg fs q = false ->
  hashDB (checkFiles cfg fs st) !! q = hashDB st !! q /\
  List.filter (aboutPath q) (newAlerts st (checkFiles cfg fs st)) = [].
Proof.
  intros Hw Hd.
  destruct (checkFiles_prefix cfg fs st) as [evs Hevs].
  rewrite checkFiles_hashDB.
  destruct (deletionSweep_kept cfg fs (walkPhase cfg fs (st, false)) q Hd) as [Hl Ha].
  assert (hashDB (walkPhase cfg fs (st, false)).1 !! q = hashDB st !! q /\
          List.filter (aboutPath q) (alerts (walkPhase cfg fs (st, false)).1)
          = List.filter (aboutPath q) (alerts st)) as [Hl' Ha'].
  { rewrite walkPhase_fold. destruct Hw as [Hw|Hw].
    - by apply (compare_fold_frame fs _ (st, false)).
    - by apply (compare_fold_stable fs _ (st, false)). }
  split; [by rewrite Hl|].
  apply (filter_newAlerts _ _ _ evs); [done|].
  by rewrite checkFiles_alerts, Ha, Ha', app_nil_r.
Qed.

(** *** Reading the conditions on the file system *)

Lemma statFindsTargets_spec cfg fs :
  statFindsTargets cfg fs = true ->
  forall p info, In (p, info) (scanTargets cfg fs) -> IsNotExist (fs_stat fs p) = false.
Proof.
  unfold statFindsTargets. rewrite forallb_forall. intros H p info Hin.
  apply H in Hin. by apply negb_true_iff in Hin.
Qed.

Lemma exists_not_doomed cfg fs p :
  IsNotExist (fs_stat fs p) = false -> doomed cfg fs p = false.
Proof. unfold doomed. by intros ->. Qed.

Lemma nonRegularAt_spec cfg fs p :
  nonRegularAt cfg fs p = true -> ~ In p (map fst (scanTargets cfg fs)).
Proof.
  unfold nonRegularAt. rewrite forallb_forall. intros H Hin.
  apply in_map_iff in Hin as ([q info] & <- & Hin). simpl in *.
  apply scanTargets_spec in Hin as (_ & Hreg & _ & dir & Hdir & Hv).
  specialize (H dir Hdir). rewrite forallb_forall in H. specialize (H _ Hv).
  simpl in H. rewrite String.eqb_refl, Hreg in H. done.
Qed.

Lemma runCycles_snoc cfg fss fs st :
  runCycles cfg (fss ++ [fs]) st = checkFiles cfg fs (runCycles cfg fss st).
Proof. unfold runCycles. by rewrite fold_left_app. Qed.

Lemma runCycles_prefix cfg fss st :
  exists evs, alerts (runCycles cfg fss st) = alerts st ++ evs.
Proof.
  revert st. induction fss as [|fs fss IH]; intros st; simpl.
  - exists []. by rewrite app_nil_r.
  - destruct (IH (checkFiles cfg fs st)) as [e2 ->].
    destruct (checkFiles_prefix cfg fs st) as [e1 ->].
    exists (e1 ++ e2). by rewrite app_assoc.
Qed.

(** *** The baseline *)

Section Baseline.
Variable fs : FS.

Lemma baselineStep_alerts st p : alerts (baselineStep fs st p) = alerts st.
Proof. unfold baselineStep. by destruct (calculateFileHash fs p). Qed.

Lemma baseline_fold_alerts l st :
  alerts (fold_left (baselineStep fs) l st) = alerts st.
Proof.
  revert st. induction l as [|p l IH]; intros st; simpl; [done|].
  by rewrite IH, baselineStep_alerts.
Qed.

Lemma baselineStep_lookup st p q :
  hashDB (baselineStep fs st p) !! q
  = if decide (p = q)
    then match fs_sha256 fs p with Some h => Some h | None => hashDB st !! q end
    else hashDB st !! q.
Proof.
  unfold baselineStep, calculateFileHash.
  destruct (fs_sha256 fs p) as [h|]; simpl.
  - rewrite lookup_insert. by case_decide.
  - by case_decide.
Qed.

Lemma baseline_fold_keeps l st q h :
  hashDB st !! q = Some h -> fs_sha256 fs q = Some h ->
  hashDB (fold_left (baselineStep fs) l st) !! q = Some h.
Proof.
  revert st. induction l as [|p l IH]; intros st Hq Hh; simpl; [done|].
  apply IH; [|done]. rewrite baselineStep_lookup.
  case_decide; [subst; by rewrite Hh|done].
Qed.

Lemma baseline_fold_stored l st p h :
  In p l -> fs_sha256 fs p = Some h ->
  hashDB (fold_left (baselineStep fs) l st) !! p = Some h.
Proof.
  revert st. induction l as [|q l IH]; intros st Hin Hh; simpl; [done|].
  destruct Hin as [->|Hin]; [|by apply IH].
  apply baseline_fold_keeps; [|done].
  rewrite baselineStep_lookup, decide_True by done. by rewrite Hh.
Qed.
End Baseline.

Lemma initHashDB_rebuild cfg fs st data m e :
  dbFile st = Content data ->
  Json.Unmarshal data (hashDB st) = (m, Some e) ->
  initHashDB cfg fs st
  = (saveHashDB fs (fold_left (baselineStep fs) (baselineTargets cfg fs) (setHashDB m st))).1.
Proof.
  intros Hf Hu. unfold initHashDB, loadHashDB. rewrite Hf, Hu.
  by rewrite walkDirs_init_fold.
Qed.

(* A cycle of checkFiles leaves the path of an excluded file alone. *)
Lemma checkFiles_excluded_untouched cfg fs st q :
  shouldExclude q (exclude cfg) = true ->
  hashDB (checkFiles cfg fs st) !! q = hashDB st !! q /\
  List.filter (aboutPath q) (newAlerts st (checkFiles cfg fs st)) = [].
Proof.
  intros Hex. apply checkFiles_untouched.
  - left. intros Hin. apply in_map_iff in Hin as ([q' info] & <- & Hin).
    apply scanTargets_spec in Hin as (Hex' & _). simpl in Hex. congruence.
  - unfold doomed. by rewrite Hex, andb_false_r.
Qed.

(** *** Persistence *)

Lemma validStore_spec (m : gmap string string) :
  validStore m = true ->
  forall k v, m !! k = Some v -> validUTF8 k = true /\ validUTF8 v = true.
Proof.
  unfold validStore. rewrite forallb_forall. intros H k v Hkv.
  apply elem_of_map_to_list, list_elem_of_In, H in Hkv.
  by apply andb_true_iff in Hkv.
Qed.

(** ** The claims *)

(** C1 (the code at the failing input). Root /a, rule /a/b/, no store
    file: the baseline build stores the file /a/b/x of the excluded
    subtree; the cycles of checkFiles then never report it. *)
Theorem C1_baseline_stores_excluded_file :
  shouldExclude "/a/b/x" (exclude Scenario.cfgA) = true /\
  hashDB (initHashDB Scenario.cfgA Scenario.fsA (startState NoFile)) !! "/a/b/x"
  = Some "hx"%string /\
  hashDB (checkFiles Scenario.cfgA Scenario.fsA (startState NoFile)) !! "/a/b/x" = None.
Proof. vm_compute. auto. Qed.

(** C2 (as stated, refuted). The store file holds text that is not JSON:
    after initHashDB the store holds a.txt and b.log, no alert has been
    written, and the scan that follows writes no alert either. *)
Lemma C2_corrupt_store_rebuilt_silently :
  Json.Unmarshal "not json" ∅ = (∅, Some Json.SyntaxError) /\
  hashDB (initHashDB Scenario.cfgData (Scenario.fsData "hx") (startState (Content "not json")))
  = <["/data/b.log" := "hy"%string]> (<["/data/a.txt" := "hx"%string]> ∅) /\
  alerts (initHashDB Scenario.cfgData (Scenario.fsData "hx") (startState (Content "not json")))
  = [] /\
  alerts (checkFiles Scenario.cfgData (Scenario.fsData "hx")
            (initHashDB Scenario.cfgData (Scenario.fsData "hx")
               (startState (Content "not json"))))
  = [].
Proof. vm_compute. auto. Qed.

(** C2 (amended). When the store file exists but does not parse,
    initHashDB rebuilds the baseline itself and silently: it writes no
    alert, and the store holds the digest of every entry that its walk
    reaches, that is no directory and that can be read; the scan that
    follows writes no alert about a file that both walks reach. *)
Theorem C2_unparsable_store_rebuilds_baseline cfg fs st data m e :
  dbFile st = Content data ->
  Json.Unmarshal data (hashDB st) = (m, Some e) ->
  alerts (initHashDB cfg fs st) = alerts st /\
  (forall p h, In p (baselineTargets cfg fs) -> fs_sha256 fs p = Some h ->
     hashDB (initHashDB cfg fs st) !! p = Some h) /\
  (forall p info, In (p, info) (scanTargets cfg fs) -> In p (baselineTargets cfg fs) ->
     IsNotExist (fs_stat fs p) = false ->
     List.filter (aboutPath p)
       (newAlerts (initHashDB cfg fs st) (checkFiles cfg fs (initHashDB cfg fs st))) = []).
Proof.
  intros Hf Hu. rewrite (initHashDB_rebuild cfg fs st data m e Hf Hu).
  assert (forall p h, In p (baselineTargets cfg fs) -> fs_sha256 fs p = Some h ->
     hashDB (saveHashDB fs (fold_left (baselineStep fs) (baselineTargets cfg fs)
                              (setHashDB m st))).1 !! p = Some h) as Hstored.
  { intros p h Hin Hh. rewrite saveHashDB_hashDB. by apply baseline_fold_stored. }
  split; [|split].
  - by rewrite saveHashDB_alerts, baseline_fold_alerts.
  - done.
  - intros p info Hscan Hbase Hstat.
    apply checkFiles_untouched; [|by apply exists_not_doomed].
    right. destruct (fs_sha256 fs p) as [h|] eqn:Hh; [right|by left].
    by apply Hstored.
Qed.

Lemma C2_unparsable_store_rebuilds_baseline_witness :
  alerts (initHashDB Scenario.cfgData (Scenario.fsData "hx") (startState (Content "not json")))
  = alerts (startState (Content "not json")) /\
  (forall p h, In p (baselineTargets Scenario.cfgData (Scenario.fsData "hx")) ->
     fs_sha256 (Scenario.fsData "hx") p = Some h ->
     hashDB (initHashDB Scenario.cfgData (Scenario.fsData "hx")
               (startState (Content "not json"))) !! p = Some h) /\
  (forall p info, In (p, info) (scanTargets Scenario.cfgData (Scenario.fsData "hx")) ->
     In p (baselineTargets Scenario.cfgData (Scenario.fsData "hx")) ->
     IsNotExist (fs_stat (Scenario.fsData "hx") p) = false ->
     List.filter (aboutPath p)
       (newAlerts
          (initHashDB Scenario.cfgData (Scenario.fsData "hx") (startState (Content "not json")))
          (checkFiles Scenario.cfgData (Scenario.fsData "hx")
             (initHashDB Scenario.cfgData (Scenario.fsData "hx")
                (startState (Content "not json"))))) = []).
Proof.
  apply (C2_unparsable_store_rebuilds_baseline Scenario.cfgData (Scenario.fsData "hx")
           (startState (Content "not json")) "not json" ∅ Json.SyntaxError).
  - reflexivity.
  - vm_compute. reflexivity.
Defined.

(** C3 (as stated, refuted). The rule logs/ does not exclude the
    directory logs itself: the path does not start with the rule. *)
Lemma C3_directory_itself_not_excluded :
  shouldExclude "logs" ["logs/"%string] = false.
Proof. reflexivity. Qed.

(** C3 (amended). A directory rule D/ excludes a path exactly when the
    normalized path starts with D/, that is, is D/ followed by anything:
    what lies beneath the directory, not the path of the directory itself.
    The rule logs/ excludes logs/x, and neither logs nor
    logs_backup/file. *)
Theorem C3_directory_rule D path :
  (shouldExclude path [(D ++ "/")%string] = true
   <-> exists rest, Filepath.ToSlash path = (D ++ "/" ++ rest)%string) /\
  shouldExclude "logs/x" ["logs/"%string] = true /\
  shouldExclude "logs" ["logs/"%string] = false /\
  shouldExclude "logs_backup/file" ["logs/"%string] = false.
Proof.
  split; [|by vm_compute].
  simpl. rewrite HasSuffix_app, TrimSuffix_app. unfold GoStrings.HasPrefix.
  destruct (String.prefix (D ++ "/") (Filepath.ToSlash path)) eqn:Hpre.
  - split; [|done]. intros _. apply prefix_app_iff in Hpre as [rest Hr].
    exists rest. rewrite Hr. apply append_assoc_string.
  - split; [done|]. intros [rest Hr].
    assert (String.prefix (D ++ "/") (Filepath.ToSlash path) = true); [|congruence].
    apply prefix_app_iff. exists rest. rewrite Hr. symmetry. apply append_assoc_string.
Qed.




(** C5 (the code at the failing input). Size limit 10485760, file /a/big
    of one byte more, no store file: the baseline build computes its
    digest and stores it; a cycle of checkFiles from the empty store does
    not. *)
Theorem C5_baseline_stores_large_file :
  (0 <? MaxFileSize Scenario.cfgA)%Z && (MaxFileSize Scenario.cfgA <? 10485761)%Z = true /\
  hashDB (initHashDB Scenario.cfgA Scenario.fsA (startState NoFile)) !! "/a/big"
  = Some "hbig"%string /\
  hashDB (checkFiles Scenario.cfgA Scenario.fsA (startState NoFile)) !! "/a/big" = None.
Proof. vm_compute. auto. Qed.

(** C6. A scan is idempotent on an unchanged file system: after one cycle,
    a second cycle on the same file system state writes no alert and
    leaves the whole state, the store included, as the first cycle left
    it.  The file system is one in which os.Stat finds the regular files
    that the walk has just found. *)
Theorem C6_scan_idempotent cfg fs st :
  statFindsTargets cfg fs = true ->
  newAlerts (checkFiles cfg fs st) (checkFiles cfg fs (checkFiles cfg fs st)) = [] /\
  hashDB (checkFiles cfg fs (checkFiles cfg fs st)) = hashDB (checkFiles cfg fs st) /\
  checkFiles cfg fs (checkFiles cfg fs st) = checkFiles cfg fs st.
Proof.
  intros Hstat.
  assert (checkFiles cfg fs (checkFiles cfg fs st) = checkFiles cfg fs st) as Heq.
  { set (st1 := checkFiles cfg fs st).
    assert (walkPhase cfg fs (st1, false) = (st1, false)) as Hwalk.
    { rewrite walkPhase_fold. apply compare_fold_noop. simpl. intros p info Hin.
      destruct (fs_sha256 fs p) as [h|] eqn:Hh; [right|by left].
      subst st1. rewrite checkFiles_hashDB.
      destruct (deletionSweep_kept cfg fs (walkPhase cfg fs (st, false)) p) as [-> _].
      { apply exists_not_doomed. by apply (statFindsTargets_spec cfg fs Hstat p info). }
      rewrite walkPhase_fold. by apply (compare_fold_stored fs _ _ p info). }
    assert (deletionSweep cfg fs (st1, false) = (st1, false)) as Hsweep.
    { apply sweep_fold_noop. simpl. intros p Hp.
      apply keys_In in Hp as [h Hp].
      destruct (doomed cfg fs p) eqn:Hd; [|done].
      subst st1. rewrite checkFiles_hashDB in Hp.
      pose proof Hp as Hp'. apply sweep_fold_lookup_Some in Hp'.
      destruct (deletionSweep_deleted cfg fs (walkPhase cfg fs (st, false)) p) as [Hn _];
        [eauto|done|]. congruence. }
    unfold checkFiles at 1. fold st1. by rewrite Hwalk, Hsweep. }
  rewrite Heq. split; [|done].
  apply (newAlerts_app _ _ []). by rewrite app_nil_r.
Qed.

Lemma C6_scan_idempotent_witness :
  newAlerts (checkFiles Scenario.cfgData (Scenario.fsData "hz") Scenario.stBaselined)
    (checkFiles Scenario.cfgData (Scenario.fsData "hz")
       (checkFiles Scenario.cfgData (Scenario.fsData "hz") Scenario.stBaselined)) = [] /\
  hashDB (checkFiles Scenario.cfgData (Scenario.fsData "hz")
            (checkFiles Scenario.cfgData (Scenario.fsData "hz") Scenario.stBaselined))
  = hashDB (checkFiles Scenario.cfgData (Scenario.fsData "hz") Scenario.stBaselined) /\
  checkFiles Scenario.cfgData (Scenario.fsData "hz")
    (checkFiles Scenario.cfgData (Scenario.fsData "hz") Scenario.stBaselined)
  = checkFiles Scenario.cfgData (Scenario.fsData "hz") Scenario.stBaselined.
Proof.
  apply (C6_scan_idempotent Scenario.cfgData (Scenario.fsData "hz") Scenario.stBaselined).
  vm_compute. reflexivity.
Defined.

(** C7 (as stated, refuted). Two baselined files, which no rule excludes
    and which are regular and within the size limit, whose content has
    changed, and about which the cycle writes nothing.  The file /f is
    itself the monitored root: initHashDB stores its digest, and the
    callback of checkFiles returns at once on the root.  The file /data/z
    follows, in the directory /data, a directory that can no longer be
    read: the callback returns the error it is passed and the walk of the
    root ends before z.  In both cases no ModifiedFile is written and the
    store keeps the old digest. *)
Lemma C7_modified_file_not_compared :
  (hashDB (initHashDB Cases.cfgFile Cases.fsFileOld (startState NoFile)) !! "/f"
   = Some "hold"%string /\
   fs_walk Cases.fsFile "/f" = Scenario.regular "/f" 1 /\
   fs_sha256 Cases.fsFile "/f" = Some "hf"%string /\
   shouldExclude "/f" (exclude Cases.cfgFile) = false /\
   fs_stat Cases.fsFile "/f" = StatOk /\
   newAlerts (initHashDB Cases.cfgFile Cases.fsFileOld (startState NoFile))
     (checkFiles Cases.cfgFile Cases.fsFile
        (initHashDB Cases.cfgFile Cases.fsFileOld (startState NoFile))) = [] /\
   hashDB (checkFiles Cases.cfgFile Cases.fsFile
             (initHashDB Cases.cfgFile Cases.fsFileOld (startState NoFile))) !! "/f"
   = Some "hold"%string) /\
  (hashDB (initHashDB Scenario.cfgData Cases.fsUnlocked (startState NoFile)) !! "/data/z"
   = Some "hold"%string /\
   fs_walk Cases.fsLocked "/data" = Cases.treeLocked /\
   fs_sha256 Cases.fsLocked "/data/z" = Some "hz"%string /\
   shouldExclude "/data/z" (exclude Scenario.cfgData) = false /\
   fs_stat Cases.fsLocked "/data/z" = StatOk /\
   newAlerts (initHashDB Scenario.cfgData Cases.fsUnlocked (startState NoFile))
     (checkFiles Scenario.cfgData Cases.fsLocked
        (initHashDB Scenario.cfgData Cases.fsUnlocked (startState NoFile))) = [] /\
   hashDB (checkFiles Scenario.cfgData Cases.fsLocked
             (initHashDB Scenario.cfgData Cases.fsUnlocked (startState NoFile))) !! "/data/z"
   = Some "hold"%string).
Proof. vm_compute. repeat split; reflexivity. Qed.

(** C7 (amended). A baselined file that the walk of the cycle reaches and
    compares: it is visited below a monitored root and is not the root
    itself, no error has ended the walk of its root before it, no rule
    excludes it, Lstat shows a regular file within the size limit; and
    os.Stat finds it.  Baselined with the digest H1 and now of digest H2:
    when the digests differ the cycle writes exactly one alert about the
    path, ModifiedFile with the old digest H1 and the new one H2, and the
    store holds H2; when they are equal the cycle writes no alert about
    the path and the entry stays H1. *)
Theorem C7_modification_detected cfg fs st P info H1 H2 :
  In (P, info) (scanTargets cfg fs) ->
  hashDB st !! P = Some H1 ->
  fs_sha256 fs P = Some H2 ->
  IsNotExist (fs_stat fs P) = false ->
  (H1 <> H2 ->
     (exists info', In (P, info') (scanTargets cfg fs) /\
        List.filter (aboutPath P) (newAlerts st (checkFiles cfg fs st))
        = [ModifiedFile P (Size info') H1 H2]) /\
     hashDB (checkFiles cfg fs st) !! P = Some H2) /\
  (H1 = H2 ->
     List.filter (aboutPath P) (newAlerts st (checkFiles cfg fs st)) = [] /\
     hashDB (checkFiles cfg fs st) !! P = Some H1).
Proof.
  intros Hin Hl Hh Hstat. split.
  - intros Hne.
    destruct (checkFiles_prefix cfg fs st) as [evs Hevs].
    destruct (compare_fold_modified fs (scanTargets cfg fs) (st, false) P H1 H2)
      as (info' & Hin' & Hs & Ha); try done.
    { apply in_map_iff. by exists (P, info). }
    rewrite <- walkPhase_fold in Hs, Ha.
    destruct (deletionSweep_kept cfg fs (walkPhase cfg fs (st, false)) P) as [Hl' Ha'].
    { by apply exists_not_doomed. }
    split.
    + exists info'. split; [done|].
      apply (filter_newAlerts _ _ _ evs); [done|].
      by rewrite checkFiles_alerts, Ha', Ha.
    + by rewrite checkFiles_hashDB, Hl', Hs.
  - intros <-.
    destruct (checkFiles_untouched cfg fs st P) as [Hl' Ha'].
    { right. right. congruence. }
    { by apply exists_not_doomed. }
    split; [done|]. by rewrite Hl'.
Qed.

Lemma C7_modification_detected_witness :
  ("hx" <> "hz" ->
     (exists info', In ("/data/a.txt", info')
                      (scanTargets Scenario.cfgData (Scenario.fsData "hz")) /\
        List.filter (aboutPath "/data/a.txt")
          (newAlerts Scenario.stBaselined
             (checkFiles Scenario.cfgData (Scenario.fsData "hz") Scenario.stBaselined))
        = [ModifiedFile "/data/a.txt" (Size info') "hx" "hz"]) /\
     hashDB (checkFiles Scenario.cfgData (Scenario.fsData "hz") Scenario.stBaselined)
       !! "/data/a.txt" = Some "hz") /\
  ("hx" = "hz" ->
     List.filter (aboutPath "/data/a.txt")
       (newAlerts Scenario.stBaselined
          (checkFiles Scenario.cfgData (Scenario.fsData "hz") Scenario.stBaselined)) = [] /\
     hashDB (checkFiles Scenario.cfgData (Scenario.fsData "hz") Scenario.stBaselined)
       !! "/data/a.txt" = Some "hx").
Proof.
  apply (C7_modification_detected Scenario.cfgData (Scenario.fsData "hz")
           Scenario.stBaselined "/data/a.txt"
           {| Mode := ModeRegular; Size := 1 |} "hx" "hz").
  - vm_compute. left. reflexivity.
  - vm_compute. reflexivity.
  - vm_compute. reflexivity.
  - vm_compute. reflexivity.
Defined.



(** C9 (as stated, refuted). A store whose one path has a byte that is no
    UTF-8 (a file name in Latin-1): saved and loaded again, the store has
    lost the path and holds another one, with U+FFFD in place of the
    byte. *)
Lemma C9_invalid_utf8_path_not_restored :
  hashDB Scenario.stLatin1 !! Scenario.keyLatin1 = Some "h"%string /\
  (loadHashDB (startState (dbFile (saveHashDB (Scenario.fsData "hx") Scenario.stLatin1).1))).2
  = true /\
  hashDB (loadHashDB (startState
            (dbFile (saveHashDB (Scenario.fsData "hx") Scenario.stLatin1).1))).1
    !! Scenario.keyLatin1 = None /\
  hashDB (loadHashDB (startState
            (dbFile (saveHashDB (Scenario.fsData "hx") Scenario.stLatin1).1))).1
    !! Scenario.keyReplaced = Some "h"%string.
Proof. vm_compute. auto. Qed.

(** C9 (amended). Persistence round-trips for a store whose paths and
    fingerprints are well-formed UTF-8: when saveHashDB succeeds, loading
    the file it wrote into the empty map of a fresh start gives a store
    with exactly the entries of the original. *)
Theorem C9_save_load_roundtrip fs st :
  validStore (hashDB st) = true ->
  fs_mkdirall_ok fs = true ->
  fs_writefile_ok fs = true ->
  (saveHashDB fs st).2 = false /\
  dbFile (saveHashDB fs st).1 = Content (Json.MarshalIndent (hashDB st)) /\
  (loadHashDB (startState (dbFile (saveHashDB fs st).1))).2 = true /\
  hashDB (loadHashDB (startState (dbFile (saveHashDB fs st).1))).1 = hashDB st.
Proof.
  intros Hvalid Hmk Hwr. unfold saveHashDB. rewrite Hmk, Hwr. simpl.
  split; [done|]. split; [done|].
  unfold loadHashDB. simpl.
  rewrite (Unmarshal_MarshalIndent (hashDB st) (validStore_spec _ Hvalid)).
  done.
Qed.

Lemma C9_save_load_roundtrip_witness :
  (saveHashDB (Scenario.fsData "hx") Scenario.stBaselined).2 = false /\
  dbFile (saveHashDB (Scenario.fsData "hx") Scenario.stBaselined).1
  = Content (Json.MarshalIndent (hashDB Scenario.stBaselined)) /\
  (loadHashDB (startState
     (dbFile (saveHashDB (Scenario.fsData "hx") Scenario.stBaselined).1))).2 = true /\
  hashDB (loadHashDB (startState
            (dbFile (saveHashDB (Scenario.fsData "hx") Scenario.stBaselined).1))).1
  = hashDB Scenario.stBaselined.
Proof.
  apply (C9_save_load_roundtrip (Scenario.fsData "hx") Scenario.stBaselined);
    vm_compute; reflexivity.
Defined.

(** C10 (as stated, refuted). A baselined file replaced by a symbolic link
    whose target does not exist: the walk, which uses Lstat, skips the
    link, but os.Stat follows it and reports that the path does not exist,
    so the sweep writes DeletedFile and removes the entry. *)
Lemma C10_dangling_symlink_reported :
  nonRegularAt Scenario.cfgLink Scenario.fsDangling "/a/f" = true /\
  hashDB Scenario.stLink !! "/a/f" = Some "h" /\
  newAlerts Scenario.stLink
    (checkFiles Scenario.cfgLink Scenario.fsDangling Scenario.stLink)
  = [DeletedFile "/a/f"] /\
  hashDB (checkFiles Scenario.cfgLink Scenario.fsDangling Scenario.stLink) !! "/a/f" = None.
Proof. vm_compute. auto. Qed.

(** C10 (amended). A baselined path at which the walk now finds something
    else than a regular file and which os.Stat still finds (a directory, a
    device, a symbolic link whose target exists): over any number of
    cycles in which this holds, no alert is written about the path and its
    entry of the store stays as it was. *)
Theorem C10_non_regular_entry_left_alone cfg fss st P :
  (forall fs, In fs fss ->
     nonRegularAt cfg fs P = true /\ IsNotExist (fs_stat fs P) = false) ->
  List.filter (aboutPath P) (newAlerts st (runCycles cfg fss st)) = [] /\
  hashDB (runCycles cfg fss st) !! P = hashDB st !! P.
Proof.
  induction fss as [|fs fss IH] using rev_ind; intros H.
  - simpl. split; [|done]. by rewrite (newAlerts_app _ _ []) by (by rewrite app_nil_r).
  - destruct IH as [IHa IHl].
    { intros fs' Hfs'. apply H, in_app_iff. by left. }
    destruct (H fs) as [Hnr Hstat]; [apply in_app_iff; right; by left|].
    rewrite runCycles_snoc.
    destruct (checkFiles_untouched cfg fs (runCycles cfg fss st) P) as [Hl Ha].
    { left. by apply nonRegularAt_spec. }
    { by apply exists_not_doomed. }
    split; [|by rewrite Hl].
    destruct (runCycles_prefix cfg fss st) as [e1 He1].
    destruct (checkFiles_prefix cfg fs (runCycles cfg fss st)) as [e2 He2].
    rewrite (newAlerts_app _ _ _ He1) in IHa.
    rewrite (newAlerts_app _ _ _ He2) in Ha.
    rewrite (newAlerts_app st _ (e1 ++ e2)) by (by rewrite He2, He1, app_assoc).
    by rewrite List.filter_app, IHa, Ha.
Qed.

Lemma C10_non_regular_entry_left_alone_witness :
  List.filter (aboutPath "/a/f")
    (newAlerts Scenario.stLink
       (runCycles Scenario.cfgLink [Scenario.fsNowDir; Scenario.fsNowDir] Scenario.stLink))
  = [] /\
  hashDB (runCycles Scenario.cfgLink [Scenario.fsNowDir; Scenario.fsNowDir] Scenario.stLink)
    !! "/a/f" = hashDB Scenario.stLink !! "/a/f".
Proof.
  apply (C10_non_regular_entry_left_alone Scenario.cfgLink
           [Scenario.fsNowDir; Scenario.fsNowDir] Scenario.stLink "/a/f").
  intros fs [<-|[<-|[]]]; vm_compute; auto.
Defined.

(** ** Further properties *)

(** *** The exclusion rules *)

Section WildcardRule.
Local Open Scope string_scope.

Lemma literal_cons c s :
  literal (String c s) = true ->
  Ascii.eqb c "*" = false /\ Ascii.eqb c "?" = false /\ Ascii.eqb c "[" = false /\
  Ascii.eqb c "\" = false /\ literal s = true.
Proof.
  simpl. intros H. apply andb_true_iff in H as [H Hs]. apply negb_true_iff in H.
  repeat (apply orb_false_iff in H as [H ?]). auto.
Qed.

Lemma trimStars_literal s : literal s = true -> Filepath.trimStars s = (false, s).
Proof.
  destruct s as [|c s]; [done|]. intros H. apply literal_cons in H as (H & _).
  revert H. each_byte c; intros H; try discriminate H; reflexivity.
Qed.

Lemma scanSplit_literal s inrange : literal s = true -> Filepath.scanSplit inrange s = (s, "").
Proof.
  revert inrange. induction s as [|c s IH]; intros inrange H; [done|].
  apply literal_cons in H as (H1 & H2 & H3 & H4 & Hs). simpl.
  rewrite H4, H3, H1. simpl.
  destruct (Ascii.eqb c "]"); by rewrite IH.
Qed.

Lemma scanChunk_star_literal s :
  literal s = true -> Filepath.scanChunk (String "*" s) = (true, s, "").
Proof.
  intros H. unfold Filepath.scanChunk. simpl Filepath.trimStars.
  rewrite (trimStars_literal s H). simpl snd.
  by rewrite (scanSplit_literal s false H).
Qed.

(* A literal chunk matches the names it is a prefix of. *)
Lemma matchChunkLoop_literal chunk :
  literal chunk = true ->
  forall fuel s failed, String.length chunk < fuel ->
  Filepath.matchChunkLoop fuel chunk s failed
  = Some (if failed then None else stripPrefix chunk s).
Proof.
  induction chunk as [|c chunk IH]; intros Hlit fuel s failed Hfuel.
  - destruct fuel; [simpl in Hfuel; lia|]. simpl. unfold stripPrefix.
    by destruct s.
  - apply literal_cons in Hlit as (H1 & H2 & H3 & H4 & Hs).
    destruct fuel as [|fuel]; [simpl in Hfuel; lia|]. simpl in Hfuel.
    cbn [Filepath.matchChunkLoop]. rewrite H3, H2, H4.
    destruct failed; simpl.
    + rewrite IH by (done || lia). done.
    + destruct s as [|d s]; simpl.
      * rewrite IH by (done || lia). done.
      * rewrite IH by (done || lia). unfold stripPrefix. simpl.
        destruct (Ascii.ascii_dec c d) as [->|Hne].
        -- by rewrite Ascii.eqb_refl.
        -- apply Ascii.eqb_neq in Hne. by rewrite Hne.
Qed.

Lemma matchChunk_literal chunk s :
  literal chunk = true -> Filepath.matchChunk chunk s = Some (stripPrefix chunk s).
Proof.
  intros H. unfold Filepath.matchChunk. rewrite matchChunkLoop_literal by (done || lia). done.
Qed.

Lemma stripPrefix_empty chunk s :
  (match stripPrefix chunk s with Some t => String.eqb t "" | None => false end)
  = String.eqb s chunk.
Proof.
  unfold stripPrefix. revert s. induction chunk as [|c chunk IH]; intros s.
  - destruct s; reflexivity.
  - destruct s as [|d s]; [reflexivity|]. simpl.
    destruct (Ascii.ascii_dec c d) as [->|Hne].
    + rewrite Ascii.eqb_refl. apply IH.
    + rewrite Ascii.eqb_sym. apply Ascii.eqb_neq in Hne. by rewrite Hne.
Qed.

Lemma starSkip_literal chunk name :
  literal chunk = true ->
  Filepath.starSkip chunk name true
  = Some (if suffixAfterSkip chunk name then Some "" else None).
Proof.
  intros Hlit. induction name as [|c name IH]; [done|]. simpl.
  destruct (Ascii.eqb c Filepath.Separator); [done|].
  rewrite matchChunk_literal by done.
  pose proof (stripPrefix_empty chunk name) as He.
  destruct (stripPrefix chunk name) as [t|].
  - rewrite <- He. destruct (String.eqb t "") eqn:Ht; simpl.
    + apply String.eqb_eq in Ht. by subst t.
    + apply IH.
  - rewrite <- He. simpl. apply IH.
Qed.

(* A star and a literal: the name is the literal, or ends with it after
   bytes that the star can skip. *)
Lemma MatchLoop_star_literal suf name fuel :
  literal suf = true -> suf <> "" ->
  (Filepath.MatchLoop (S (S fuel)) (String "*" suf) name).1
  = String.eqb name suf || suffixAfterSkip suf name.
Proof.
  intros Hlit Hne. cbn [Filepath.MatchLoop].
  change (String.eqb (String "*" suf) "") with false. cbv iota.
  rewrite scanChunk_star_literal by done.
  apply String.eqb_neq in Hne. rewrite Hne. simpl andb. cbv iota.
  rewrite matchChunk_literal by done.
  pose proof (stripPrefix_empty suf name) as He.
  rewrite starSkip_literal by done.
  destruct (stripPrefix suf name) as [t|].
  - rewrite <- He. destruct (String.eqb t "") eqn:Ht; simpl.
    + apply String.eqb_eq in Ht. by subst t.
    + destruct (suffixAfterSkip suf name); done.
  - rewrite <- He. simpl. destruct (suffixAfterSkip suf name); done.
Qed.

Lemma eqb_length s t : String.eqb s t = true -> String.length s = String.length t.
Proof. intros H. apply String.eqb_eq in H. by subst. Qed.

Lemma HasSuffix_cons c s suf :
  GoStrings.HasSuffix (String c s) suf
  = String.eqb (String c s) suf || GoStrings.HasSuffix s suf.
Proof.
  unfold GoStrings.HasSuffix.
  destruct (Nat.leb_spec (String.length suf) (String.length s)) as [Hle|Hgt].
  - assert ((String.length suf <=? String.length (String c s))%nat = true) as ->
      by (apply Nat.leb_le; simpl; lia).
    simpl String.length.
    replace (S (String.length s) - String.length suf)
      with (S (String.length s - String.length suf)) by lia.
    change (GoStrings.drop (S (String.length s - String.length suf)) (String c s))
      with (GoStrings.drop (String.length s - String.length suf) s).
    cbn [andb].
    destruct (String.eqb (String c s) suf) eqn:He; [|done].
    apply eqb_length in He. simpl in He. lia.
  - simpl andb. rewrite orb_false_r.
    destruct (Nat.leb_spec (String.length suf) (String.length (String c s))) as [Hle|Hgt'].
    + simpl in Hle. assert (String.length suf = S (String.length s)) as Hl by lia.
      simpl String.length. rewrite Hl, Nat.leb_refl, Nat.sub_diag. done.
    + simpl String.length in *.
      assert ((String.length suf <=? S (String.length s))%nat = false) as ->
        by (apply Nat.leb_gt; lia).
      symmetry. apply String.eqb_neq. intros <-. simpl in Hgt'. lia.
Qed.

Lemma HasSuffix_nil suf : GoStrings.HasSuffix "" suf = String.eqb "" suf.
Proof. by destruct suf. Qed.

Lemma suffixAfterSkip_HasSuffix suf name :
  GoStrings.ContainsByte name Filepath.Separator = false ->
  String.eqb name suf || suffixAfterSkip suf name = GoStrings.HasSuffix name suf.
Proof.
  induction name as [|c name IH]; intros Hns.
  - rewrite HasSuffix_nil. simpl. apply orb_false_r.
  - simpl in Hns. apply orb_false_iff in Hns as [Hc Hns].
    rewrite HasSuffix_cons. simpl suffixAfterSkip. rewrite Hc.
    by rewrite IH.
Qed.

Lemma lastElement_no_separator p :
  GoStrings.ContainsByte (Filepath.lastElement p) Filepath.Separator = false.
Proof.
  induction p as [|c p IH]; [done|]. simpl.
  destruct (GoStrings.ContainsByte p Filepath.Separator) eqn:Hp; [done|].
  unfold Filepath.IsPathSeparator. rewrite Ascii.eqb_sym.
  destruct (Ascii.eqb c Filepath.Separator) eqn:Hc; [done|].
  simpl. by rewrite Hc, Hp.
Qed.

(* The base name is the separator or holds none. *)
Lemma Base_cases p :
  Filepath.Base p = "/" \/
  GoStrings.ContainsByte (Filepath.Base p) Filepath.Separator = false.
Proof.
  unfold Filepath.Base. destruct (String.eqb p ""); [by right|].
  destruct (String.eqb _ ""); [by left|]. right. apply lastElement_no_separator.
Qed.

(** X1. The rules are alternatives: a path is excluded exactly when one
    of the rules, taken alone, excludes it.  The order of the rules and
    their repetition do not matter. *)
Theorem shouldExclude_any_rule path rules :
  shouldExclude path rules = existsb (fun r => shouldExclude path [r]) rules.
Proof.
  induction rules as [|r rules IH]; [done|]. simpl. rewrite IH.
  repeat match goal with |- context [if ?b then _ else _] => destruct b end; done.
Qed.

(** X2. The wildcard rule of a suffix, as *.html: when the suffix has no
    character with a meaning in patterns, is not empty and does not end
    with a slash, the rule excludes exactly the paths whose base name
    ends with the suffix.  What lies before the base name is not looked
    at. *)
Theorem wildcard_suffix_rule suf path :
  literal suf = true -> suf <> "" -> GoStrings.HasSuffix suf "/" = false ->
  shouldExclude path ["*" ++ suf]
  = GoStrings.HasSuffix (Filepath.Base (Filepath.ToSlash path)) suf.
Proof.
  intros Hlit Hne Hdir.
  destruct suf as [|c suf]; [done|].
  assert (GoStrings.HasSuffix ("*" ++ String c suf) "/" = false) as Hd.
  { change ("*" ++ String c suf) with (String "*" (String c suf)).
    rewrite HasSuffix_cons, Hdir. reflexivity. }
  cbn [shouldExclude]. rewrite Hd.
  change (GoStrings.Contains ("*" ++ String c suf) "*") with true. cbv iota.
  unfold Filepath.Match. change ("*" ++ String c suf) with (String "*" (String c suf)).
  simpl String.length. rewrite MatchLoop_star_literal by done.
  set (name := Filepath.Base (Filepath.ToSlash path)).
  destruct (Base_cases (Filepath.ToSlash path)) as [Hb|Hb]; fold name in Hb.
  - rewrite Hb. rewrite HasSuffix_cons in Hdir |- *.
    apply orb_false_iff in Hdir as [Hdir _]. rewrite String.eqb_sym in Hdir.
    rewrite Hdir. rewrite HasSuffix_nil. reflexivity.
  - rewrite suffixAfterSkip_HasSuffix by done.
    by destruct (GoStrings.HasSuffix name (String c suf)).
Qed.

Lemma wildcard_suffix_rule_witness :
  shouldExclude "/var/www/old/index.html" ["*" ++ ".html"]
  = GoStrings.HasSuffix (Filepath.Base (Filepath.ToSlash "/var/www/old/index.html")) ".html".
Proof.
  apply (wildcard_suffix_rule ".html" "/var/www/old/index.html").
  - reflexivity.
  - discriminate.
  - reflexivity.
Defined.

Lemma MatchLoop_error_no_match fuel pattern name :
  (Filepath.MatchLoop fuel pattern name).2 = true ->
  (Filepath.MatchLoop fuel pattern name).1 = false.
Proof.
  revert pattern name.
  induction fuel as [|fuel IH]; intros pattern name; [done|]. simpl.
  destruct (String.eqb pattern ""); [done|].
  destruct (Filepath.scanChunk pattern) as [[star chunk] rest].
  destruct (star && String.eqb chunk ""); [done|].
  destruct (Filepath.matchChunk chunk name) as [[t|]|]; [| |done].
  - destruct (String.eqb t "" || negb (String.eqb rest "")); [apply IH|].
    destruct star; [|done].
    destruct (Filepath.starSkip chunk name (String.eqb rest "")) as [[t'|]|]; [apply IH|done..].
  - destruct star; [|done].
    destruct (Filepath.starSkip chunk name (String.eqb rest "")) as [[t'|]|]; [apply IH|done..].
Qed.

(** X3. The error of [Filepath.Match], which shouldExclude drops, hides
    no match: a wildcard rule whose pattern is found malformed on the base
    name of a path does not exclude the path. *)
Theorem malformed_pattern_excludes_nothing pattern path :
  GoStrings.HasSuffix pattern "/" = false ->
  GoStrings.Contains pattern "*" = true ->
  (Filepath.Match pattern (Filepath.Base (Filepath.ToSlash path))).2 = true ->
  shouldExclude path [pattern] = false.
Proof.
  intros Hd Hw Herr. cbn [shouldExclude]. rewrite Hd, Hw.
  unfold Filepath.Match in *. by rewrite (MatchLoop_error_no_match _ _ _ Herr).
Qed.

Lemma malformed_pattern_excludes_nothing_witness :
  shouldExclude "/var/www/a" ["[*"] = false.
Proof.
  apply (malformed_pattern_excludes_nothing "[*" "/var/www/a"); reflexivity.
Defined.
End WildcardRule.

(** *** The alerts of a cycle *)

Lemma compareStep_cases fs st p i :
  compareCase fs p i st (compareStep fs st (p, i)).
Proof. apply compareHash_cases. Qed.

(* A run of comparisons, seen from the state [st0] the cycle began in:
   each alert is justified, and an entry is the one of [st0] or the
   digest of a file compared so far. *)
Lemma compare_fold_justified cfg fs l st0 :
  forall seen st,
  (forall q, hashDB st.1 !! q = hashDB st0 !! q \/
             (In q (map fst seen) /\ hashDB st.1 !! q = fs_sha256 fs q)) ->
  exists evs,
    alerts (fold_left (compareStep fs) l st).1 = alerts st.1 ++ evs /\
    Forall (justified cfg fs st0 (seen ++ l)) evs /\
    (forall q, hashDB (fold_left (compareStep fs) l st).1 !! q = hashDB st0 !! q \/
               (In q (map fst (seen ++ l)) /\
                hashDB (fold_left (compareStep fs) l st).1 !! q = fs_sha256 fs q)).
Proof.
  induction l as [|[p i] l IH]; intros seen st Hinv; simpl.
  - exists []. rewrite !app_nil_r. auto.
  - pose proof (compareStep_cases fs st p i) as Hc.
    destruct (IH (seen ++ [(p, i)]) (compareStep fs st (p, i))) as (evs & Ha & Hj & Hinv').
    { intros q. rewrite map_app, in_app_iff. simpl.
      destruct Hc as [| |h Hh Hl|h1 h2 Hh Hl Hne]; simpl.
      - destruct (Hinv q) as [?|[? ?]]; auto.
      - destruct (Hinv q) as [?|[? ?]]; auto.
      - rewrite lookup_insert. case_decide as Hq.
        + subst q. right. split; [auto|congruence].
        + destruct (Hinv q) as [?|[? ?]]; auto.
      - rewrite lookup_insert. case_decide as Hq.
        + subst q. right. split; [auto|congruence].
        + destruct (Hinv q) as [?|[? ?]]; auto. }
    rewrite <- app_assoc in Hj, Hinv'. simpl in Hj, Hinv'.
    rewrite Ha. clear Ha.
    destruct Hc as [| |h Hh Hl|h1 h2 Hh Hl Hne]; simpl.
    + exists evs. auto.
    + exists evs. auto.
    + exists (NewFile p (Size i) h :: evs). rewrite <- app_assoc. split; [done|].
      split; [|done]. constructor; [|done]. simpl.
      destruct (Hinv p) as [Hp|[_ Hp]]; [|congruence].
      split; [congruence|]. split; [done|]. exists i. split; [|done].
      apply in_app_iff. right. by left.
    + exists (ModifiedFile p (Size i) h1 h2 :: evs). rewrite <- app_assoc. split; [done|].
      split; [|done]. constructor; [|done]. simpl.
      destruct (Hinv p) as [Hp|[_ Hp]]; [|congruence].
      split; [congruence|]. split; [done|]. split; [done|]. exists i. split; [|done].
      apply in_app_iff. right. by left.
Qed.

(* The alerts of the sweep: a deletion for keys that are doomed. *)
Lemma sweep_fold_events cfg fs l st :
  exists evs,
    alerts (fold_left (sweepStep cfg fs) l st).1 = alerts st.1 ++ evs /\
    Forall (fun e => exists p, e = DeletedFile p /\ In p l /\ doomed cfg fs p = true) evs.
Proof.
  revert st. induction l as [|p l IH]; intros st; simpl.
  - exists []. by rewrite app_nil_r.
  - destruct (IH (sweepStep cfg fs st p)) as (evs & -> & Hevs).
    assert (Forall (fun e => exists q, e = DeletedFile q /\ (p = q \/ In q l)
                                       /\ doomed cfg fs q = true) evs) as Hevs'.
    { eapply Forall_impl; [exact Hevs|]. intros e (q & ? & ? & ?). eauto. }
    rewrite sweepStep_eq. destruct (doomed cfg fs p) eqn:Hd; simpl.
    + exists (DeletedFile p :: evs). rewrite <- app_assoc. split; [done|].
      constructor; [|done]. eauto.
    + eauto.
Qed.

(* The alerts of a cycle: those of the walk, then those of the sweep. *)
Lemma checkFiles_alerts_split cfg fs st :
  exists e1 e2,
    alerts (walkPhase cfg fs (st, false)).1 = alerts st ++ e1 /\
    alerts (checkFiles cfg fs st) = alerts (walkPhase cfg fs (st, false)).1 ++ e2 /\
    newAlerts st (checkFiles cfg fs st) = e1 ++ e2.
Proof.
  destruct (walkPhase_prefix cfg fs (st, false)) as [e1 H1].
  destruct (checkFiles_sweep_prefix cfg fs st) as [e2 H2].
  exists e1, e2. split; [done|]. split; [done|].
  apply newAlerts_app. rewrite H2, H1. simpl. by rewrite app_assoc.
Qed.

Lemma walkPhase_keeps cfg fs st q :
  is_Some (hashDB st.1 !! q) -> is_Some (hashDB (walkPhase cfg fs st).1 !! q).
Proof. rewrite walkPhase_fold. apply compare_fold_keeps. Qed.

(* After a cycle the store holds the digest of a file that was compared
   and that os.Stat finds. *)
Lemma checkFiles_stored cfg fs st p info h :
  In (p, info) (scanTargets cfg fs) -> fs_sha256 fs p = Some h ->
  IsNotExist (fs_stat fs p) = false ->
  hashDB (checkFiles cfg fs st) !! p = Some h.
Proof.
  intros Hin Hh Hstat. rewrite checkFiles_hashDB.
  destruct (deletionSweep_kept cfg fs (walkPhase cfg fs (st, false)) p) as [-> _].
  { by apply exists_not_doomed. }
  rewrite walkPhase_fold. by apply (compare_fold_stored fs _ _ p info).
Qed.

(** X4. A file that the walk reaches and compares and that the store does
    not know: the cycle writes exactly one alert about the path, NewFile
    with the digest of the file, and the store holds the digest. *)
Theorem new_file_detected cfg fs st P info H :
  In (P, info) (scanTargets cfg fs) ->
  hashDB st !! P = None ->
  fs_sha256 fs P = Some H ->
  IsNotExist (fs_stat fs P) = false ->
  (exists info', In (P, info') (scanTargets cfg fs) /\
     List.filter (aboutPath P) (newAlerts st (checkFiles cfg fs st))
     = [NewFile P (Size info') H]) /\
  hashDB (checkFiles cfg fs st) !! P = Some H.
Proof.
  intros Hin Hl Hh Hstat.
  destruct (checkFiles_prefix cfg fs st) as [evs Hevs].
  destruct (compare_fold_new fs (scanTargets cfg fs) (st, false) P H)
    as (info' & Hin' & Hs & Ha); try done.
  { apply in_map_iff. by exists (P, info). }
  rewrite <- walkPhase_fold in Hs, Ha.
  destruct (deletionSweep_kept cfg fs (walkPhase cfg fs (st, false)) P) as [Hl' Ha'].
  { by apply exists_not_doomed. }
  split.
  - exists info'. split; [done|].
    apply (filter_newAlerts _ _ _ evs); [done|].
    by rewrite checkFiles_alerts, Ha', Ha.
  - by rewrite checkFiles_hashDB, Hl', Hs.
Qed.

Lemma new_file_detected_witness :
  (exists info', In ("/data/a.txt", info')
                   (scanTargets Scenario.cfgData (Scenario.fsData "hx")) /\
     List.filter (aboutPath "/data/a.txt")
       (newAlerts (startState NoFile)
          (checkFiles Scenario.cfgData (Scenario.fsData "hx") (startState NoFile)))
     = [NewFile "/data/a.txt" (Size info') "hx"]) /\
  hashDB (checkFiles Scenario.cfgData (Scenario.fsData "hx") (startState NoFile))
    !! "/data/a.txt" = Some "hx"%string.
Proof.
  apply (new_file_detected Scenario.cfgData (Scenario.fsData "hx") (startState NoFile)
           "/data/a.txt" {| Mode := ModeRegular; Size := 1 |} "hx").
  - vm_compute. left. reflexivity.
  - vm_compute. reflexivity.
  - vm_compute. reflexivity.
  - vm_compute. reflexivity.
Defined.

(** X5. No false alarm: every alert that a cycle writes is justified by
    the store the cycle began with and by the disk.  NewFile: the path was
    not in the store, it is a file the walk compared, and the digest is
    the one read; ModifiedFile: the store held the old digest, the new one
    is the one read and differs; DeletedFile: os.Stat does not find the
    path, no rule excludes it, and the store held it or the walk of this
    cycle added it. *)
Theorem alerts_justified cfg fs st e :
  In e (newAlerts st (checkFiles cfg fs st)) ->
  justified cfg fs st (scanTargets cfg fs) e.
Proof.
  destruct (compare_fold_justified cfg fs (scanTargets cfg fs) st [] (st, false))
    as (e1 & Ha1 & Hj1 & Hinv); [by left|].
  rewrite <- walkPhase_fold in Ha1, Hinv. simpl in Ha1, Hj1, Hinv.
  destruct (sweep_fold_events cfg fs
              (map fst (map_to_list (hashDB (walkPhase cfg fs (st, false)).1)))
              (walkPhase cfg fs (st, false))) as (e2 & Ha2 & Hj2).
  fold (deletionSweep cfg fs (walkPhase cfg fs (st, false))) in Ha2.
  rewrite <- checkFiles_alerts, Ha1, <- app_assoc in Ha2.
  rewrite (newAlerts_app _ _ _ Ha2), in_app_iff.
  intros [He|He].
  - rewrite Forall_forall in Hj1. apply Hj1. by apply list_elem_of_In.
  - rewrite Forall_forall in Hj2. apply list_elem_of_In, Hj2 in He as (p & -> & Hp & Hd).
    unfold doomed in Hd. apply andb_true_iff in Hd as [Hgone Hex].
    apply negb_true_iff in Hex. simpl. split; [done|]. split; [done|].
    apply keys_In in Hp as [h Hp].
    destruct (Hinv p) as [Hq|[Hq _]]; [left|by right].
    rewrite <- Hq. eauto.
Qed.

Lemma alerts_justified_witness :
  justified Scenario.cfgData (Scenario.fsData "hz") Scenario.stBaselined
    (scanTargets Scenario.cfgData (Scenario.fsData "hz"))
    (ModifiedFile "/data/a.txt" 1 "hx" "hz").
Proof.
  apply (alerts_justified Scenario.cfgData (Scenario.fsData "hz") Scenario.stBaselined).
  vm_compute. left. reflexivity.
Defined.

(** X6. An entry leaves the store only through the sweep: a path that the
    store holds when the cycle begins is gone after it exactly when
    os.Stat reports that it does not exist and no rule excludes it, and
    then the cycle has written DeletedFile for it. *)
Theorem entry_dropped_only_when_deleted cfg fs st q h :
  hashDB st !! q = Some h ->
  (hashDB (checkFiles cfg fs st) !! q = None
   <-> IsNotExist (fs_stat fs q) = true /\ shouldExclude q (exclude cfg) = false) /\
  (hashDB (checkFiles cfg fs st) !! q = None ->
   In (DeletedFile q) (newAlerts st (checkFiles cfg fs st))).
Proof.
  intros Hq.
  assert (is_Some (hashDB (walkPhase cfg fs (st, false)).1 !! q)) as Hw.
  { apply walkPhase_keeps. simpl. eauto. }
  rewrite checkFiles_hashDB.
  assert (doomed cfg fs q = true <->
          IsNotExist (fs_stat fs q) = true /\ shouldExclude q (exclude cfg) = false) as Hdoom.
  { unfold doomed. rewrite andb_true_iff, negb_true_iff. done. }
  rewrite <- Hdoom.
  destruct (doomed cfg fs q) eqn:Hd.
  - destruct (deletionSweep_deleted cfg fs (walkPhase cfg fs (st, false)) q Hw Hd) as [Hl Ha].
    split; [done|]. intros _.
    destruct (checkFiles_alerts_split cfg fs st) as (e1 & e2 & H1 & H2 & ->).
    rewrite <- checkFiles_alerts, H2, List.filter_app in Ha.
    apply app_inv_head in Ha.
    apply in_app_iff. right.
    assert (In (DeletedFile q) (List.filter (aboutPath q) e2)) as Hin
      by (rewrite Ha; by left).
    by apply filter_In in Hin as [Hin _].
  - destruct (deletionSweep_kept cfg fs (walkPhase cfg fs (st, false)) q Hd) as [Hl _].
    rewrite Hl. destruct Hw as [h' Hw]. rewrite Hw. split; [|done]. split; done.
Qed.

Lemma entry_dropped_only_when_deleted_witness :
  (hashDB (checkFiles Scenario.cfgData (Scenario.fsData "hx") Scenario.stBaselined)
     !! "/data/gone.txt" = None
   <-> IsNotExist (fs_stat (Scenario.fsData "hx") "/data/gone.txt") = true /\
       shouldExclude "/data/gone.txt" (exclude Scenario.cfgData) = false) /\
  (hashDB (checkFiles Scenario.cfgData (Scenario.fsData "hx") Scenario.stBaselined)
     !! "/data/gone.txt" = None ->
   In (DeletedFile "/data/gone.txt")
      (newAlerts Scenario.stBaselined
         (checkFiles Scenario.cfgData (Scenario.fsData "hx") Scenario.stBaselined))).
Proof.
  apply (entry_dropped_only_when_deleted Scenario.cfgData (Scenario.fsData "hx")
           Scenario.stBaselined "/data/gone.txt" "hg").
  vm_compute. reflexivity.
Defined.

Lemma compareStep_flagInv fs st0 s t : flagInv st0 s -> flagInv st0 (compareStep fs s t).
Proof.
  destruct t as [p i]. intros Hs.
  destruct (compareStep_cases fs s p i); auto; right; (split; [done|]); simpl.
  all: destruct Hs as [[_ ->]|(_ & e & evs & ->)]; [by eexists; exists []|].
  all: exists e; eexists; by rewrite <- app_assoc.
Qed.

Lemma sweepStep_flagInv cfg fs st0 s p : flagInv st0 s -> flagInv st0 (sweepStep cfg fs s p).
Proof.
  rewrite sweepStep_eq. intros Hs. destruct (doomed cfg fs p); [|done].
  right. split; [done|]. simpl.
  destruct Hs as [[_ ->]|(_ & e & evs & ->)]; [by eexists; exists []|].
  exists e; eexists; by rewrite <- app_assoc.
Qed.

Lemma fold_flagInv {A} st0 (step : State * bool -> A -> State * bool) l s :
  (forall s a, flagInv st0 s -> flagInv st0 (step s a)) ->
  flagInv st0 s -> flagInv st0 (fold_left step l s).
Proof. intros Hstep. revert s. induction l; simpl; auto. Qed.

Lemma cycle_flagInv cfg fs st0 :
  flagInv st0 (deletionSweep cfg fs (walkPhase cfg fs (st0, false))).
Proof.
  apply fold_flagInv; [apply sweepStep_flagInv|].
  rewrite walkPhase_fold. apply fold_flagInv; [apply compareStep_flagInv|].
  by left.
Qed.

(** X7. The store file is written in the cycles that write an alert, and
    only in them: a cycle that writes no alert changes neither the store
    nor the store file (it does log, as every cycle, its first and its
    last line, and a line for each error; these lines are no alerts and
    are not part of the state); a cycle that writes an alert, when the
    directory can be made and the file written, leaves in the store file
    the text of the store as it is after the cycle. *)
Theorem store_saved_when_changed cfg fs st :
  (newAlerts st (checkFiles cfg fs st) = [] -> checkFiles cfg fs st = st) /\
  (newAlerts st (checkFiles cfg fs st) <> [] ->
   fs_mkdirall_ok fs = true -> fs_writefile_ok fs = true ->
   dbFile (checkFiles cfg fs st)
   = Content (Json.MarshalIndent (hashDB (checkFiles cfg fs st)))).
Proof.
  pose proof (cycle_flagInv cfg fs st) as Hinv.
  pose proof (checkFiles_alerts cfg fs st) as Ha.
  pose proof (checkFiles_hashDB cfg fs st) as Hh.
  unfold checkFiles in *.
  destruct (deletionSweep cfg fs (walkPhase cfg fs (st, false))) as [st1 flag].
  destruct Hinv as [[Hf Hs]|(Hf & e & evs & He)]; simpl in *; subst flag.
  - subst st1. split; [done|]. intros Hne. exfalso. apply Hne.
    apply (newAlerts_app _ _ []). by rewrite app_nil_r.
  - split.
    + intros Hnil. rewrite (newAlerts_app st _ (e :: evs)) in Hnil by (by rewrite Ha).
      done.
    + intros _ Hmk Hwr. unfold saveHashDB. rewrite Hmk, Hwr. done.
Qed.

(** *** What a cycle leaves alone *)

Lemma overLimitAt_spec cfg fs p :
  overLimitAt cfg fs p = true -> ~ In p (map fst (scanTargets cfg fs)).
Proof.
  unfold overLimitAt. rewrite forallb_forall. intros H Hin.
  apply in_map_iff in Hin as ([q info] & <- & Hin). simpl in *.
  apply scanTargets_spec in Hin as (_ & _ & Hsz & dir & Hdir & Hv).
  specialize (H dir Hdir). rewrite forallb_forall in H. specialize (H _ Hv).
  simpl in H. rewrite String.eqb_refl, Hsz in H. done.
Qed.

(* A path that every cycle leaves alone is left alone by a run of
   cycles. *)
Lemma runCycles_untouched cfg fss st q :
  (forall fs s, In fs fss ->
     hashDB (checkFiles cfg fs s) !! q = hashDB s !! q /\
     List.filter (aboutPath q) (newAlerts s (checkFiles cfg fs s)) = []) ->
  List.filter (aboutPath q) (newAlerts st (runCycles cfg fss st)) = [] /\
  hashDB (runCycles cfg fss st) !! q = hashDB st !! q.
Proof.
  induction fss as [|fs fss IH] using rev_ind; intros H.
  - simpl. split; [|done]. by rewrite (newAlerts_app _ _ []) by (by rewrite app_nil_r).
  - destruct IH as [IHa IHl].
    { intros fs' s Hfs'. apply H, in_app_iff. by left. }
    rewrite runCycles_snoc.
    destruct (H fs (runCycles cfg fss st)) as [Hl Ha]; [apply in_app_iff; right; by left|].
    split; [|by rewrite Hl].
    destruct (runCycles_prefix cfg fss st) as [e1 He1].
    destruct (checkFiles_prefix cfg fs (runCycles cfg fss st)) as [e2 He2].
    rewrite (newAlerts_app _ _ _ He1) in IHa.
    rewrite (newAlerts_app _ _ _ He2) in Ha.
    rewrite (newAlerts_app st _ (e1 ++ e2)) by (by rewrite He2, He1, app_assoc).
    by rewrite List.filter_app, IHa, Ha.
Qed.

(** X8. The size limit in the cycles: while the walk finds at a path only
    entries larger than the limit (which is set) and os.Stat finds the
    path, no cycle writes an alert about it and its entry of the store,
    if it has one, stays as it was: a baselined file that has grown over
    the limit is no longer watched. *)
Theorem file_over_limit_left_alone cfg fss st P :
  (forall fs, In fs fss ->
     overLimitAt cfg fs P = true /\ IsNotExist (fs_stat fs P) = false) ->
  List.filter (aboutPath P) (newAlerts st (runCycles cfg fss st)) = [] /\
  hashDB (runCycles cfg fss st) !! P = hashDB st !! P.
Proof.
  intros H. apply runCycles_untouched. intros fs s Hfs.
  destruct (H fs Hfs) as [Hov Hstat].
  apply checkFiles_untouched; [|by apply exists_not_doomed].
  left. by apply overLimitAt_spec.
Qed.

Lemma file_over_limit_left_alone_witness :
  List.filter (aboutPath "/a/big")
    (newAlerts Cases.stBig
       (runCycles Scenario.cfgA [Scenario.fsA; Scenario.fsA] Cases.stBig)) = [] /\
  hashDB (runCycles Scenario.cfgA [Scenario.fsA; Scenario.fsA] Cases.stBig) !! "/a/big"
  = hashDB Cases.stBig !! "/a/big".
Proof.
  apply (file_over_limit_left_alone Scenario.cfgA [Scenario.fsA; Scenario.fsA]
           Cases.stBig "/a/big").
  intros fs [<-|[<-|[]]]; vm_compute; auto.
Defined.

Lemma scanTargets_intro cfg fs dir p info :
  In dir (monitorDirs cfg) ->
  In (p, Some info, false) (walkTrace (checkCtl cfg dir) (rootNode dir (fs_walk fs dir))) ->
  hashed cfg dir (p, Some info, false) = Some (p, info) ->
  In (p, info) (scanTargets cfg fs).
Proof.
  intros Hdir Hv Hh. unfold scanTargets. apply in_flat_map. exists dir. split; [done|].
  apply list_elem_of_In, list_elem_of_omap. exists (p, Some info, false).
  split; [by apply list_elem_of_In|done].
Qed.

(** X9. No size limit without a positive MaxFileSize (the variable is 0
    when no configuration file is loaded): a regular file that the walk
    visits below a root and that no rule excludes is compared whatever its
    size, and after the cycle the store holds its digest. *)
Theorem no_size_limit_when_zero cfg fs st dir P info h :
  (MaxFileSize cfg <= 0)%Z ->
  In dir (monitorDirs cfg) ->
  In (P, Some info, false) (walkTrace (checkCtl cfg dir) (rootNode dir (fs_walk fs dir))) ->
  P <> dir ->
  shouldExclude P (exclude cfg) = false ->
  IsRegular info = true ->
  fs_sha256 fs P = Some h ->
  IsNotExist (fs_stat fs P) = false ->
  In (P, info) (scanTargets cfg fs) /\
  hashDB (checkFiles cfg fs st) !! P = Some h.
Proof.
  intros Hmax Hdir Hv Hne Hex Hreg Hh Hstat.
  assert (In (P, info) (scanTargets cfg fs)) as Hin.
  { apply (scanTargets_intro cfg fs dir); [done|done|].
    unfold hashed. apply String.eqb_neq in Hne. rewrite Hne, Hex, Hreg. simpl.
    destruct (Z.ltb_spec 0 (MaxFileSize cfg)); [lia|done]. }
  split; [done|]. by apply (checkFiles_stored cfg fs st P info).
Qed.

Lemma no_size_limit_when_zero_witness :
  In ("/a/big", {| Mode := ModeRegular; Size := 10485761 |})
     (scanTargets Cases.cfgPlain Scenario.fsA) /\
  hashDB (checkFiles Cases.cfgPlain Scenario.fsA (startState NoFile)) !! "/a/big"
  = Some "hbig"%string.
Proof.
  apply (no_size_limit_when_zero Cases.cfgPlain Scenario.fsA (startState NoFile) "/a"
           "/a/big" {| Mode := ModeRegular; Size := 10485761 |} "hbig").
  - vm_compute. discriminate.
  - vm_compute. left. reflexivity.
  - vm_compute. right. right. right. left. reflexivity.
  - discriminate.
  - vm_compute. reflexivity.
  - vm_compute. reflexivity.
  - vm_compute. reflexivity.
  - vm_compute. reflexivity.
Defined.

(** X10. The cycles never report an excluded path and never touch its
    entry: over any number of cycles, whatever the disk holds, there is no
    alert about a path that a rule excludes, and the store holds for it
    what it held before. *)
Theorem excluded_path_never_reported cfg fss st q :
  shouldExclude q (exclude cfg) = true ->
  List.filter (aboutPath q) (newAlerts st (runCycles cfg fss st)) = [] /\
  hashDB (runCycles cfg fss st) !! q = hashDB st !! q.
Proof.
  intros Hex. apply runCycles_untouched. intros fs s _.
  by apply checkFiles_excluded_untouched.
Qed.

Lemma excluded_path_never_reported_witness :
  List.filter (aboutPath "/a/b/x")
    (newAlerts (startState NoFile)
       (runCycles Scenario.cfgA [Scenario.fsA; Scenario.fsA] (startState NoFile))) = [] /\
  hashDB (runCycles Scenario.cfgA [Scenario.fsA; Scenario.fsA] (startState NoFile))
    !! "/a/b/x"
  = hashDB (startState NoFile) !! "/a/b/x".
Proof.
  apply (excluded_path_never_reported Scenario.cfgA [Scenario.fsA; Scenario.fsA]
           (startState NoFile) "/a/b/x").
  vm_compute. reflexivity.
Defined.



(** *** The walk and its errors *)

Section WalkError.
Variable ctl : string -> option FileInfo -> bool -> WalkErr.
Hypothesis ctl_err : forall p i, ctl p i true = WalkError.
Hypothesis ctl_ok : forall p i, ctl p i false <> WalkError.

Lemma errFree_app T1 T2 : errFree (T1 ++ T2) = errFree T1 && errFree T2.
Proof. apply forallb_app. Qed.

Lemma endsAtError_app T1 T2 r :
  errFree T1 = true -> endsAtError T2 r -> endsAtError (T1 ++ T2) r.
Proof.
  intros H1 [[H2 Hr]|(T' & v & -> & H2 & Hv & Hr)].
  - left. by rewrite errFree_app, H1, H2.
  - right. exists (T1 ++ T'), v. rewrite app_assoc, errFree_app, H1, H2. auto.
Qed.

Lemma stopsLoop_error c : stopsLoop c WalkError = true.
Proof. destruct c as [p [i|] names]; simpl; [|done]. by rewrite orb_true_r. Qed.

Lemma walk_endsAtError n :
  forall l, exists T r, walk (traceFn ctl) n l = (l ++ T, r) /\ endsAtError T r.
Proof.
  induction n as [path lstat names IH] using node_ind'. intros l.
  destruct lstat as [info|]; simpl.
  2:{ exists [(path, None, true)], (ctl path None true). split; [done|].
      right. exists [], (path, None, true). by rewrite ctl_err. }
  destruct (negb (IsDir info)).
  { exists [(path, Some info, false)], (ctl path (Some info) false). split; [done|].
    left. split; [done|apply ctl_ok]. }
  unfold traceFn at 1.
  destruct names as [entries|].
  2:{ exists [(path, Some info, true)], (ctl path (Some info) true). split; [done|].
      right. exists [], (path, Some info, true). by rewrite ctl_err. }
  destruct (negb (isNil (ctl path (Some info) false))).
  { exists [(path, Some info, false)], (ctl path (Some info) false). split; [done|].
    left. split; [done|apply ctl_ok]. }
  simpl in IH.
  assert (Hloop : forall l, exists T r,
    walkLoop (walk (traceFn ctl)) entries l = (l ++ T, r) /\ endsAtError T r).
  { clear l. induction IH as [|c cs Hc _ IHcs]; intros l; simpl.
    - exists [], WalkNil. rewrite app_nil_r. split; [done|]. by left.
    - destruct (Hc l) as (T1 & r1 & -> & H1).
      destruct (stopsLoop c r1) eqn:Hstop.
      + exists T1, r1. auto.
      + destruct (IHcs (l ++ T1)) as (T2 & r2 & -> & H2).
        exists (T1 ++ T2), r2. rewrite app_assoc. split; [done|].
        apply endsAtError_app; [|done].
        destruct H1 as [[H1 _]|(T' & v & -> & _ & _ & ->)]; [done|].
        by rewrite stopsLoop_error in Hstop. }
  destruct (Hloop (l ++ [(path, Some info, false)])) as (T & r & Heq & HT).
  exists ((path, Some info, false) :: T), r. split.
  - change (walkLoop (walk (traceFn ctl)) entries (l ++ [(path, Some info, false)])
            = (l ++ (path, Some info, false) :: T, r)).
    by rewrite Heq, <- app_assoc.
  - by apply (endsAtError_app [(path, Some info, false)]).
Qed.

Lemma trace_ends_at_error n T1 p info T2 :
  walkTrace ctl n = T1 ++ (p, info, true) :: T2 ->
  T2 = [] /\ (walk (traceFn ctl) n []).2 = WalkError.
Proof.
  unfold walkTrace. destruct (walk_endsAtError n []) as (T & r & -> & HT). simpl.
  intros ->.
  destruct HT as [[HT _]|(T' & v & Heq & HT & Hv & ->)].
  - rewrite errFree_app in HT. simpl in HT. by rewrite andb_false_r in HT.
  - split; [|done].
    destruct T2 as [|z T2 _] using rev_ind; [done|].
    change (T1 ++ (p, info, true) :: T2 ++ [z])
      with (T1 ++ ((p, info, true) :: T2) ++ [z]) in Heq.
    rewrite app_assoc in Heq. apply app_inj_tail in Heq as [<- _].
    rewrite errFree_app in HT. simpl in HT. by rewrite andb_false_r in HT.
Qed.
End WalkError.

Lemma walk_snd_trace {St : Type}
    (fn : string -> option FileInfo -> bool -> St -> St * WalkErr) upd ctl n st :
  (forall p i e s, fn p i e s = (upd p i e s, ctl p i e)) ->
  (walk fn n st).2 = (walk (traceFn ctl) n []).2.
Proof.
  intros Hsplit. destruct (walk_trace_sim fn upd ctl Hsplit n st []) as (T & r & -> & ->).
  done.
Qed.

Lemma checkCtl_ok cfg dir p i : checkCtl cfg dir p i false <> WalkError.
Proof.
  unfold checkCtl. destruct (String.eqb p dir); [done|]. destruct i as [i|]; [|done].
  by destruct (shouldExclude p (exclude cfg) && IsDir i).
Qed.

(** X12. The callbacks of both walks return the error they are passed,
    so the walk of a root ends at the first entry on which Lstat or the
    reading of a directory fails: that visit is the last one of the root,
    the entries that follow in the order of the walk are not visited in
    this cycle, and the walk returns the error (which is logged; the next
    root is walked all the same). *)
Theorem walk_ends_at_first_error cfg fs dir n st T1 p info T2 :
  walkTrace (checkCtl cfg dir) n = T1 ++ (p, info, true) :: T2 ->
  T2 = [] /\
  (walk (checkFile cfg fs dir) n st).2 = WalkError /\
  (forall T1' p' info' T2', walkTrace initCtl n = T1' ++ (p', info', true) :: T2' ->
     T2' = [] /\ (walk (initFile fs) n (st.1)).2 = WalkError).
Proof.
  intros H. split; [|split].
  - by apply (trace_ends_at_error (checkCtl cfg dir) ltac:(done) (checkCtl_ok cfg dir)
                n T1 p info T2).
  - rewrite (walk_snd_trace _ _ _ n st (checkFile_split cfg fs dir)).
    by apply (trace_ends_at_error (checkCtl cfg dir) ltac:(done) (checkCtl_ok cfg dir)
                n T1 p info T2).
  - intros T1' p' info' T2' H'.
    rewrite (walk_snd_trace _ _ _ n st.1 (initFile_split fs)).
    by apply (trace_ends_at_error initCtl ltac:(done) ltac:(done) n T1' p' info' T2').
Qed.

Lemma walk_ends_at_first_error_witness :
  @nil visit = [] /\
  (walk (checkFile Scenario.cfgData Cases.fsLocked "/data") Cases.treeLocked
     (startState NoFile, false)).2 = WalkError /\
  (forall T1' p' info' T2',
     walkTrace initCtl Cases.treeLocked = T1' ++ (p', info', true) :: T2' ->
     T2' = [] /\
     (walk (initFile Cases.fsLocked) Cases.treeLocked (startState NoFile, false).1).2
     = WalkError).
Proof.
  apply (walk_ends_at_first_error Scenario.cfgData Cases.fsLocked "/data" Cases.treeLocked
           (startState NoFile, false)
           [("/data"%string, Some {| Mode := ModeDir; Size := 4096 |}, false)]
           "/data/locked" (Some {| Mode := ModeDir; Size := 4096 |}) []).
  vm_compute. reflexivity.
Defined.

(** X13. A directory that a rule excludes (any rule: also an exact or a
    wildcard rule that matches the directory and not the paths below it)
    and that can be read: the callback answers SkipDir, nothing below the
    directory is visited, the state is as before, and the walk goes on
    with the entries that follow the directory. *)
Theorem excluded_directory_skipped cfg fs dir p info entries rest st :
  IsDir info = true -> shouldExclude p (exclude cfg) = true -> p <> dir ->
  walk (checkFile cfg fs dir) (Node p (Some info) (Some entries)) st = (st, SkipDir) /\
  walkLoop (walk (checkFile cfg fs dir)) (Node p (Some info) (Some entries) :: rest) st
  = walkLoop (walk (checkFile cfg fs dir)) rest st.
Proof.
  intros Hd Hex Hne. apply String.eqb_neq in Hne.
  destruct info as [[] size]; try discriminate Hd.
  assert (walk (checkFile cfg fs dir)
            (Node p (Some {| Mode := ModeDir; Size := size |}) (Some entries)) st
          = (st, SkipDir)) as Hw.
  { simpl. unfold checkFile at 1. simpl. rewrite Hne, Hex. done. }
  split; [done|].
  set (n := Node p (Some {| Mode := ModeDir; Size := size |}) (Some entries)) in *.
  change (walkLoop (walk (checkFile cfg fs dir)) (n :: rest) st)
    with (let '(st2, e) := walk (checkFile cfg fs dir) n st in
          if stopsLoop n e then (st2, e)
          else walkLoop (walk (checkFile cfg fs dir)) rest st2).
  rewrite Hw. done.
Qed.

Lemma excluded_directory_skipped_witness :
  walk (checkFile Cases.cfgCache (Scenario.fsData "hx") "/data")
    (Node "/data/cache" (Some {| Mode := ModeDir; Size := 4096 |})
       (Some [Scenario.regular "/data/cache/t" 1])) (startState NoFile, false)
  = ((startState NoFile, false), SkipDir) /\
  walkLoop (walk (checkFile Cases.cfgCache (Scenario.fsData "hx") "/data"))
    (Node "/data/cache" (Some {| Mode := ModeDir; Size := 4096 |})
       (Some [Scenario.regular "/data/cache/t" 1]) :: [Scenario.regular "/data/a.txt" 1])
    (startState NoFile, false)
  = walkLoop (walk (checkFile Cases.cfgCache (Scenario.fsData "hx") "/data"))
      [Scenario.regular "/data/a.txt" 1] (startState NoFile, false).
Proof.
  apply (excluded_directory_skipped Cases.cfgCache (Scenario.fsData "hx") "/data"
           "/data/cache" {| Mode := ModeDir; Size := 4096 |}
           [Scenario.regular "/data/cache/t" 1] [Scenario.regular "/data/a.txt" 1]
           (startState NoFile, false)).
  - reflexivity.
  - vm_compute. reflexivity.
  - discriminate.
Defined.

(** X14. A root that is itself a file, the only root: the callback of
    checkFiles returns at once on the root, so no cycle compares the file
    (no alert about it, its entry stays as it was, a change of its content
    is not seen), while the baseline build of initHashDB, which has no
    such test, stores its digest. *)
Theorem root_file_never_compared cfg fs st P q info names h :
  monitorDirs cfg = [P] ->
  fs_walk fs P = Node q (Some info) names ->
  IsDir info = false ->
  IsNotExist (fs_stat fs P) = false ->
  fs_sha256 fs P = Some h ->
  scanTargets cfg fs = [] /\
  hashDB (checkFiles cfg fs st) !! P = hashDB st !! P /\
  List.filter (aboutPath P) (newAlerts st (checkFiles cfg fs st)) = [] /\
  (dbFile st = NoFile -> hashDB (initHashDB cfg fs st) !! P = Some h).
Proof.
  intros Hdirs Hw Hnd Hstat Hh.
  assert (scanTargets cfg fs = []) as Hscan.
  { unfold scanTargets. rewrite Hdirs. simpl. rewrite Hw. simpl.
    unfold walkTrace. simpl. rewrite Hnd. simpl.
    by rewrite String.eqb_refl. }
  split; [done|].
  destruct (checkFiles_untouched cfg fs st P) as [Hl Ha].
  { left. rewrite Hscan. simpl. tauto. }
  { by apply exists_not_doomed. }
  split; [done|]. split; [done|].
  intros Hf. unfold initHashDB, loadHashDB. rewrite Hf.
  rewrite saveHashDB_hashDB, walkDirs_init_fold.
  apply baseline_fold_stored; [|done].
  unfold baselineTargets. rewrite Hdirs. simpl. rewrite Hw. simpl.
  unfold walkTrace. simpl. rewrite Hnd. simpl. rewrite Hnd. simpl. by left.
Qed.

Lemma root_file_never_compared_witness :
  scanTargets Cases.cfgFile Cases.fsFile = [] /\
  hashDB (checkFiles Cases.cfgFile Cases.fsFile Cases.stFile) !! "/f"
  = hashDB Cases.stFile !! "/f" /\
  List.filter (aboutPath "/f")
    (newAlerts Cases.stFile (checkFiles Cases.cfgFile Cases.fsFile Cases.stFile)) = [] /\
  (dbFile Cases.stFile = NoFile ->
   hashDB (initHashDB Cases.cfgFile Cases.fsFile Cases.stFile) !! "/f" = Some "hf"%string).
Proof.
  apply (root_file_never_compared Cases.cfgFile Cases.fsFile Cases.stFile "/f" "/f"
           {| Mode := ModeRegular; Size := 1 |} None "hf").
  - reflexivity.
  - vm_compute. reflexivity.
  - reflexivity.
  - vm_compute. reflexivity.
  - vm_compute. reflexivity.
Defined.

(** *** The baseline build *)

Lemma baseline_fold_other fs l st q :
  ~ In q l \/ fs_sha256 fs q = None ->
  hashDB (fold_left (baselineStep fs) l st) !! q = hashDB st !! q.
Proof.
  revert st. induction l as [|p l IH]; intros st Hq; simpl; [done|].
  rewrite IH.
  - rewrite baselineStep_lookup. case_decide as Hpq; [|done]. subst p.
    destruct Hq as [Hq|Hq]; [exfalso; apply Hq; by left|by rewrite Hq].
  - destruct Hq as [Hq|Hq]; [left|by right]. intros Hin. apply Hq. by right.
Qed.

(** X15. A start without store file (or with one that cannot be read):
    initHashDB writes no alert; the store it leaves holds the digest of
    every entry its walk reaches that is no directory and can be read, and
    for every other path what it held before (nothing, at the start of the
    program); when the directory can be made and the file written, the
    store file holds the text of this store; and the cycle that follows
    writes no alert about a file that both walks reach. *)
Theorem first_start_builds_baseline cfg fs st :
  dbFile st = NoFile \/ dbFile st = Unreadable ->
  alerts (initHashDB cfg fs st) = alerts st /\
  (forall q h, In q (baselineTargets cfg fs) -> fs_sha256 fs q = Some h ->
     hashDB (initHashDB cfg fs st) !! q = Some h) /\
  (forall q, ~ In q (baselineTargets cfg fs) \/ fs_sha256 fs q = None ->
     hashDB (initHashDB cfg fs st) !! q = hashDB st !! q) /\
  (fs_mkdirall_ok fs = true -> fs_writefile_ok fs = true ->
   dbFile (initHashDB cfg fs st)
   = Content (Json.MarshalIndent (hashDB (initHashDB cfg fs st)))) /\
  (forall p info, In (p, info) (scanTargets cfg fs) -> In p (baselineTargets cfg fs) ->
     IsNotExist (fs_stat fs p) = false ->
     List.filter (aboutPath p)
       (newAlerts (initHashDB cfg fs st) (checkFiles cfg fs (initHashDB cfg fs st))) = []).
Proof.
  intros Hf.
  assert (initHashDB cfg fs st
          = (saveHashDB fs (fold_left (baselineStep fs) (baselineTargets cfg fs) st)).1) as ->.
  { unfold initHashDB, loadHashDB.
    destruct Hf as [-> | ->]; by rewrite walkDirs_init_fold. }
  assert (forall q h, In q (baselineTargets cfg fs) -> fs_sha256 fs q = Some h ->
     hashDB (saveHashDB fs (fold_left (baselineStep fs) (baselineTargets cfg fs) st)).1 !! q
     = Some h) as Hstored.
  { intros q h Hin Hh. rewrite saveHashDB_hashDB. by apply baseline_fold_stored. }
  split; [by rewrite saveHashDB_alerts, baseline_fold_alerts|].
  split; [done|]. split; [|split].
  - intros q Hq. rewrite saveHashDB_hashDB. by apply baseline_fold_other.
  - intros Hmk Hwr. unfold saveHashDB. rewrite Hmk, Hwr. done.
  - intros p info Hscan Hbase Hstat.
    apply checkFiles_untouched; [|by apply exists_not_doomed].
    right. destruct (fs_sha256 fs p) as [h|] eqn:Hh; [right|by left].
    by apply Hstored.
Qed.

Lemma first_start_builds_baseline_witness :
  alerts (initHashDB Scenario.cfgData (Scenario.fsData "hx") (startState NoFile))
  = alerts (startState NoFile) /\
  (forall q h, In q (baselineTargets Scenario.cfgData (Scenario.fsData "hx")) ->
     fs_sha256 (Scenario.fsData "hx") q = Some h ->
     hashDB (initHashDB Scenario.cfgData (Scenario.fsData "hx") (startState NoFile)) !! q
     = Some h) /\
  (forall q, ~ In q (baselineTargets Scenario.cfgData (Scenario.fsData "hx"))
             \/ fs_sha256 (Scenario.fsData "hx") q = None ->
     hashDB (initHashDB Scenario.cfgData (Scenario.fsData "hx") (startState NoFile)) !! q
     = hashDB (startState NoFile) !! q) /\
  (fs_mkdirall_ok (Scenario.fsData "hx") = true ->
   fs_writefile_ok (Scenario.fsData "hx") = true ->
   dbFile (initHashDB Scenario.cfgData (Scenario.fsData "hx") (startState NoFile))
   = Content (Json.MarshalIndent
                (hashDB (initHashDB Scenario.cfgData (Scenario.fsData "hx")
                           (startState NoFile))))) /\
  (forall p info, In (p, info) (scanTargets Scenario.cfgData (Scenario.fsData "hx")) ->
     In p (baselineTargets Scenario.cfgData (Scenario.fsData "hx")) ->
     IsNotExist (fs_stat (Scenario.fsData "hx") p) = false ->
     List.filter (aboutPath p)
       (newAlerts (initHashDB Scenario.cfgData (Scenario.fsData "hx") (startState NoFile))
          (checkFiles Scenario.cfgData (Scenario.fsData "hx")
             (initHashDB Scenario.cfgData (Scenario.fsData "hx") (startState NoFile))))
     = []).
Proof.
  apply (first_start_builds_baseline Scenario.cfgData (Scenario.fsData "hx")
           (startState NoFile)).
  left. reflexivity.
Defined.

(** X16. A store file that is well-formed JSON but holds a value of the
    wrong type is not discarded: json.Unmarshal has stored its members
    (the zero value for one of the wrong type) before it reports the
    error, and initHashDB builds the baseline on top of them.  Whatever
    the walk does not overwrite stays in the store, as the file had
    it. *)
Theorem mistyped_store_entries_persist cfg fs st data m k :
  dbFile st = Content data ->
  Json.Unmarshal data (hashDB st) = (m, Some Json.UnmarshalTypeError) ->
  ~ In k (baselineTargets cfg fs) \/ fs_sha256 fs k = None ->
  hashDB (initHashDB cfg fs st) !! k = m !! k.
Proof.
  intros Hf Hu Hk.
  rewrite (initHashDB_rebuild cfg fs st data m _ Hf Hu), saveHashDB_hashDB.
  by rewrite baseline_fold_other.
Qed.

Lemma mistyped_store_entries_persist_witness :
  hashDB (initHashDB Scenario.cfgData (Scenario.fsData "hx")
            (startState (Content Cases.dataMistyped))) !! "/data/stale"
  = (<["/data/stale" := "hs"]> (<["/data/n" := ""]> ∅) : gmap string string)
      !! "/data/stale".
Proof.
  apply (mistyped_store_entries_persist Scenario.cfgData (Scenario.fsData "hx")
           (startState (Content Cases.dataMistyped)) Cases.dataMistyped
           (<["/data/stale" := "hs"%string]> (<["/data/n" := ""%string]> ∅)) "/data/stale").
  - reflexivity.
  - vm_compute. reflexivity.
  - left. vm_compute. intros [H|[H|[]]]; discriminate H.
Defined.

(** *** Loading the store file *)

Section Literals.
Local Open Scope string_scope.

Lemma scanString_escaped n :
  forall x raw rest, String.length x <= n ->
  Json.scanString x = Some (raw, rest) -> escaped raw.
Proof.
  induction n as [|n IH]; intros x raw rest Hn.
  - destruct x; [done|simpl in Hn; lia].
  - destruct x as [|c s']; [done|]. simpl in Hn. simpl.
    destruct (Ascii.eqb c Json.dquote) eqn:Hq.
    { intros [= <- <-]. constructor. }
    destruct (Ascii.eqb c "\") eqn:Hb.
    + apply Ascii.eqb_eq in Hb. subst c.
      destruct s' as [|e s'']; [done|]. simpl in Hn.
      destruct (Json.isSimpleEscape e) eqn:He.
      * destruct (Json.scanString s'') as [[raw' rest']|] eqn:Hs; [|done].
        intros [= <- <-]. apply esc_simple; [done|].
        apply (IH s'' raw' rest'); [lia|done].
      * destruct (Ascii.eqb e "u") eqn:Hu; [|done].
        apply Ascii.eqb_eq in Hu. subst e.
        destruct s'' as [|h1 [|h2 [|h3 [|h4 s5]]]]; try done.
        destruct (Json.isHex h1 && Json.isHex h2 && Json.isHex h3 && Json.isHex h4) eqn:Hh;
          [|done].
        destruct (Json.scanString s5) as [[raw' rest']|] eqn:Hs; [|done].
        intros [= <- <-]. apply esc_unicode; [done|].
        apply (IH s5 raw' rest'); [simpl in Hn; lia|done].
    + destruct (byteN c <? 32)%N eqn:Hc; [done|].
      destruct (Json.scanString s') as [[raw' rest']|] eqn:Hs; [|done].
      intros [= <- <-]. apply esc_plain; try done.
      apply (IH s' raw' rest'); [lia|done].
Qed.

Lemma escaped_high c s :
  (0x80 <= byteN c)%N -> escaped (String c s) -> escaped s.
Proof.
  intros Hc H. inversion H; subst; [done|..].
  - vm_compute in Hc. done.
  - vm_compute in Hc. done.
Qed.

Lemma escaped_allHigh w s : allHigh w = true -> escaped (w ++ s) -> escaped s.
Proof.
  induction w as [|c w IH]; intros Hw H; [done|].
  simpl in Hw. apply andb_true_iff in Hw as [Hc Hw]. apply N.leb_le in Hc.
  rewrite append_String in H. apply escaped_high in H; auto.
Qed.

Lemma length_drop n s : String.length (GoStrings.drop n s) = String.length s - n.
Proof.
  revert s. induction n as [|n IH]; intros s; simpl; [lia|].
  destruct s as [|c s]; [done|]. simpl. apply IH.
Qed.

Lemma drop_drop n k s : GoStrings.drop (n + k) s = GoStrings.drop k (GoStrings.drop n s).
Proof.
  revert s. induction n as [|n IH]; intros s; simpl; [done|].
  destruct s as [|c s]; [by destruct k|]. apply IH.
Qed.

(* Past the rune that starts with a byte outside ASCII. *)
Lemma escaped_decode c t rr size :
  (0x80 <= byteN c)%N ->
  Utf8.DecodeRuneInString (String c t) = (rr, size) ->
  escaped (String c t) ->
  escaped (GoStrings.drop size (String c t)) /\ 1 <= size.
Proof.
  intros Hc Hdec Hesc.
  destruct ((rr =? Utf8.RuneError)%N && (size =? 1)%nat) eqn:Hv.
  - apply andb_true_iff in Hv as [_ Hs]. apply Nat.eqb_eq in Hs. subst size.
    split; [|lia]. simpl. by apply (escaped_high c).
  - destruct (decode_high c t rr size Hc Hdec Hv) as (w & rest & Heq & Hlen & Henc).
    rewrite Heq in Hesc |- *. rewrite <- Hlen, drop_length_app.
    destruct Henc as ([Hl _] & Hhigh & _). split; [|lia].
    by apply (escaped_allHigh w).
Qed.

Lemma hexVal_isHex h : Json.isHex h = true -> exists v, Json.hexVal h = Some v.
Proof.
  unfold Json.isHex, Json.hexVal, Json.isDigit. intros H.
  destruct ((48 <=? byteN h)%N && (byteN h <=? 57)%N); [eauto|].
  destruct ((97 <=? byteN h)%N && (byteN h <=? 102)%N); [eauto|].
  destruct ((65 <=? byteN h)%N && (byteN h <=? 70)%N); [eauto|done].
Qed.

Lemma getu4_not_backslash c s : Ascii.eqb c "\" = false -> Json.getu4 (String c s) = None.
Proof. each_byte c; intros H; try discriminate H; reflexivity. Qed.

Lemma getu4_not_u e s : Ascii.eqb e "u" = false -> Json.getu4 (String "\" (String e s)) = None.
Proof. each_byte e; intros H; try discriminate H; reflexivity. Qed.

Lemma isSimpleEscape_not_u e : Json.isSimpleEscape e = true -> Ascii.eqb e "u" = false.
Proof.
  unfold Json.isSimpleEscape. intros He.
  repeat (apply orb_true_iff in He as [He|He]); apply Ascii.eqb_eq in He; by subst e.
Qed.

(* Where a second escape follows, the literal goes on after it. *)
Lemma escaped_getu4 s r :
  escaped s -> Json.getu4 s = Some r -> escaped (GoStrings.drop 6 s) /\ 6 <= String.length s.
Proof.
  intros Hesc Hg.
  inversion Hesc as [|c0 s0 Hb0 _ _ _|e0 s0 He0 _|k1 k2 k3 k4 s0 _ Hs0]; subst.
  - done.
  - by rewrite getu4_not_backslash in Hg.
  - by rewrite getu4_not_u in Hg by (by apply isSimpleEscape_not_u).
  - split; [done|]. simpl. lia.
Qed.

Lemma fmap_Some_is_Some {A B} (f : A -> B) (x : option A) : is_Some x -> is_Some (f <$> x).
Proof. intros [y ->]. by eexists. Qed.

(* The second loop of unquoteBytes does not fail on a literal that the
   scanner has accepted. *)
Lemma unquoteLoop_escaped f :
  forall s, String.length s <= f -> escaped s -> is_Some (Json.unquoteLoop f s).
Proof.
  induction f as [|f IH]; intros s Hf Hesc.
  - destruct s; [by eexists|simpl in Hf; lia].
  - inversion Hesc as [|c s' Hb Hq Hc Hs'|e s' He Hs'|h1 h2 h3 h4 s' Hh Hs']; subst.
    + by eexists.
    + simpl in Hf.
      destruct (byteN c <? Utf8.RuneSelf)%N eqn:Hlow.
      * cbn [Json.unquoteLoop]. rewrite Hb, Hq, Hc. cbn [orb]. rewrite Hlow.
        apply fmap_Some_is_Some, IH; [lia|done].
      * apply N.ltb_ge in Hlow. rewrite unquote_high by (by apply N.leb_le).
        destruct (Utf8.DecodeRuneInString (String c s')) as [rr size] eqn:Hdec.
        destruct (escaped_decode c s' rr size Hlow Hdec Hesc) as [Hd Hsz].
        apply fmap_Some_is_Some, IH; [|done].
        rewrite length_drop. simpl. lia.
    + simpl in Hf.
      assert (is_Some (Json.unquoteLoop f s')) as Hrec by (apply IH; [lia|done]).
      unfold Json.isSimpleEscape in He.
      repeat (apply orb_true_iff in He as [He|He]);
        apply Ascii.eqb_eq in He; subst e; simpl; by apply fmap_Some_is_Some.
    + simpl in Hf.
      repeat (apply andb_true_iff in Hh as [Hh ?]).
      destruct (hexVal_isHex h1) as [v1 Hv1]; [done|].
      destruct (hexVal_isHex h2) as [v2 Hv2]; [done|].
      destruct (hexVal_isHex h3) as [v3 Hv3]; [done|].
      destruct (hexVal_isHex h4) as [v4 Hv4]; [done|].
      cbn [Json.unquoteLoop].
      change (Ascii.eqb "\" "\") with true. cbv iota.
      change (Ascii.eqb "u" Json.dquote || Ascii.eqb "u" "\" || Ascii.eqb "u" "/"
              || Ascii.eqb "u" "'") with false.
      cbv iota.
      change (Ascii.eqb "u" "b") with false. change (Ascii.eqb "u" "f") with false.
      change (Ascii.eqb "u" "n") with false. change (Ascii.eqb "u" "r") with false.
      change (Ascii.eqb "u" "t") with false. change (Ascii.eqb "u" "u") with true.
      cbv iota.
      cbn [Json.getu4]. rewrite Hv1, Hv2, Hv3, Hv4.
      change (GoStrings.drop 6 (String "\" (String "u" (String h1 (String h2
                (String h3 (String h4 s'))))))) with s'.
      cbv zeta.
      set (rr := (((v1 * 16 + v2) * 16 + v3) * 16 + v4)%N).
      destruct (Json.IsSurrogate rr).
      * destruct (negb (Json.utf16DecodeRune rr (Json.getu4 s') =? Utf8.RuneError)%N) eqn:Hdec.
        -- apply fmap_Some_is_Some.
           destruct (Json.getu4 s') as [r2|] eqn:Hg.
           2:{ simpl in Hdec. done. }
           destruct (escaped_getu4 s' r2 Hs' Hg) as [Hd Hlen].
           apply IH; [rewrite length_drop; simpl in Hf; lia|done].
        -- apply fmap_Some_is_Some, IH; [simpl in Hf; lia|done].
      * apply fmap_Some_is_Some, IH; [simpl in Hf; lia|done].
Qed.

Lemma escaped_plainPrefix fuel :
  forall s, escaped s -> escaped (GoStrings.drop (Json.plainPrefix fuel s) s).
Proof.
  induction fuel as [|fuel IH]; intros s Hesc; [done|].
  destruct s as [|c s']; [done|]. cbn [Json.plainPrefix].
  destruct (Ascii.eqb c "\" || Ascii.eqb c Json.dquote || (byteN c <? 32)%N) eqn:Hstop; [done|].
  destruct (byteN c <? Utf8.RuneSelf)%N eqn:Hlow.
  - simpl. apply IH.
    apply orb_false_iff in Hstop as [Hstop _]. apply orb_false_iff in Hstop as [Hb _].
    inversion Hesc; subst; [done|discriminate Hb..].
  - apply N.ltb_ge in Hlow.
    destruct (Utf8.DecodeRuneInString (String c s')) as [rr size] eqn:Hdec.
    destruct ((rr =? Utf8.RuneError)%N && (size =? 1)%nat); [done|].
    destruct (escaped_decode c s' rr size Hlow Hdec Hesc) as [Hd _].
    rewrite drop_drop. by apply IH.
Qed.

(* unquoteBytes does not fail on a literal that the scanner has
   accepted. *)
Lemma unquoteBytes_scanned raw : scanned raw -> is_Some (Json.unquoteBytes raw).
Proof.
  intros (x & rest & Hs).
  pose proof (scanString_escaped (String.length x) x raw rest (le_n _) Hs) as Hesc.
  unfold Json.unquoteBytes. apply fmap_Some_is_Some, unquoteLoop_escaped.
  - rewrite length_drop. lia.
  - by apply escaped_plainPrefix.
Qed.

Lemma scanValue_inv f d s v r :
  Json.scanValue f d s = Some (v, r) ->
  match v with
  | Json.VString raw => scanned raw
  | Json.VObject ms => ms = [] \/ exists f' d' s1, Json.scanMembers f' d' s1 = Some (ms, r)
  | _ => True
  end.
Proof.
  destruct f as [|f]; [done|]. destruct s as [|c s']; [done|].
  cbn [Json.scanValue].
  destruct (Ascii.eqb c "{").
  { destruct (Json.maxNestingDepth <=? d)%N; [done|].
    destruct (Json.skipSpace s') as [|c1 s1].
    - destruct (Json.scanMembers f (d + 1) "") as [[ms r0]|] eqn:Hm; [|done].
      intros [= <- <-]. right. eauto.
    - each_byte c1; cbv iota.
      all: try (intros [= <- <-]; by left).
      all: match goal with
           | |- context [Json.scanMembers ?a ?b ?c] =>
             destruct (Json.scanMembers a b c) as [[ms r0]|] eqn:Hm; [|done]
           end.
      all: intros [= <- <-]; right; eauto. }
  destruct (Ascii.eqb c "[").
  { destruct (Json.maxNestingDepth <=? d)%N; [done|].
    destruct (Json.skipSpace s') as [|c1 s1].
    - destruct (Json.scanElements f (d + 1) "") as [r0|] eqn:Hm; [|done].
      by intros [= <- <-].
    - each_byte c1; cbv iota.
      all: try (by intros [= <- <-]).
      all: match goal with
           | |- context [Json.scanElements ?a ?b ?c] =>
             destruct (Json.scanElements a b c) as [r0|] eqn:Hm; [|done]
           end.
      all: by intros [= <- <-]. }
  destruct (Ascii.eqb c Json.dquote).
  { destruct (Json.scanString s') as [[raw r0]|] eqn:Hs; [|done].
    intros [= <- <-]. by exists s', r0. }
  destruct (Ascii.eqb c "-" || Json.isDigit c).
  { destruct (Json.scanNumber (String c s')) as [r0|]; [|done]. by intros [= <- <-]. }
  destruct (String.prefix "true" (String c s')); [by intros [= <- <-]|].
  destruct (String.prefix "false" (String c s')); [by intros [= <- <-]|].
  destruct (String.prefix "null" (String c s')); [by intros [= <- <-]|].
  done.
Qed.

Lemma scanMembers_scanned f :
  forall d s ms r, Json.scanMembers f d s = Some (ms, r) -> Forall scannedMember ms.
Proof.
  induction f as [|f IH]; intros d s ms r; [done|].
  destruct s as [|c s']; [done|]. cbn [Json.scanMembers].
  destruct (Ascii.eqb c Json.dquote); [|done].
  destruct (Json.scanString s') as [[key r1]|] eqn:Hk; [|done].
  assert (scanned key) as Hkey by (by exists s', r1).
  destruct (Json.skipSpace r1) as [|c1 r2]; [done|].
  destruct (Ascii.eqb c1 ":") eqn:Hc1.
  2:{ revert Hc1. each_byte c1; intros Hc1; try discriminate Hc1; done. }
  apply Ascii.eqb_eq in Hc1. subst c1. cbv iota.
  destruct (Json.scanValue f d (Json.skipSpace r2)) as [[v r3]|] eqn:Hv; [|done].
  assert (scannedMember (key, v)) as Hmem.
  { split; [done|]. simpl. intros raw ->. by apply scanValue_inv in Hv. }
  destruct (Json.skipSpace r3) as [|c3 r4]; [done|].
  destruct (Ascii.eqb c3 ",") eqn:Hc3.
  - apply Ascii.eqb_eq in Hc3. subst c3. cbv iota.
    destruct (Json.scanMembers f d (Json.skipSpace r4)) as [[ms' r5]|] eqn:Hm; [|done].
    intros [= <- <-]. constructor; [done|]. by apply (IH d (Json.skipSpace r4) ms' r5).
  - destruct (Ascii.eqb c3 "}") eqn:Hc3'.
    + apply Ascii.eqb_eq in Hc3'. subst c3. cbv iota.
      intros [= <- <-]. by constructor.
    + revert Hc3 Hc3'. each_byte c3; intros Hc3 Hc3'; try discriminate Hc3;
        try discriminate Hc3'; done.
Qed.

Lemma elemOf_scanned v :
  (forall raw, v = Json.VString raw -> scanned raw) ->
  exists s, Json.elemOf v = Some (s, negb (stringOrNull v)).
Proof.
  intros H. destruct v; simpl; eauto.
  destruct (unquoteBytes_scanned raw (H raw eq_refl)) as [s ->]. eauto.
Qed.

(* The members are stored, and the type error is the one of the values
   that are neither strings nor null. *)
Lemma storeMembers_scanned ms :
  Forall scannedMember ms ->
  forall m e, exists m',
    Json.storeMembers ms m e
    = Some (m', e || negb (forallb (fun kv => stringOrNull kv.2) ms)).
Proof.
  induction 1 as [|[rawkey v] ms [Hk Hv] _ IH]; intros m e; simpl.
  - exists m. by rewrite orb_false_r.
  - simpl in Hk, Hv.
    destruct (unquoteBytes_scanned rawkey Hk) as [key ->].
    destruct (elemOf_scanned v Hv) as [s ->].
    destruct (IH (<[key := s]> m) (e || negb (stringOrNull v))) as [m' ->].
    exists m'. f_equal. f_equal.
    destruct e, (stringOrNull v); simpl; done.
Qed.

Lemma checkValid_scanned data ms :
  Json.checkValid data = Some (Json.VObject ms) -> Forall scannedMember ms.
Proof.
  unfold Json.checkValid.
  destruct (Json.scanValue _ _ _) as [[v r]|] eqn:Hv; [|done].
  destruct (String.eqb (Json.skipSpace r) ""); [|done].
  intros [= ->]. apply scanValue_inv in Hv as [->|(f' & d' & s1 & Hm)]; [constructor|].
  by apply scanMembers_scanned in Hm.
Qed.

Lemma Unmarshal_succeeds_iff data m :
  (Json.Unmarshal data m).2 = None <->
  match Json.checkValid data with
  | Some Json.VNull => True
  | Some (Json.VObject ms) => forallb (fun kv => stringOrNull kv.2) ms = true
  | _ => False
  end.
Proof.
  unfold Json.Unmarshal.
  destruct (Json.checkValid data) as [v|] eqn:Hv; [|done].
  destruct v; try done.
  destruct (storeMembers_scanned members (checkValid_scanned data members Hv) m false)
    as [m' ->].
  simpl. destruct (forallb _ members); simpl; done.
Qed.

(** X17. When initHashDB loads the store: exactly when the store file can
    be read and its text is well-formed JSON whose value is null or an
    object of which every value is a string or null.  A text that is not
    well formed, a value of another kind and a member of another type
    all send initHashDB to the baseline build; no other error of the
    decoder exists. *)
Theorem store_loads_iff st :
  (loadHashDB st).2 = true <->
  match dbFile st with
  | Content data =>
    match Json.checkValid data with
    | Some Json.VNull => True
    | Some (Json.VObject ms) => forallb (fun kv => stringOrNull kv.2) ms = true
    | _ => False
    end
  | _ => False
  end.
Proof.
  unfold loadHashDB. destruct (dbFile st) as [| |data]; [done..|].
  rewrite <- (Unmarshal_succeeds_iff data (hashDB st)).
  destruct (Json.Unmarshal data (hashDB st)) as [m [e|]]; simpl; done.
Qed.

Lemma forallb_rawMember es :
  forallb (fun kv : string * Json.value => stringOrNull kv.2) (map rawMember es) = true.
Proof. induction es as [|[k v] es IH]; [done|]. simpl. exact IH. Qed.

(* The text of any map decodes without error. *)
Lemma Unmarshal_MarshalIndent_loads (m : gmap string string) :
  (Json.Unmarshal (Json.MarshalIndent m) ∅).2 = None.
Proof.
  apply Unmarshal_succeeds_iff. unfold Json.MarshalIndent.
  destruct (Json.sortedEntries m) as [|kv es] eqn:Hes; [done|].
  rewrite checkValid_object by done. apply forallb_rawMember.
Qed.

(** X18. What saveHashDB writes, initHashDB loads: whatever the store
    holds (also paths that are not UTF-8, which come back changed), the
    text written is well-formed and of the right type, so a start that
    finds the file takes the map from it and builds no baseline. *)
Theorem saved_store_loads fs st :
  fs_mkdirall_ok fs = true ->
  fs_writefile_ok fs = true ->
  (saveHashDB fs st).2 = false /\
  (loadHashDB (startState (dbFile (saveHashDB fs st).1))).2 = true /\
  (forall cfg fs', initHashDB cfg fs' (startState (dbFile (saveHashDB fs st).1))
                   = (loadHashDB (startState (dbFile (saveHashDB fs st).1))).1).
Proof.
  intros Hmk Hwr. unfold saveHashDB. rewrite Hmk, Hwr. simpl.
  split; [done|].
  assert ((loadHashDB (startState (Content (Json.MarshalIndent (hashDB st))))).2 = true) as Hl.
  { unfold loadHashDB. simpl.
    pose proof (Unmarshal_MarshalIndent_loads (hashDB st)) as H.
    destruct (Json.Unmarshal _ ∅) as [m [e|]]; simpl in *; done. }
  split; [done|].
  intros cfg fs'. unfold initHashDB.
  destruct (loadHashDB _) as [st0 loaded]. simpl in Hl. by subst loaded.
Qed.

Lemma saved_store_loads_witness :
  (saveHashDB (Scenario.fsData "hx") Scenario.stLatin1).2 = false /\
  (loadHashDB (startState (dbFile (saveHashDB (Scenario.fsData "hx") Scenario.stLatin1).1))).2
  = true /\
  (forall cfg fs',
     initHashDB cfg fs'
       (startState (dbFile (saveHashDB (Scenario.fsData "hx") Scenario.stLatin1).1))
     = (loadHashDB
          (startState (dbFile (saveHashDB (Scenario.fsData "hx") Scenario.stLatin1).1))).1).
Proof.
  apply (saved_store_loads (Scenario.fsData "hx") Scenario.stLatin1); reflexivity.
Defined.
End Literals.

(** *** Start-up *)

Section StartupProperties.
Local Open Scope string_scope.

(** X19. A start with a configuration file (the flag -config has a
    default, so: unless it is given empty): the program runs only if the
    file can be read and decoded and names a directory; the directories it
    monitors and its rules are then those of the file, and the directories
    given as arguments are dropped; the size limit is 10485760 bytes. *)
Theorem config_file_replaces_arguments env cl g :
  Startup.main env cl = inr g ->
  Startup.configFile (Startup.parseFlags cl) <> "" ->
  exists file config,
    Startup.readFile env (Startup.configFile (Startup.parseFlags cl)) = Some file /\
    Startup.unmarshalConfig env file = Some config /\
    Startup.monitorDirs g = Startup.Directories (Startup.wenjian config) /\
    Startup.monitorDirs g <> [] /\
    Startup.exclude g = Startup.Exclude (Startup.wenjian config) /\
    Startup.MaxFileSize g = 10485760%Z.
Proof.
  unfold Startup.main, Startup.initLog.
  destruct (negb (Startup.mkdirAll env _)); [done|].
  destruct (negb (Startup.openFile env _)); [done|]. simpl.
  intros Hmain Hne. apply String.eqb_neq in Hne. rewrite Hne in Hmain. simpl in Hmain.
  unfold Startup.loadConfigFromFile in Hmain. simpl in Hmain.
  destruct (Startup.readFile env _) as [file|] eqn:Hr; [|done].
  destruct (Startup.unmarshalConfig env file) as [config|] eqn:Hu; [|done].
  destruct (length (Startup.Directories (Startup.wenjian config)) =? 0)%nat eqn:Hd; [done|].
  simpl in Hmain. rewrite Hd in Hmain. injection Hmain as <-. simpl.
  exists file, config. repeat split; try done.
  intros Hnil. rewrite Hnil in Hd. done.
Qed.

Lemma config_file_replaces_arguments_witness :
  exists file config,
    Startup.readFile Cases.envConfig (Startup.configFile (Startup.parseFlags Cases.clArgs))
    = Some file /\
    Startup.unmarshalConfig Cases.envConfig file = Some config /\
    Startup.monitorDirs Cases.globalsNamed = Startup.Directories (Startup.wenjian config) /\
    Startup.monitorDirs Cases.globalsNamed <> [] /\
    Startup.exclude Cases.globalsNamed = Startup.Exclude (Startup.wenjian config) /\
    Startup.MaxFileSize Cases.globalsNamed = 10485760%Z.
Proof.
  apply (config_file_replaces_arguments Cases.envConfig Cases.clArgs Cases.globalsNamed).
  - reflexivity.
  - discriminate.
Defined.

(** X20. A start without configuration file (-config given empty): the
    program monitors the directories given as arguments, and stops when
    there is none; no rule excludes a path and no size limits the files
    that the cycles compare. *)
Theorem no_config_file_no_rules env cl g path info :
  Startup.flagConfig cl = Some "" ->
  Startup.main env cl = inr g ->
  Startup.monitorDirs g = Startup.flagArgs cl /\ Startup.flagArgs cl <> [] /\
  shouldExclude path (exclude (Startup.cycleConfig g)) = false /\
  ((0 <? MaxFileSize (Startup.cycleConfig g))%Z
   && (MaxFileSize (Startup.cycleConfig g) <? Size info)%Z) = false.
Proof.
  intros Hc. unfold Startup.main, Startup.initLog.
  destruct (negb (Startup.mkdirAll env _)); [done|].
  destruct (negb (Startup.openFile env _)); [done|]. simpl. rewrite Hc. simpl.
  destruct (length (Startup.flagArgs cl) =? 0)%nat eqn:Hd; [done|]. intros [= <-]. simpl.
  repeat split; try done. intros Hnil. by rewrite Hnil in Hd.
Qed.

Lemma no_config_file_no_rules_witness :
  Startup.monitorDirs Cases.globalsPlain = Startup.flagArgs Cases.clPlain /\
  Startup.flagArgs Cases.clPlain <> [] /\
  shouldExclude "/home/u/x.log" (exclude (Startup.cycleConfig Cases.globalsPlain)) = false /\
  ((0 <? MaxFileSize (Startup.cycleConfig Cases.globalsPlain))%Z
   && (MaxFileSize (Startup.cycleConfig Cases.globalsPlain)
       <? Size {| Mode := ModeRegular; Size := 10485761 |})%Z) = false.
Proof.
  apply (no_config_file_no_rules Cases.envConfig Cases.clPlain Cases.globalsPlain
           "/home/u/x.log" {| Mode := ModeRegular; Size := 10485761 |}); reflexivity.
Defined.

(** X21. The log is written to the path of the flag -log (or its
    default): initLog opens the file before the configuration file is
    read, so the entry log_file of the configuration changes the variable
    logFilePath, which main prints, and not the file that is written. *)
Theorem log_file_is_the_flag env cl g :
  Startup.main env cl = inr g ->
  Startup.logFile g = Some (default "data/webmonitor.log" (Startup.flagLog cl)) /\
  (forall file config,
     Startup.configFile (Startup.parseFlags cl) <> "" ->
     Startup.readFile env (Startup.configFile (Startup.parseFlags cl)) = Some file ->
     Startup.unmarshalConfig env file = Some config ->
     Startup.LogFile config <> "" ->
     Startup.logFilePath g = Startup.LogFile config).
Proof.
  unfold Startup.main, Startup.initLog.
  destruct (negb (Startup.mkdirAll env _)); [done|].
  destruct (negb (Startup.openFile env _)); [done|]. simpl.
  destruct (String.eqb_spec (default "data/config.json" (Startup.flagConfig cl)) "")
    as [He|Hne]; simpl.
  - destruct (length (Startup.flagArgs cl) =? 0)%nat; [done|]. intros [= <-].
    split; [done|]. intros file config Hne. done.
  - unfold Startup.loadConfigFromFile. simpl.
    destruct (Startup.readFile env _) as [file|] eqn:Hr; [|done].
    destruct (Startup.unmarshalConfig env file) as [config|] eqn:Hu; [|done].
    destruct (length (Startup.Directories (Startup.wenjian config)) =? 0)%nat eqn:Hd;
      [done|]. simpl.
    rewrite Hd. intros [= <-]. split; [done|]. simpl.
    intros file' config' _ [= <-] Hu' Hlog.
    rewrite Hu in Hu'. injection Hu' as <-.
    apply String.eqb_neq in Hlog. by rewrite Hlog.
Qed.

Lemma log_file_is_the_flag_witness :
  Startup.logFile Cases.globalsNamed
  = Some (default "data/webmonitor.log" (Startup.flagLog Cases.clArgs)) /\
  (forall file config,
     Startup.configFile (Startup.parseFlags Cases.clArgs) <> "" ->
     Startup.readFile Cases.envConfig (Startup.configFile (Startup.parseFlags Cases.clArgs))
     = Some file ->
     Startup.unmarshalConfig Cases.envConfig file = Some config ->
     Startup.LogFile config <> "" ->
     Startup.logFilePath Cases.globalsNamed = Startup.LogFile config).
Proof.
  apply (log_file_is_the_flag Cases.envConfig Cases.clArgs Cases.globalsNamed).
  reflexivity.
Defined.
End StartupProperties.

